(** * Datablip download engine: a shallow embedding of
      internal/downloader/manager.go and the properties of its
      partitioning, fetching, merging, progress and registry code. *)

From Stdlib Require Import ZArith Lia.
From Stdlib Require Import Floats.PrimFloat Floats.SpecFloat Floats.FloatOps.
From stdpp Require Import gmap strings list pretty.

Open Scope Z_scope.

(** ** Machine integers

    [int64] (and [int] on the 64-bit targets the project builds for) is a
    [Z] kept in the signed 64-bit range by [wrap64]. *)

Definition wrap64 (z : Z) : Z := (z + 2 ^ 63) mod 2 ^ 64 - 2 ^ 63.

Definition add64 (a b : Z) : Z := wrap64 (a + b).
Definition sub64 (a b : Z) : Z := wrap64 (a - b).
Definition mul64 (a b : Z) : Z := wrap64 (a * b).

(** Go's [/] truncates toward zero; a zero divisor is a run-time panic,
    which the callers handle before dividing. *)
Definition quot64 (a b : Z) : Z := wrap64 (Z.quot a b).
Definition rem64 (a b : Z) : Z := wrap64 (Z.rem a b).

Definition in_int64 (z : Z) : Prop := - 2 ^ 63 <= z < 2 ^ 63.

(** ** Floating point

    [float64] is Rocq's primitive binary64 float.  [float_of_Z] is the
    conversion [float64(x)] of an integer (round to nearest even) and
    [int64_of_float] the conversion [int64(f)] (truncation toward zero;
    NaN, infinities and out-of-range values give the amd64 result
    [-2^63]). *)

Definition float_of_Z (z : Z) : float :=
  SF2Prim (binary_normalize prec emax z 0 false).

Definition int64_of_float (f : float) : Z :=
  match Prim2SF f with
  | S754_zero _ => 0
  | S754_finite s m e =>
      let v := match e with
               | Zneg p => Z.quot (Zpos m) (2 ^ Zpos p)
               | _ => Zpos m * 2 ^ e
               end in
      let r := if s then - v else v in
      if (- 2 ^ 63 <=? r) && (r <? 2 ^ 63) then r else - 2 ^ 63
  | _ => - 2 ^ 63
  end.

(** ** Data model (manager.go, lines 12-56) *)

Inductive DownloadStatus :=
| StatusPending
| StatusDownloading
| StatusPaused
| StatusCompleted
| StatusError.

#[global] Instance DownloadStatus_eq_dec : EqDecision DownloadStatus.
Proof. solve_decision. Defined.

(** Times ([time.Time]) are nanosecond counts.  The [mu] mutex has no
    counterpart here.  [pauseChan] is the state of the unbuffered channel:
    [Some v] while a sender is blocked in [pauseChan <- v], [None]
    otherwise. *)
Record Download := mkDownload {
  ID : string;
  URL : string;
  Filename : string;
  OutputPath : string;
  Status : DownloadStatus;
  Progress : float;
  TotalSize : Z;
  Downloaded : Z;
  Speed : float;
  Chunks : Z;
  ChunkProgress : list float;
  TimeRemaining : Z;
  StartTime : Z;
  Error : string;
  ConnectTimeout : string;
  ReadTimeout : string;
  pauseChan : option bool;
  lastDownloaded : Z;
  lastUpdateTime : Z
}.

(** Field updates ([d.Field = v]). *)
Definition set_Status (v : DownloadStatus) (d : Download) : Download :=
  mkDownload (ID d) (URL d) (Filename d) (OutputPath d) v (Progress d)
    (TotalSize d) (Downloaded d) (Speed d) (Chunks d) (ChunkProgress d)
    (TimeRemaining d) (StartTime d) (Error d) (ConnectTimeout d)
    (ReadTimeout d) (pauseChan d) (lastDownloaded d) (lastUpdateTime d).

Definition set_Progress (v : float) (d : Download) : Download :=
  mkDownload (ID d) (URL d) (Filename d) (OutputPath d) (Status d) v
    (TotalSize d) (Downloaded d) (Speed d) (Chunks d) (ChunkProgress d)
    (TimeRemaining d) (StartTime d) (Error d) (ConnectTimeout d)
    (ReadTimeout d) (pauseChan d) (lastDownloaded d) (lastUpdateTime d).

Definition set_TotalSize (v : Z) (d : Download) : Download :=
  mkDownload (ID d) (URL d) (Filename d) (OutputPath d) (Status d)
    (Progress d) v (Downloaded d) (Speed d) (Chunks d) (ChunkProgress d)
    (TimeRemaining d) (StartTime d) (Error d) (ConnectTimeout d)
    (ReadTimeout d) (pauseChan d) (lastDownloaded d) (lastUpdateTime d).

Definition set_Downloaded (v : Z) (d : Download) : Download :=
  mkDownload (ID d) (URL d) (Filename d) (OutputPath d) (Status d)
    (Progress d) (TotalSize d) v (Speed d) (Chunks d) (ChunkProgress d)
    (TimeRemaining d) (StartTime d) (Error d) (ConnectTimeout d)
    (ReadTimeout d) (pauseChan d) (lastDownloaded d) (lastUpdateTime d).

Definition set_Speed (v : float) (d : Download) : Download :=
  mkDownload (ID d) (URL d) (Filename d) (OutputPath d) (Status d)
    (Progress d) (TotalSize d) (Downloaded d) v (Chunks d) (ChunkProgress d)
    (TimeRemaining d) (StartTime d) (Error d) (ConnectTimeout d)
    (ReadTimeout d) (pauseChan d) (lastDownloaded d) (lastUpdateTime d).

Definition set_ChunkProgress (v : list float) (d : Download) : Download :=
  mkDownload (ID d) (URL d) (Filename d) (OutputPath d) (Status d)
    (Progress d) (TotalSize d) (Downloaded d) (Speed d) (Chunks d) v
    (TimeRemaining d) (StartTime d) (Error d) (ConnectTimeout d)
    (ReadTimeout d) (pauseChan d) (lastDownloaded d) (lastUpdateTime d).

Definition set_TimeRemaining (v : Z) (d : Download) : Download :=
  mkDownload (ID d) (URL d) (Filename d) (OutputPath d) (Status d)
    (Progress d) (TotalSize d) (Downloaded d) (Speed d) (Chunks d)
    (ChunkProgress d) v (StartTime d) (Error d) (ConnectTimeout d)
    (ReadTimeout d) (pauseChan d) (lastDownloaded d) (lastUpdateTime d).

Definition set_Error (v : string) (d : Download) : Download :=
  mkDownload (ID d) (URL d) (Filename d) (OutputPath d) (Status d)
    (Progress d) (TotalSize d) (Downloaded d) (Speed d) (Chunks d)
    (ChunkProgress d) (TimeRemaining d) (StartTime d) v (ConnectTimeout d)
    (ReadTimeout d) (pauseChan d) (lastDownloaded d) (lastUpdateTime d).

Definition set_ReadTimeout (v : string) (d : Download) : Download :=
  mkDownload (ID d) (URL d) (Filename d) (OutputPath d) (Status d)
    (Progress d) (TotalSize d) (Downloaded d) (Speed d) (Chunks d)
    (ChunkProgress d) (TimeRemaining d) (StartTime d) (Error d)
    (ConnectTimeout d) v (pauseChan d) (lastDownloaded d) (lastUpdateTime d).

Definition set_pauseChan (v : option bool) (d : Download) : Download :=
  mkDownload (ID d) (URL d) (Filename d) (OutputPath d) (Status d)
    (Progress d) (TotalSize d) (Downloaded d) (Speed d) (Chunks d)
    (ChunkProgress d) (TimeRemaining d) (StartTime d) (Error d)
    (ConnectTimeout d) (ReadTimeout d) v (lastDownloaded d) (lastUpdateTime d).

Definition set_lastDownloaded (v : Z) (d : Download) : Download :=
  mkDownload (ID d) (URL d) (Filename d) (OutputPath d) (Status d)
    (Progress d) (TotalSize d) (Downloaded d) (Speed d) (Chunks d)
    (ChunkProgress d) (TimeRemaining d) (StartTime d) (Error d)
    (ConnectTimeout d) (ReadTimeout d) (pauseChan d) v (lastUpdateTime d).

Definition set_lastUpdateTime (v : Z) (d : Download) : Download :=
  mkDownload (ID d) (URL d) (Filename d) (OutputPath d) (Status d)
    (Progress d) (TotalSize d) (Downloaded d) (Speed d) (Chunks d)
    (ChunkProgress d) (TimeRemaining d) (StartTime d) (Error d)
    (ConnectTimeout d) (ReadTimeout d) (pauseChan d) (lastDownloaded d) v.

(** A broadcast update; its [Data] is the pointer to the download and is
    not recorded. *)
Record DownloadUpdate := mkUpdate {
  DownloadID : string;
  UpdateType : string
}.

(** ** Chunk ranges (downloadChunk, lines 200-207; startDownload, 134-151) *)

Definition chunkRange (d : Download) (chunkIndex chunkSize : Z) : Z * Z :=
  let startByte := mul64 chunkIndex chunkSize in
  let endByte := sub64 (add64 startByte chunkSize) 1 in
  let endByte :=
    if chunkIndex =? sub64 (Chunks d) 1 then sub64 (TotalSize d) 1 else endByte in
  (startByte, endByte).

Definition actualChunkSize (r : Z * Z) : Z := add64 (sub64 (snd r) (fst r)) 1.

(** The indices the spawning loop [for i := 0; i < d.Chunks; i++] visits. *)
Definition chunkIndices (d : Download) : list Z :=
  map Z.of_nat (seq 0 (Z.to_nat (Chunks d))).

(** The ranges requested by the workers that startDownload spawns, in
    index order, with [chunkSize := d.TotalSize / int64(d.Chunks)]. *)
Definition chunkRanges (d : Download) : list (Z * Z) :=
  map (fun i => chunkRange d i (quot64 (TotalSize d) (Chunks d))) (chunkIndices d).

(** The index of the chunk whose range holds byte [b] (used to state that
    the ranges cover the file). *)
Definition owner (d : Download) (b : Z) : nat :=
  let base := TotalSize d / Chunks d in
  Z.to_nat (if base =? 0 then Chunks d - 1 else Z.min (b / base) (Chunks d - 1)).

(** ** Environment: file system, origin server, broadcast log *)

(** The file system maps a path to the bytes of the file.  Paths are
    compared as strings, so two spellings of one file are two keys.
    Writing and removing never fail here, and opening fails exactly when
    the path is absent.  Whether an output file can be created is for the
    host to say ([createErr] below); the temporary chunk files lie in the
    working directory under names made of digits and are taken to be
    creatable. *)
Abbreviation FS := (gmap string (list Byte.byte)).

(** One call of [resp.Body.Read(buffer)]: it returned [n = length data]
    bytes and the error [rerr] after blocking for [wait] nanoseconds.  A
    body that runs out of events keeps answering [(0, io.EOF)]. *)
Inductive ReadErr :=
| ErrNil
| ErrEOF
| ErrOther (msg : string).

Record ReadEvent := mkRead {
  wait : Z;
  data : list Byte.byte;
  rerr : ReadErr
}.

Inductive HttpResult :=
| ReqErr (msg : string)
| DoErr (msg : string)
| Resp (StatusCode ContentLength : Z) (AcceptRanges : string)
       (Body : list ReadEvent).

(** The origin answers the HEAD probe and each GET; the argument of
    [do_get] is the [Range: bytes=start-end] header, if one is sent. *)
Record Origin := mkOrigin {
  do_head : HttpResult;
  do_get : option (Z * Z) -> HttpResult
}.

(** What the host decides and the engine cannot know in advance.

    [createErr p] is the error [os.Create(p)] returns for an output path
    [p], if it fails: a directory on the way to [p] is missing (a file name
    with a directory in it), [p] is itself a directory, or the place may not
    be written.  The engine makes the directory [downloads] (lines 301 and
    429) and no other, and it removes none, so the answer for a path does
    not change while the engine runs.

    [memory] is the number of bytes the runtime can obtain for a new
    slice.

    [arrival k] is the instant at which the [k]-th failing worker of a
    download, counted in index order, sends its error on [errorChan]. *)
Record Env := mkEnv {
  createErr : string -> option string;
  memory : N;
  arrival : nat -> nat
}.

(** What one controller sees: the download object it was handed (the
    pointee of [d]), the file system, the updates passed to
    [broadcastUpdate] so far, and the host. *)
Record Cfg := mkCfg {
  dl : Download;
  files : FS;
  published : list DownloadUpdate;
  env : Env
}.

Definition upd_dl (f : Download -> Download) (c : Cfg) : Cfg :=
  mkCfg (f (dl c)) (files c) (published c) (env c).

Definition upd_files (f : FS -> FS) (c : Cfg) : Cfg :=
  mkCfg (dl c) (f (files c)) (published c) (env c).

Definition broadcastUpdate (ty : string) (c : Cfg) : Cfg :=
  mkCfg (dl c) (files c) (published c ++ [mkUpdate (ID (dl c)) ty]) (env c).

(** [os.Create] when it succeeds: truncate or create. *)
Definition createFile (name : string) (fs : FS) : FS := <[name := []]> fs.

(** [f.Write] / [io.Copy] through the handle [os.Create] returned: append.
    Once the name has been removed the handle still takes the bytes, but
    they reach no name: nothing is left on disk. *)
Definition appendFile (name : string) (bs : list Byte.byte) (fs : FS) : FS :=
  match fs !! name with
  | Some old => <[name := old ++ bs]> fs
  | None => fs
  end.

(** [os.Remove]; its error is ignored by every caller. *)
Definition removeFile (name : string) (fs : FS) : FS := delete name fs.

(** [fmt.Sprintf("chunk_%s_%d.tmp", d.ID, i)] *)
Definition chunkFileName (d : Download) (i : Z) : string :=
  "chunk_" +:+ ID d +:+ "_" +:+ pretty i +:+ ".tmp".

(** The [error] status transition used on every failure path. *)
Definition failWith (msg : string) (c : Cfg) : Cfg :=
  broadcastUpdate "error"
    (upd_dl (fun d => set_Error msg (set_Status StatusError d)) c).

(** A call returns; or it panics, which ends the process unless the panic
    is recovered (net/http recovers the panic of a handler); or the runtime
    throws a fatal error, which ends the process whatever is deferred. *)
Inductive outcome (A : Type) :=
| Done (a : A)
| Panic (msg : string)
| Fatal (msg : string).
Arguments Done {A} a.
Arguments Panic {A} msg.
Arguments Fatal {A} msg.

Definition outcome_map {A B : Type} (f : A -> B) (r : outcome A) : outcome B :=
  match r with
  | Done a => Done (f a)
  | Panic msg => Panic msg
  | Fatal msg => Fatal msg
  end.

(** ** downloadChunk (lines 199-297) *)

Inductive LoopCtl :=
| Continue
| Break
| Return (err : string)
| Crash (msg : string).

(** The bounds check of [d.ChunkProgress[chunkIndex] = ...]. *)
Definition index_ok (d : Download) (chunkIndex : Z) : bool :=
  (0 <=? chunkIndex) && (chunkIndex <? Z.of_nat (length (ChunkProgress d))).

Definition index_panic (d : Download) (chunkIndex : Z) : string :=
  "runtime error: index out of range [" +:+ pretty chunkIndex
    +:+ "] with length " +:+ pretty (Z.of_nat (length (ChunkProgress d))).

Definition is_eof (e : ReadErr) : bool :=
  match e with ErrEOF => true | _ => false end.

(** The [default] branch of the select (lines 248-278): one read, one
    write, the progress bookkeeping. *)
Definition chunkIter (name : string) (chunkIndex size : Z) (r : ReadEvent)
    (c : Cfg) (downloaded : Z) : Cfg * Z * LoopCtl :=
  match rerr r with
  | ErrOther msg =>
      (c, downloaded,
       Return ("error reading chunk " +:+ pretty chunkIndex +:+ ": " +:+ msg))
  | e =>
      let n := Z.of_nat (length (data r)) in
      if n =? 0 then (c, downloaded, Break)
      else
        let c := upd_files (appendFile name (data r)) c in
        let downloaded := add64 downloaded n in
        if negb (index_ok (dl c) chunkIndex) then
          (c, downloaded, Crash (index_panic (dl c) chunkIndex))
        else
          let pct := (float_of_Z downloaded / float_of_Z size * 100)%float in
          let c := upd_dl (fun d =>
                     set_ChunkProgress
                       (<[Z.to_nat chunkIndex := pct]> (ChunkProgress d)) d) c in
          let c := if (rem64 downloaded 1048576 =? 0) || is_eof e
                   then broadcastUpdate "progress" c else c in
          (c, downloaded, if is_eof e then Break else Continue)
  end.

(** The read loop when nobody sends on [pauseChan]. *)
Fixpoint downloadLoop (name : string) (chunkIndex size : Z)
    (body : list ReadEvent) (c : Cfg) (downloaded : Z)
    : outcome (Cfg * Z * option string) :=
  match body with
  | [] => Done (c, downloaded, None)
  | r :: body =>
      match chunkIter name chunkIndex size r c downloaded with
      | (c, downloaded, Continue) =>
          downloadLoop name chunkIndex size body c downloaded
      | (c, downloaded, Break) => Done (c, downloaded, None)
      | (c, downloaded, Return e) => Done (c, downloaded, Some e)
      | (_, _, Crash msg) => Panic msg
      end
  end.

(** Lines 200-235: the range, the request, the status check and the
    temporary file (its creation does not fail, see [FS]).  On success the
    worker holds the file name, the expected size and the response body. *)
Definition chunkOpen (o : Origin) (c : Cfg) (chunkIndex chunkSize : Z)
    : Cfg * (string * Z * list ReadEvent + string) :=
  let d := dl c in
  let r := chunkRange d chunkIndex chunkSize in
  match do_get o (Some r) with
  | ReqErr msg =>
      (c, inr ("error creating request for chunk " +:+ pretty chunkIndex
               +:+ ": " +:+ msg))
  | DoErr msg =>
      (c, inr ("error downloading chunk " +:+ pretty chunkIndex
               +:+ ": " +:+ msg))
  | Resp code _ _ body =>
      if negb (code =? 206) then
        (c, inr ("server doesn't support range requests for chunk "
                 +:+ pretty chunkIndex +:+ ", status: " +:+ pretty code))
      else
        let tempFileName := chunkFileName d chunkIndex in
        (upd_files (createFile tempFileName) c,
         inl (tempFileName, actualChunkSize r, body))
  end.

(** Lines 282-296: the size check after the loop. *)
Definition chunkFinish (chunkIndex size : Z) (c : Cfg) (downloaded : Z)
    : Cfg * option string :=
  if negb (downloaded =? size) then
    (c, Some ("chunk " +:+ pretty chunkIndex
              +:+ " incomplete: expected " +:+ pretty size
              +:+ " bytes, got " +:+ pretty downloaded +:+ " bytes"))
  else (broadcastUpdate "progress" c, None).

Definition downloadChunk (o : Origin) (c : Cfg) (chunkIndex chunkSize : Z)
    : outcome (Cfg * option string) :=
  match chunkOpen o c chunkIndex chunkSize with
  | (c, inr e) => Done (c, Some e)
  | (c, inl (tempFileName, size, body)) =>
      match downloadLoop tempFileName chunkIndex size body c 0 with
      | Done (c, _, Some e) => Done (c, Some e)
      | Done (c, downloaded, None) =>
          Done (chunkFinish chunkIndex size c downloaded)
      | Panic msg => Panic msg
      | Fatal msg => Fatal msg
      end
  end.

(** ** mergeChunks (lines 427-474) *)

Fixpoint mergeLoop (d : Download) (idxs : list Z) (fs : FS) (totalMerged : Z)
    : FS * Z * option string :=
  match idxs with
  | [] => (fs, totalMerged, None)
  | i :: idxs =>
      let name := chunkFileName d i in
      match fs !! name with
      | None =>
          (fs, totalMerged,
           Some ("failed to open chunk file " +:+ pretty i +:+ ": open "
                 +:+ name +:+ ": no such file or directory"))
      | Some content =>
          let fs := appendFile (OutputPath d) content fs in
          let totalMerged := add64 totalMerged (Z.of_nat (length content)) in
          let fs := removeFile name fs in
          mergeLoop d idxs fs totalMerged
      end
  end.

Definition mergeChunks (c : Cfg) : Cfg * option string :=
  let d := dl c in
  match createErr (env c) (OutputPath d) with
  | Some err => (c, Some ("failed to create output file: " +:+ err))
  | None =>
      let fs := createFile (OutputPath d) (files c) in
      match mergeLoop d (chunkIndices d) fs 0 with
      | (fs, _, Some e) => (mkCfg d fs (published c) (env c), Some e)
      | (fs, totalMerged, None) =>
          if negb (totalMerged =? TotalSize d) then
            (mkCfg d fs (published c) (env c),
             Some ("merged file size mismatch: expected "
                   +:+ pretty (TotalSize d)
                   +:+ " bytes, got " +:+ pretty totalMerged +:+ " bytes"))
          else (mkCfg d fs (published c) (env c), None)
      end
  end.

(** ** downloadSingleFile (lines 299-425) *)

(** The [default] branch of the select (lines 380-411): one read and one
    write. *)
Definition singleIter (name : string) (r : ReadEvent) (c : Cfg)
    (downloaded : Z) : Cfg * Z * LoopCtl :=
  match rerr r with
  | ErrOther msg => (c, downloaded, Return msg)
  | e =>
      let n := Z.of_nat (length (data r)) in
      if n =? 0 then (c, downloaded, Break)
      else
        let c := upd_files (appendFile name (data r)) c in
        let downloaded := add64 downloaded n in
        (c, downloaded, if is_eof e then Break else Continue)
  end.

(** The read loop when nobody sends on [pauseChan] ([readerStep] below
    has the select).  [singleIter] indexes nothing, so it never yields
    [Crash]. *)
Fixpoint singleLoop (name : string) (body : list ReadEvent) (c : Cfg)
    (downloaded : Z) : Cfg * Z * option string :=
  match body with
  | [] => (c, downloaded, None)
  | r :: body =>
      match singleIter name r c downloaded with
      | (c, downloaded, Continue) => singleLoop name body c downloaded
      | (c, downloaded, Break) => (c, downloaded, None)
      | (c, downloaded, Return e) => (c, downloaded, Some e)
      | (c, downloaded, Crash e) => (c, downloaded, Some e)
      end
  end.

(** One tick of the one-second progress goroutine (lines 350-372), with the
    worker's running byte count [downloaded]. *)
Definition singleProgressTick (downloaded : Z) (c : Cfg) : Cfg :=
  if decide (Status (dl c) = StatusDownloading) then
    let c :=
      if 0 <? TotalSize (dl c) then
        upd_dl (fun d =>
          set_Downloaded downloaded
            (set_Progress
               (float_of_Z downloaded / float_of_Z (TotalSize d) * 100)%float d)) c
      else c in
    broadcastUpdate "progress" c
  else c.

(** Lines 303-341: the request and the output file.  [inl c]: the
    function has returned with the download in error; [inr (c, body)]: the
    output file is open and the body is to be read. *)
Definition singleOpen (o : Origin) (c : Cfg) : Cfg + Cfg * list ReadEvent :=
  match do_get o None with
  | ReqErr msg => inl (failWith msg c)
  | DoErr msg => inl (failWith msg c)
  | Resp _ _ _ body =>
      match createErr (env c) (OutputPath (dl c)) with
      | Some err => inl (failWith err c)
      | None => inr (upd_files (createFile (OutputPath (dl c))) c, body)
      end
  end.

(** Lines 415-424: the final status after the loop. *)
Definition singleCompleted (downloaded : Z) (c : Cfg) : Cfg :=
  broadcastUpdate "completed"
    (upd_dl (fun d =>
       set_Downloaded downloaded
         (set_Progress 100%float (set_Status StatusCompleted d))) c).

(** The function when nobody sends on [pauseChan] while it reads. *)
Definition downloadSingleFile (o : Origin) (c : Cfg) : Cfg :=
  match singleOpen o c with
  | inl c => c
  | inr (c, body) =>
      match singleLoop (OutputPath (dl c)) body c 0 with
      | (c, _, Some e) => failWith e c
      | (c, downloaded, None) => singleCompleted downloaded c
      end
  end.

(** ** startDownload (lines 99-197) *)

(** The workers of lines 143-152, run to completion one after the other in
    the order [idxs]; each touches only its own chunk file and its own slot
    of [ChunkProgress].  [errs] lists the errors of the failing workers in
    that order. *)
Fixpoint runWorkers (o : Origin) (chunkSize : Z) (idxs : list Z) (c : Cfg)
    (errs : list string) : outcome (Cfg * list string) :=
  match idxs with
  | [] => Done (c, errs)
  | i :: idxs =>
      match downloadChunk o c i chunkSize with
      | Done (c, Some e) =>
          runWorkers o chunkSize idxs c
            (errs ++ ["chunk " +:+ pretty i +:+ " failed: " +:+ e])
      | Done (c, None) => runWorkers o chunkSize idxs c errs
      | Panic msg => Panic msg
      | Fatal msg => Fatal msg
      end
  end.

(** [errorChan] hands the errors to the controller in the order in which
    the workers sent them (lines 149 and 159-161): the errors of the failing
    workers sorted by their instant of arrival, two of the same instant in
    index order. *)
Fixpoint arrive (t : nat) (e : string) (queue : list (nat * string))
    : list (nat * string) :=
  match queue with
  | [] => [(t, e)]
  | (t', e') :: rest =>
      if (t <=? t')%nat then (t, e) :: queue else (t', e') :: arrive t e rest
  end.

Definition inArrivalOrder (at_ : nat -> nat) (errs : list string) : list string :=
  snd <$> foldr (fun ke queue => arrive (at_ ke.1) ke.2 queue) []
            (imap (fun k e => (k, e)) errs).

(** [fmt.Sprintf("%v", chunkErrors)] *)
Definition show_errors (errs : list string) : string :=
  "[" +:+ foldr (fun e acc => if decide (acc = "") then e else e +:+ " " +:+ acc)
            "" errs +:+ "]".

(** Lines 174-197: the merge and the final status. *)
Definition mergePhase (c : Cfg) : Cfg :=
  if decide (Status (dl c) = StatusDownloading) then
    match mergeChunks c with
    | (c, Some e) => failWith e c
    | (c, None) =>
        broadcastUpdate "completed"
          (upd_dl (fun d => set_Progress 100%float (set_Status StatusCompleted d)) c)
    end
  else c.

(** Lines 133-161: the workers, up to the errors read from [errorChan]. *)
Definition fetchChunks (o : Origin) (c : Cfg) : outcome (Cfg * list string) :=
  let d := dl c in
  if Chunks d =? 0 then Panic "runtime error: integer divide by zero"
  else if Chunks d <? 0 then Panic "makechan: size out of range"
  else
    let chunkSize := quot64 (TotalSize d) (Chunks d) in
    match runWorkers o chunkSize (chunkIndices d) c [] with
    | Done (c, errs) => Done (c, inArrivalOrder (arrival (env c)) errs)
    | Panic msg => Panic msg
    | Fatal msg => Fatal msg
    end.

(** Lines 163-197: the error status, or the merge. *)
Definition finishChunked (c : Cfg) (chunkErrors : list string) : Cfg :=
  match chunkErrors with
  | [] => mergePhase c
  | _ => failWith ("Some chunks failed: " +:+ show_errors chunkErrors) c
  end.

(** Lines 133-197: the chunked path, with no other goroutine scheduled
    between the workers and the merge. *)
Definition downloadChunked (o : Origin) (c : Cfg) : outcome Cfg :=
  outcome_map (fun r => finishChunked r.1 r.2) (fetchChunks o c).

(** Lines 100-131: the status update, the probe and the choice of the
    path.  [inl c]: the controller has returned, after a failed probe or
    after downloadSingleFile; [inr c]: it goes on to the chunked path. *)
Definition probe (o : Origin) (c : Cfg) : Cfg + Cfg :=
  let c := broadcastUpdate "status" (upd_dl (set_Status StatusDownloading) c) in
  match do_head o with
  | ReqErr msg => inl (failWith msg c)
  | DoErr msg => inl (failWith msg c)
  | Resp _ contentLength acceptRanges _ =>
      let c := upd_dl (set_TotalSize contentLength) c in
      let supportsRanges := bool_decide (acceptRanges = "bytes") in
      if negb supportsRanges || (Chunks (dl c) =? 1) then
        inl (downloadSingleFile o c)
      else inr c
  end.

Definition startDownload (o : Origin) (c : Cfg) : outcome Cfg :=
  match probe o c with
  | inl c => Done c
  | inr c => downloadChunked o c
  end.

(** ** updateProgress (lines 564-606) *)

(** [Duration.Seconds()] *)
Definition seconds (dur : Z) : float :=
  (float_of_Z (Z.quot dur 1000000000)
   + float_of_Z (Z.rem dur 1000000000) / 1e9)%float.

(** One tick of the 250 ms ticker at time [now]; [None] when the goroutine
    returns because the download is no longer downloading. *)
Definition updateProgressTick (now : Z) (c : Cfg) : option Cfg :=
  if decide (Status (dl c) = StatusDownloading) then
    let d := dl c in
    let totalProgress := fold_left PrimFloat.add (ChunkProgress d) 0%float in
    let d := set_Progress (totalProgress / float_of_Z (Chunks d))%float d in
    let d := set_Downloaded
               (int64_of_float
                  (float_of_Z (TotalSize d) * Progress d / 100)%float) d in
    let timeDiff := seconds (sub64 now (lastUpdateTime d)) in
    let d :=
      if (0 <? timeDiff)%float then
        let bytesDiff := sub64 (Downloaded d) (lastDownloaded d) in
        let d := set_Speed (float_of_Z bytesDiff / timeDiff)%float d in
        let d := set_lastDownloaded (Downloaded d) d in
        let d := set_lastUpdateTime now d in
        if (0 <? Speed d)%float then
          let remainingBytes := sub64 (TotalSize d) (Downloaded d) in
          set_TimeRemaining
            (int64_of_float (float_of_Z remainingBytes / Speed d)%float) d
        else d
      else d in
    Some (broadcastUpdate "progress" (mkCfg d (files c) (published c) (env c)))
  else None.

(** ** The manager (lines 46-97, 476-562, 608-635) *)

(** [Manager.downloads] maps an id to a pointer; [heap] holds the pointees,
    so a controller keeps its download after the id has been deleted.
    [spawned] lists the controllers started with [go m.startDownload]. *)
Record World := mkWorld {
  downloads : gmap string nat;
  heap : gmap nat Download;
  wfiles : FS;
  wpublished : list DownloadUpdate;
  spawned : list nat;
  wenv : Env
}.

Definition view (a : nat) (w : World) : option Cfg :=
  match heap w !! a with
  | Some d => Some (mkCfg d (wfiles w) (wpublished w) (wenv w))
  | None => None
  end.

Definition commit (a : nat) (c : Cfg) (w : World) : World :=
  mkWorld (downloads w) (<[a := dl c]> (heap w)) (files c) (published c)
    (spawned w) (wenv w).

(** [generateID] at the clock reading [now] (nanoseconds). *)
Definition generateID (now : Z) : string := pretty now.

(** The four clock readings AddDownload takes, in program order. *)
Record AddClock := mkAddClock {
  now_path : Z;
  now_id : Z;
  now_start : Z;
  now_last : Z
}.

(** [make([]float64, chunks)] (line 82).  The runtime panics on a negative
    length and on one whose byte size exceeds the allocator's limit of
    [2^48] bytes; a length that passes this check is allocated if the host
    has the memory, and otherwise the runtime throws "out of memory". *)
Definition makeslice_len_ok (len : Z) : bool :=
  (0 <=? len) && (len * 8 <=? 2 ^ 48).

Definition makeslice_ok (e : Env) (len : Z) : bool :=
  makeslice_len_ok len && (len * 8 <=? Z.of_N (memory e)).

(** The composite literal of lines 70-89. *)
Definition newDownload (url filename : string) (chunks : Z)
    (connectTimeout readTimeout : string) (clk : AddClock) : Download :=
  let outputPath :=
    if decide (filename = "")
    then "downloads/download_" +:+ generateID (now_path clk)
    else "downloads/" +:+ filename in
  mkDownload (generateID (now_id clk)) url filename outputPath
    StatusPending 0%float 0 0 0%float chunks
    (replicate (Z.to_nat chunks) 0%float) 0 (now_start clk) ""
    connectTimeout readTimeout None 0 (now_last clk).

Definition AddDownload (url filename : string) (chunks : Z)
    (connectTimeout readTimeout : string) (clk : AddClock) (w : World)
    : outcome (World * nat * option string) :=
  if negb (makeslice_len_ok chunks) then
    Panic "runtime error: makeslice: len out of range"
  else if negb (makeslice_ok (wenv w) chunks) then
    Fatal "fatal error: runtime: out of memory"
  else
    let download :=
      newDownload url filename chunks connectTimeout readTimeout clk in
    let a := fresh (dom (heap w)) in
    Done (mkWorld (<[ID download := a]> (downloads w))
            (<[a := download]> (heap w)) (wfiles w) (wpublished w)
            (spawned w ++ [a]) (wenv w),
          a, None).

Definition GetDownload (id : string) (w : World) : option nat * option string :=
  match downloads w !! id with
  | Some a => (Some a, None)
  | None => (None, Some "download not found")
  end.

(** The clean-up loop of lines 623-626. *)
Definition removeChunkFiles (d : Download) (fs : FS) : FS :=
  foldl (fun fs i => removeFile (chunkFileName d i) fs) fs (chunkIndices d).

Definition DeleteDownload (id : string) (w : World) : outcome (World * option string) :=
  match downloads w !! id with
  | None => Done (w, Some "download not found")
  | Some a =>
      match heap w !! a with
      | None => Panic "runtime error: invalid memory address or nil pointer dereference"
      | Some download =>
          let w :=
            if decide (Status download = StatusDownloading) then
              let download :=
                set_Error "Download cancelled" (set_Status StatusError download) in
              mkWorld (downloads w) (<[a := download]> (heap w))
                (removeChunkFiles download (wfiles w)) (wpublished w) (spawned w)
                (wenv w)
            else w in
          Done (mkWorld (delete id (downloads w)) (heap w) (wfiles w)
                  (wpublished w) (spawned w) (wenv w), None)
      end
  end.

(** ** The HTTP handler createDownload (handlers.go, lines 46-85) *)

Record CreateDownloadRequest := mkRequest {
  rqURL : string;
  rqFilename : string;
  rqChunks : Z;
  rqConnectTimeout : string;
  rqReadTimeout : string
}.

(** What the client gets: a status code, with the new download on success;
    or nothing, when the handler panicked and net/http dropped the
    connection ([Aborted]), or when the process ended ([Killed]). *)
Inductive Reply :=
| Replied (code : Z) (download : option nat)
| Aborted
| Killed.

(** [decoded] is the outcome of decoding the JSON body, [None] when it is
    rejected by the decoder. *)
Definition createDownload (decoded : option CreateDownloadRequest)
    (clk : AddClock) (w : World) : World * Reply :=
  match decoded with
  | None => (w, Replied 400 None)
  | Some req =>
      match AddDownload (rqURL req) (rqFilename req) (rqChunks req)
              (rqConnectTimeout req) (rqReadTimeout req) clk w with
      | Done (w', _, Some _) => (w', Replied 500 None)
      | Done (w', a, None) => (w', Replied 200 (Some a))
      | Panic _ => (w, Aborted)
      | Fatal _ => (w, Killed)
      end
  end.

(** ** The goroutines of one download, step by step

    On the chunked path the workers spawned at lines 143-152, the
    [updateProgress] ticker and the pause and resume calls (lines 476-518)
    interleave: that is a [System].  On the single-file path the one
    receiver on [pauseChan] is the controller itself, in the loop of lines
    374-413: that is a [Reader] next to a [System] without workers.  A
    schedule is a list of actions; each action runs one goroutine up to its
    next communication or loop head. *)

Inductive WorkerPC :=
| Starting
| AtSelect
| AwaitResume
| Exited (err : option string)
| Panicked (msg : string).

(** A worker: its arguments, then the locals of downloadChunk
    ([tempFileName], [actualChunkSize], the unread body, [downloaded]). *)
Record Worker := mkWorker {
  w_index : Z;
  w_chunkSize : Z;
  w_name : string;
  w_size : Z;
  w_body : list ReadEvent;
  w_downloaded : Z;
  w_pc : WorkerPC
}.

Definition set_pc (pc : WorkerPC) (wk : Worker) : Worker :=
  mkWorker (w_index wk) (w_chunkSize wk) (w_name wk) (w_size wk) (w_body wk)
    (w_downloaded wk) pc.

Definition spawnWorkers (d : Download) : list Worker :=
  map (fun i => mkWorker i (quot64 (TotalSize d) (Chunks d)) "" 0 [] 0 Starting)
      (chunkIndices d).

(** One scheduling of a worker.  At the select (lines 243-247) a blocked
    sender makes the receive case ready, otherwise the default branch runs;
    the second receive of line 246 blocks until the next send. *)
Definition workerStep (o : Origin) (wk : Worker) (c : Cfg)
    : option (Worker * Cfg) :=
  match w_pc wk with
  | Starting =>
      match chunkOpen o c (w_index wk) (w_chunkSize wk) with
      | (c, inr e) => Some (set_pc (Exited (Some e)) wk, c)
      | (c, inl (name, size, body)) =>
          Some (mkWorker (w_index wk) (w_chunkSize wk) name size body 0 AtSelect, c)
      end
  | AtSelect =>
      match pauseChan (dl c) with
      | Some _ => Some (set_pc AwaitResume wk, upd_dl (set_pauseChan None) c)
      | None =>
          match w_body wk with
          | [] =>
              match chunkFinish (w_index wk) (w_size wk) c (w_downloaded wk) with
              | (c, e) => Some (set_pc (Exited e) wk, c)
              end
          | r :: body =>
              match chunkIter (w_name wk) (w_index wk) (w_size wk) r c
                      (w_downloaded wk) with
              | (c, n, Continue) =>
                  Some (mkWorker (w_index wk) (w_chunkSize wk) (w_name wk)
                          (w_size wk) body n AtSelect, c)
              | (c, n, Break) =>
                  match chunkFinish (w_index wk) (w_size wk) c n with
                  | (c, e) =>
                      Some (mkWorker (w_index wk) (w_chunkSize wk) (w_name wk)
                              (w_size wk) body n (Exited e), c)
                  end
              | (c, n, Return e) =>
                  Some (mkWorker (w_index wk) (w_chunkSize wk) (w_name wk)
                          (w_size wk) body n (Exited (Some e)), c)
              | (c, n, Crash msg) =>
                  Some (mkWorker (w_index wk) (w_chunkSize wk) (w_name wk)
                          (w_size wk) body n (Panicked msg), c)
              end
          end
      end
  | AwaitResume =>
      match pauseChan (dl c) with
      | Some _ => Some (set_pc AtSelect wk, upd_dl (set_pauseChan None) c)
      | None => None
      end
  | Exited _ => None
  | Panicked _ => None
  end.

(** The API call in flight: [Sending a id ty] is PauseDownload or
    ResumeDownload blocked in its send on the channel of the object at
    [a]; once the value is taken it broadcasts [ty] and returns nil. *)
Inductive Caller :=
| NoCall
| Sending (a : nat) (id : string) (ty : string).

Record System := mkSystem {
  world : World;
  target : nat;
  workers : list Worker;
  updater : bool;
  caller : Caller;
  returned : list (option string)
}.

Inductive Action :=
| ActWorker (k : nat)
| ActTick (now : Z)
| ActPause (id : string)
| ActResume (id : string)
| ActReturn.

Definition set_heap (a : nat) (d : Download) (w : World) : World :=
  mkWorld (downloads w) (<[a := d]> (heap w)) (wfiles w) (wpublished w)
    (spawned w) (wenv w).

(** PauseDownload and ResumeDownload up to the send: [from] is the status
    required, [to] the status written, [v] the value sent. *)
Definition callSend (from to : DownloadStatus) (v : bool) (ty id : string)
    (s : System) : option System :=
  match caller s with
  | Sending _ _ _ => None
  | NoCall =>
      match downloads (world s) !! id with
      | None =>
          Some (mkSystem (world s) (target s) (workers s) (updater s) NoCall
                  (returned s ++ [Some "download not found"]))
      | Some a =>
          match heap (world s) !! a with
          | None => None
          | Some download =>
              if decide (Status download = from) then
                Some (mkSystem
                        (set_heap a (set_pauseChan (Some v) (set_Status to download))
                           (world s))
                        (target s) (workers s) (updater s) (Sending a id ty)
                        (returned s))
              else
                Some (mkSystem (world s) (target s) (workers s) (updater s)
                        NoCall (returned s ++ [None]))
          end
      end
  end.

Definition PauseDownload : string -> System -> option System :=
  callSend StatusDownloading StatusPaused true "paused".

Definition ResumeDownload : string -> System -> option System :=
  callSend StatusPaused StatusDownloading false "resumed".

(** The rest of the call once a worker has taken the value. *)
Definition callReturn (s : System) : option System :=
  match caller s with
  | NoCall => None
  | Sending a id ty =>
      match heap (world s) !! a with
      | Some download =>
          match pauseChan download with
          | Some _ => None
          | None =>
              let w := world s in
              Some (mkSystem
                      (mkWorld (downloads w) (heap w) (wfiles w)
                         (wpublished w ++ [mkUpdate id ty]) (spawned w)
                         (wenv w))
                      (target s) (workers s) (updater s) NoCall
                      (returned s ++ [None]))
          end
      | None => None
      end
  end.

(** A panic in any goroutine ends the process. *)
Definition crashed (s : System) : bool :=
  existsb (fun wk => match w_pc wk with Panicked _ => true | _ => false end)
    (workers s).

Definition step (o : Origin) (act : Action) (s : System) : option System :=
  if crashed s then None else
  match act with
  | ActWorker k =>
      match workers s !! k, view (target s) (world s) with
      | Some wk, Some c =>
          match workerStep o wk c with
          | Some (wk, c) =>
              Some (mkSystem (commit (target s) c (world s)) (target s)
                      (<[k := wk]> (workers s)) (updater s) (caller s)
                      (returned s))
          | None => None
          end
      | _, _ => None
      end
  | ActTick now =>
      if updater s then
        match view (target s) (world s) with
        | Some c =>
            match updateProgressTick now c with
            | Some c =>
                Some (mkSystem (commit (target s) c (world s)) (target s)
                        (workers s) true (caller s) (returned s))
            | None =>
                Some (mkSystem (world s) (target s) (workers s) false
                        (caller s) (returned s))
            end
        | None => None
        end
      else None
  | ActPause id => PauseDownload id s
  | ActResume id => ResumeDownload id s
  | ActReturn => callReturn s
  end.

(** A worker scheduled again and again, at most [fuel] times, until it
    exits or blocks. *)
Fixpoint runWorker (o : Origin) (fuel : nat) (wk : Worker) (c : Cfg)
    : Worker * Cfg :=
  match fuel with
  | O => (wk, c)
  | S fuel =>
      match workerStep o wk c with
      | Some (wk, c) => runWorker o fuel wk c
      | None => (wk, c)
      end
  end.

Fixpoint run (o : Origin) (acts : list Action) (s : System) : option System :=
  match acts with
  | [] => Some s
  | act :: acts =>
      match step o act s with
      | Some s => run o acts s
      | None => None
      end
  end.

(** The controller inside downloadSingleFile once the output file is open:
    the unread body and [downloaded], at the select of line 376, in the
    receive of line 379, or back from the function. *)
Inductive ReaderPC :=
| ReaderAtSelect
| ReaderAwaitResume
| ReaderReturned.

Record Reader := mkReader {
  r_body : list ReadEvent;
  r_downloaded : Z;
  r_pc : ReaderPC
}.

(** One scheduling of the single-file reader: the select of lines 376-380
    as in [workerStep], then one read and one write; after the loop, or on
    a failed read, the final status of lines 383-390 and 415-424. *)
Definition readerStep (rd : Reader) (c : Cfg) : option (Reader * Cfg) :=
  match r_pc rd with
  | ReaderAtSelect =>
      match pauseChan (dl c) with
      | Some _ =>
          Some (mkReader (r_body rd) (r_downloaded rd) ReaderAwaitResume,
                upd_dl (set_pauseChan None) c)
      | None =>
          match r_body rd with
          | [] =>
              Some (mkReader [] (r_downloaded rd) ReaderReturned,
                    singleCompleted (r_downloaded rd) c)
          | r :: body =>
              match singleIter (OutputPath (dl c)) r c (r_downloaded rd) with
              | (c, n, Continue) => Some (mkReader body n ReaderAtSelect, c)
              | (c, n, Break) =>
                  Some (mkReader body n ReaderReturned, singleCompleted n c)
              | (c, n, Return e) =>
                  Some (mkReader body n ReaderReturned, failWith e c)
              | (c, n, Crash e) =>
                  Some (mkReader body n ReaderReturned, failWith e c)
              end
          end
      end
  | ReaderAwaitResume =>
      match pauseChan (dl c) with
      | Some _ =>
          Some (mkReader (r_body rd) (r_downloaded rd) ReaderAtSelect,
                upd_dl (set_pauseChan None) c)
      | None => None
      end
  | ReaderReturned => None
  end.

(** The reader scheduled again and again, at most [fuel] times, until it
    returns or blocks. *)
Fixpoint readerRun (fuel : nat) (rd : Reader) (c : Cfg) : Reader * Cfg :=
  match fuel with
  | O => (rd, c)
  | S fuel =>
      match readerStep rd c with
      | Some (rd, c) => readerRun fuel rd c
      | None => (rd, c)
      end
  end.

(** The goroutines of a single-file download: the reader, and the API
    calls of [step] on a system that has no chunk worker and no ticker. *)
Inductive SingleAction :=
| ActRead
| ActCall (act : Action).

Definition singleStep (o : Origin) (sa : SingleAction) (st : Reader * System)
    : option (Reader * System) :=
  let s := st.2 in
  match sa with
  | ActRead =>
      match view (target s) (world s) with
      | Some c =>
          match readerStep st.1 c with
          | Some (rd, c) =>
              Some (rd, mkSystem (commit (target s) c (world s)) (target s)
                          (workers s) (updater s) (caller s) (returned s))
          | None => None
          end
      | None => None
      end
  | ActCall act =>
      match step o act s with
      | Some s => Some (st.1, s)
      | None => None
      end
  end.

Fixpoint singleRun (o : Origin) (acts : list SingleAction)
    (st : Reader * System) : option (Reader * System) :=
  match acts with
  | [] => Some st
  | act :: acts =>
      match singleStep o act st with
      | Some st => singleRun o acts st
      | None => None
      end
  end.

(** The bytes on disk in the chunk files of the target download. *)
Definition chunkBytes (s : System) : list (option (list Byte.byte)) :=
  match heap (world s) !! target s with
  | Some d => map (fun i => wfiles (world s) !! chunkFileName d i) (chunkIndices d)
  | None => []
  end.

(** The sum of the workers' byte counters. *)
Definition counterSum (s : System) : Z :=
  foldr (fun wk acc => w_downloaded wk + acc) 0 (workers s).

(** ** Auxiliary predicates used by the statements *)

(** The fields no worker writes. *)
Definition same_ident (d d' : Download) : Prop :=
  ID d' = ID d /\ OutputPath d' = OutputPath d /\ Chunks d' = Chunks d /\
  TotalSize d' = TotalSize d /\ Status d' = Status d /\
  pauseChan d' = pauseChan d /\
  length (ChunkProgress d') = length (ChunkProgress d).

(** The branch taken at line 126, from the probe's answer. *)
Definition single_path (o : Origin) (d : Download) : bool :=
  match do_head o with
  | Resp _ _ acceptRanges _ =>
      negb (bool_decide (acceptRanges = "bytes")) || (Chunks d =? 1)
  | _ => false
  end.

(** No read of the body fails with an error other than [io.EOF]. *)
Definition reads_ok (body : list ReadEvent) : Prop :=
  Forall (fun r => forall msg, rerr r ≠ ErrOther msg) body.

(** The output lies under [downloads/], as AddDownload arranges. *)
Definition in_downloads_dir (d : Download) : Prop :=
  exists leaf, OutputPath d = "downloads/" +:+ leaf.

(** The status of the target download. *)
Definition targetStatus (s : System) : option DownloadStatus :=
  Status <$> heap (world s) !! target s.

(** The exit state of a worker that ran the loop to its end. *)
Definition loop_exit (i size : Z) (r : outcome (Cfg * Z * option string))
    (wk : Worker) (c : Cfg) : Prop :=
  match r with
  | Done (c', _, Some e) => w_pc wk = Exited (Some e) /\ c = c'
  | Done (c', n', None) =>
      w_pc wk = Exited (chunkFinish i size c' n').2 /\
      c = (chunkFinish i size c' n').1
  | Panic msg => w_pc wk = Panicked msg
  | Fatal _ => False
  end.

(** The exit state of a worker against the result of downloadChunk. *)
Definition chunk_exit (r : outcome (Cfg * option string)) (wk : Worker)
    (c : Cfg) : Prop :=
  match r with
  | Done (c', e) => w_pc wk = Exited e /\ c = c'
  | Panic msg => w_pc wk = Panicked msg
  | Fatal _ => False
  end.

(** ** Concrete scenarios *)

Definition bytes_of (n : nat) : list Byte.byte := replicate n Byte.x61.

Definition clock0 : AddClock := mkAddClock 1 2 3 4.

(** A host on which every output path can be created, with 8 GiB for a
    slice, and on which failing workers report in index order. *)
Definition env0 : Env := mkEnv (fun _ => None) (2 ^ 33)%N (fun _ => 0%nat).

(** The same host without a directory [downloads/dir]. *)
Definition noDirEnv : Env :=
  mkEnv (fun p =>
           if decide (p = "downloads/dir/f.bin")
           then Some "open downloads/dir/f.bin: no such file or directory"
           else None)
    (2 ^ 33)%N (fun _ => 0%nat).

Definition world0 : World := mkWorld ∅ ∅ ∅ [] [] env0.

(** A download as AddDownload builds it, alone with an empty disk. *)
Definition fresh_cfg (chunks : Z) : Cfg :=
  mkCfg (newDownload "http://origin/f.bin" "f.bin" chunks "30s" "1s" clock0)
    ∅ [] env0.

(** The download of [fresh_cfg] after a probe that reported [total]. *)
Definition probed (total chunks : Z) : Download :=
  set_TotalSize total (dl (fresh_cfg chunks)).

(** A probed two-chunk download of seven bytes, downloading, with a read
    timeout of one second. *)
Definition downloading_cfg : Cfg :=
  mkCfg (set_Status StatusDownloading (probed 7 2)) ∅ [] env0.

(** A registry with one paused download and the partial file of its
    first chunk. *)
Definition paused_world : World :=
  let d := set_Status StatusPaused (probed 7 2) in
  mkWorld {[ID d := 0%nat]} {[0%nat := d]} {[chunkFileName d 0 := bytes_of 1]}
    [] [] env0.

(** A probed two-chunk download of seven bytes, registered under its id,
    with its workers just spawned and its ticker running. *)
Definition running_system : System :=
  let d := set_Status StatusDownloading (probed 7 2) in
  mkSystem (mkWorld {[ID d := 0%nat]} {[0%nat := d]} ∅ [] [0%nat] env0) 0%nat
    (spawnWorkers d) true NoCall [].

(** An origin that serves [content], honouring ranges inside it. *)
Definition rangeOrigin (content : list Byte.byte) (acceptRanges : string)
    : Origin :=
  let len := Z.of_nat (length content) in
  mkOrigin (Resp 200 len acceptRanges [])
    (fun r =>
       match r with
       | Some (s, e) =>
           if (0 <=? s) && (s <=? e) && (e <? len) then
             Resp 206 (e - s + 1) acceptRanges
               [mkRead 0 (take (Z.to_nat (e - s + 1)) (drop (Z.to_nat s) content))
                  ErrEOF]
           else Resp 416 0 acceptRanges []
       | None => Resp 200 len acceptRanges [mkRead 0 content ErrEOF]
       end).

(** An origin without Content-Length (reported as -1) and without range
    support that sends four bytes. *)
Definition unsizedOrigin : Origin :=
  mkOrigin (Resp 200 (-1) "" [])
    (fun _ => Resp 200 (-1) "" [mkRead 0 (bytes_of 4) ErrEOF]).

(** An origin that serves the first of two chunks of a 7-byte file and
    answers 500 to every other request. *)
Definition flakyOrigin : Origin :=
  mkOrigin (Resp 200 7 "bytes" [])
    (fun r =>
       match r with
       | Some (0, 2) => Resp 206 3 "bytes" [mkRead 0 (bytes_of 3) ErrEOF]
       | _ => Resp 500 0 "" []
       end).

(** An origin whose every read of a three-byte range blocks for [wait]
    nanoseconds before it delivers. *)
Definition slowOrigin (wait : Z) : Origin :=
  mkOrigin (Resp 200 7 "bytes" [])
    (fun _ => Resp 206 3 "bytes" [mkRead wait (bytes_of 3) ErrEOF]).

(** An origin that delivers each of the two ranges in two reads. *)
Definition trickleOrigin : Origin :=
  mkOrigin (Resp 200 7 "bytes" [])
    (fun r =>
       match r with
       | Some (0, 2) =>
           Resp 206 3 "bytes"
             [mkRead 0 (bytes_of 2) ErrNil; mkRead 0 (bytes_of 1) ErrEOF]
       | Some (3, 6) =>
           Resp 206 4 "bytes"
             [mkRead 0 (bytes_of 2) ErrNil; mkRead 0 (bytes_of 2) ErrEOF]
       | _ => Resp 416 0 "" []
       end).

(** * Further definitions: the rest of the engine and its callers *)

(** ** What a read loop takes from a body

    Both read loops (lines 242-280 and 375-413) stop at the first read that
    fails, returns no bytes, or reports [io.EOF]; [received] is what they
    have written by then and [read_failure] the error that stopped them. *)

Fixpoint received (body : list ReadEvent) : list Byte.byte :=
  match body with
  | [] => []
  | r :: body =>
      match rerr r with
      | ErrOther _ => []
      | e =>
          if Z.of_nat (length (data r)) =? 0 then []
          else data r ++ (if is_eof e then [] else received body)
      end
  end.

Fixpoint read_failure (body : list ReadEvent) : option string :=
  match body with
  | [] => None
  | r :: body =>
      match rerr r with
      | ErrOther msg => Some msg
      | e =>
          if Z.of_nat (length (data r)) =? 0 then None
          else if is_eof e then None else read_failure body
      end
  end.

(** The bytes [start..end] of a file, as a range request asks for them. *)
Definition slice (content : list Byte.byte) (r : Z * Z) : list Byte.byte :=
  take (Z.to_nat (r.2 - r.1 + 1)) (drop (Z.to_nat r.1) content).

(** The updates a chunk worker publishes while it reads. *)
Definition progress_events (d : Download) (k : nat) : list DownloadUpdate :=
  replicate k (mkUpdate (ID d) "progress").

(** The error a worker returns when a read fails (line 250). *)
Definition chunk_read_error (chunkIndex : Z) (msg : string) : string :=
  "error reading chunk " +:+ pretty chunkIndex +:+ ": " +:+ msg.

(** The error of the size check (line 284). *)
Definition chunk_incomplete_error (chunkIndex size downloaded : Z) : string :=
  "chunk " +:+ pretty chunkIndex +:+ " incomplete: expected " +:+ pretty size
    +:+ " bytes, got " +:+ pretty downloaded +:+ " bytes".

(** The error of a chunk file that cannot be opened (line 448). *)
Definition chunk_open_error (d : Download) (i : Z) : string :=
  "failed to open chunk file " +:+ pretty i +:+ ": open "
    +:+ chunkFileName d i +:+ ": no such file or directory".

(** The indices below [k], in order. *)
Definition indices_below (k : Z) : list Z := map Z.of_nat (seq 0 (Z.to_nat k)).

(** The second of two chunk files is missing. *)
Definition missing_chunk_cfg : Cfg :=
  let d := set_Status StatusDownloading (probed 7 2) in
  mkCfg d (<[chunkFileName d 0 := bytes_of 3]> ∅) [] env0.

(** A download for the file name dir/f.bin, on a host without the
    directory [downloads/dir]. *)
Definition nodir_cfg (chunks : Z) : Cfg :=
  mkCfg (newDownload "http://origin/f.bin" "dir/f.bin" chunks "30s" "1s" clock0)
    ∅ [] noDirEnv.

(** A download after its probe and its workers, with the chunks of a file
    of seven bytes fetched. *)
Definition fetched (c : Cfg) : Cfg :=
  match probe (rangeOrigin (bytes_of 7) "bytes") c with
  | inr c =>
      match fetchChunks (rangeOrigin (bytes_of 7) "bytes") c with
      | Done (c, _) => c
      | _ => c
      end
  | inl c => c
  end.

Definition fetched_cfg : Cfg := fetched (fresh_cfg 2).

Definition fetched_nodir_cfg : Cfg := fetched (nodir_cfg 2).

(** An origin that serves [content]: the probe reports its length and
    range support, and every range inside the file is answered 206 with a
    body whose reads deliver exactly those bytes. *)
Definition serves (o : Origin) (content : list Byte.byte) : Prop :=
  (exists code body,
     do_head o = Resp code (Z.of_nat (length content)) "bytes" body) /\
  forall s e, 0 <= s <= e -> e < Z.of_nat (length content) ->
    exists cl ar body,
      do_get o (Some (s, e)) = Resp 206 cl ar body /\
      read_failure body = None /\
      received body = slice content (s, e).

(** The origin does not answer the range request of chunk [i] with 206:
    the request fails, or the status is another one (a plain 200, say). *)
Definition chunk_refused (o : Origin) (d : Download) (i : Z) : Prop :=
  match do_get o (Some (chunkRange d i (quot64 (TotalSize d) (Chunks d)))) with
  | Resp code _ _ _ => code ≠ 206
  | _ => True
  end.

(** The updates of one download, by kind. *)
Definition update_of (d : Download) (ty : string) : DownloadUpdate :=
  mkUpdate (ID d) ty.

(** The sizes the workers expect ([actualChunkSize], line 207), in index
    order. *)
Definition chunkSizes (d : Download) : list Z :=
  actualChunkSize <$> chunkRanges d.

(** ** What the workers write in the download object *)

(** [d'] is [d] with other percentages, at most, in the ChunkProgress slots
    listed in [idxs]: every other field and every other slot is the same. *)
Definition writes_slots (idxs : list Z) (d d' : Download) : Prop :=
  d' = set_ChunkProgress (ChunkProgress d') d /\
  length (ChunkProgress d') = length (ChunkProgress d) /\
  forall j : nat, Z.of_nat j ∉ idxs -> ChunkProgress d' !! j = ChunkProgress d !! j.

(** ** The registry across calls *)

(** The object DeleteDownload leaves behind when it cancels an active
    download (lines 619-620). *)
Definition cancelled (d : Download) : Download :=
  set_Error "Download cancelled" (set_Status StatusError d).

(** What DeleteDownload makes of the view a controller has of its active
    download (lines 619-626): the object is marked and its chunk files are
    removed. *)
Definition cancelledCfg (c : Cfg) : Cfg :=
  mkCfg (cancelled (dl c)) (removeChunkFiles (dl c) (files c)) (published c)
    (env c).

(** ** Pause, resume and the ticker *)



(** The fields that only updateProgress writes (lines 579-594). *)
Definition ticker_fields (d : Download) : float * Z * float * Z * Z * Z :=
  (Progress d, Downloaded d, Speed d, TimeRemaining d, lastDownloaded d,
   lastUpdateTime d).

Definition targetTotals (s : System) : option (float * Z * float * Z * Z * Z) :=
  ticker_fields <$> heap (world s) !! target s.


(** No worker is parked in the receive of line 246. *)
Definition none_parked (s : System) : Prop :=
  Forall (fun wk => w_pc wk ≠ AwaitResume) (workers s).

(** A registry with one downloading download and the partial file of its
    second chunk. *)
Definition active_world : World :=
  let d := set_Status StatusDownloading (probed 7 2) in
  mkWorld {[ID d := 0%nat]} {[0%nat := d]} {[chunkFileName d 1 := bytes_of 2]}
    [] [0%nat] env0.

(** ** Subscribers (manager.go, lines 58-63 and 520-540)

    [broadcastUpdate] above records the updates a controller publishes.
    What a subscriber gets of them is decided by the fan-out modelled
    here. *)

Module Fanout.

(** [m.listeners]: one buffered channel per subscriber, in subscription
    order; a queue holds what was sent and not yet received, oldest
    first. *)
Abbreviation Listeners := (list (list DownloadUpdate)).

Definition NewManager : Listeners := [].

(** [make(chan DownloadUpdate, 100)] *)
Definition cap : nat := 100.

(** [Subscribe] appends a new channel and returns it; the channel is
    identified by its position. *)
Definition Subscribe (ls : Listeners) : Listeners * nat :=
  (ls ++ [[]], length ls).

(** The select of lines 534-538 on one listener: send if there is room,
    skip otherwise. *)
Definition offer (update : DownloadUpdate) (q : list DownloadUpdate)
    : list DownloadUpdate :=
  if (length q <? cap)%nat then q ++ [update] else q.

Definition broadcastUpdate (update : DownloadUpdate) (ls : Listeners)
    : Listeners :=
  offer update <$> ls.

(** A receive by the subscriber of listener [i]; [None] when it would
    block. *)
Definition receive (i : nat) (ls : Listeners)
    : option (DownloadUpdate * Listeners) :=
  match ls !! i with
  | Some (u :: q) => Some (u, <[i := q]> ls)
  | _ => None
  end.

(** The channel operations of a run, with what each subscriber has
    received so far. *)
Inductive Op :=
| OpSubscribe
| OpBroadcast (update : DownloadUpdate)
| OpReceive (i : nat).

Record Bus := mkBus {
  queues : Listeners;
  got : list (list DownloadUpdate)
}.

Definition exec (op : Op) (b : Bus) : option Bus :=
  match op with
  | OpSubscribe => Some (mkBus (Subscribe (queues b)).1 (got b ++ [[]]))
  | OpBroadcast u => Some (mkBus (broadcastUpdate u (queues b)) (got b))
  | OpReceive i =>
      match receive i (queues b) with
      | Some (u, ls) => Some (mkBus ls (alter (fun g => g ++ [u]) i (got b)))
      | None => None
      end
  end.

Fixpoint run (ops : list Op) (b : Bus) : option Bus :=
  match ops with
  | [] => Some b
  | op :: ops =>
      match exec op b with
      | Some b => run ops b
      | None => None
      end
  end.

(** The updates broadcast in a run, in order. *)
Definition broadcasts (ops : list Op) : list DownloadUpdate :=
  omap (fun op => match op with OpBroadcast u => Some u | _ => None end) ops.

End Fanout.

(** ** The websocket hub (internal/websocket, Hub.Run, ServeWS and the
    two pumps) *)

Module Hub.

(** [make(chan []byte, 256)] *)
Definition sendCap : nat := 256.

(** A client's [send] channel: the messages buffered in it and whether
    it has been closed. *)
Record Chan := mkChan {
  buf : list string;
  closed : bool
}.

(** [conns] holds every client created so far, by address; [clients] is
    the key set of [h.clients]; [wire] is what the writePump of each
    client has taken from its channel. *)
Record State := mkState {
  conns : gmap nat Chan;
  clients : gset nat;
  wire : gmap nat (list string)
}.

Definition NewHub : State := mkState ∅ ∅ ∅.

(** The inner select of lines 61-66 and 73-78 on one client: a send on a
    closed channel panics; a full buffer closes the channel and drops the
    client. *)
Definition deliver (message : string) (c : nat) (h : State) : outcome State :=
  match conns h !! c with
  | None => Panic "runtime error: invalid memory address or nil pointer dereference"
  | Some ch =>
      if closed ch then Panic "send on closed channel"
      else if (length (buf ch) <? sendCap)%nat then
        Done (mkState (<[c := mkChan (buf ch ++ [message]) false]> (conns h))
                (clients h) (wire h))
      else
        Done (mkState (<[c := mkChan (buf ch) true]> (conns h))
                (clients h ∖ {[c]}) (wire h))
  end.

(** What [deliver] does to the channel it is given. *)
Definition push (message : string) (ch : Chan) : Chan :=
  if (length (buf ch) <? sendCap)%nat then mkChan (buf ch ++ [message]) false
  else mkChan (buf ch) true.

(** The range over [h.clients]; the order Go picks does not matter, as
    each iteration touches its own client only. *)
Fixpoint deliverAll (message : string) (cs : list nat) (h : State)
    : outcome State :=
  match cs with
  | [] => Done h
  | c :: cs =>
      match deliver message c h with
      | Done h => deliverAll message cs h
      | Panic msg => Panic msg
      | Fatal msg => Fatal msg
      end
  end.

Definition broadcast (message : string) (h : State) : outcome State :=
  deliverAll message (elements (clients h)) h.

(** ServeWS: a new client with an empty channel, handed to the hub on
    [register] and added to [h.clients]. *)
Definition connect (h : State) : State * nat :=
  let c := fresh (dom (conns h)) in
  (mkState (<[c := mkChan [] false]> (conns h)) ({[c]} ∪ clients h) (wire h), c).

(** The [unregister] case (lines 52-57); closing a closed channel
    panics. *)
Definition unregister (c : nat) (h : State) : outcome State :=
  if decide (c ∈ clients h) then
    match conns h !! c with
    | None => Panic "runtime error: invalid memory address or nil pointer dereference"
    | Some ch =>
        if closed ch then Panic "close of closed channel"
        else Done (mkState (<[c := mkChan (buf ch) true]> (conns h))
                     (clients h ∖ {[c]}) (wire h))
    end
  else Done h.

(** One iteration of writePump's range over [c.send]; with nothing
    buffered the pump stays blocked (or has ended). *)
Definition writePump (c : nat) (h : State) : State :=
  match conns h !! c with
  | Some (mkChan (message :: rest) cl) =>
      mkState (<[c := mkChan rest cl]> (conns h)) (clients h)
        (<[c := default [] (wire h !! c) ++ [message]]> (wire h))
  | _ => h
  end.

Inductive Op :=
| Connect
| Unregister (c : nat)
| Message (message : string)
| Write (c : nat).

Definition exec (op : Op) (h : State) : outcome State :=
  match op with
  | Connect => Done (connect h).1
  | Unregister c => unregister c h
  | Message message => broadcast message h
  | Write c => Done (writePump c h)
  end.

Fixpoint run (ops : list Op) (h : State) : outcome State :=
  match ops with
  | [] => Done h
  | op :: ops =>
      match exec op h with
      | Done h => run ops h
      | Panic msg => Panic msg
      | Fatal msg => Fatal msg
      end
  end.



(** Every registered client has an open channel, and no channel holds
    more than its capacity. *)
Definition wf (h : State) : Prop :=
  (forall c, c ∈ clients h ->
     exists ch, conns h !! c = Some ch /\ closed ch = false) /\
  (forall c ch, conns h !! c = Some ch -> (length (buf ch) <= sendCap)%nat).

End Hub.

(** ** The handler downloadFile (handlers.go, lines 124-162) *)

(** [filepath.Base] on a Unix target: trailing slashes are removed, then
    everything up to the last slash; the empty path gives "." and a path
    of slashes only gives "/". *)
Definition is_slash (a : Ascii.ascii) : bool :=
  Ascii.eqb a (Ascii.ascii_of_nat 47).

Fixpoint dropSlashes (cs : list Ascii.ascii) : list Ascii.ascii :=
  match cs with
  | [] => []
  | a :: cs' => if is_slash a then dropSlashes cs' else cs
  end.

Fixpoint upToSlash (cs : list Ascii.ascii) : list Ascii.ascii :=
  match cs with
  | [] => []
  | a :: cs' => if is_slash a then [] else a :: upToSlash cs'
  end.

Definition Base (path : string) : string :=
  if decide (path = "") then "."
  else
    let stripped :=
      dropSlashes (rev (Stdlib.Strings.String.list_ascii_of_string path)) in
    let element := rev (upToSlash stripped) in
    if decide (element = []) then "/"
    else Stdlib.Strings.String.string_of_list_ascii element.

(** What the client is sent: an [http.Error] with its code and message;
    status 200 with the Content-Disposition header and the file as the
    body; status 200 with the object at [a] encoded as JSON; or a bare
    status line. *)
Inductive Answer :=
| ErrorAnswer (code : Z) (message : string)
| FileAnswer (disposition : string) (body : list Byte.byte)
| JsonAnswer (a : nat)
| StatusAnswer (code : Z).

(** Reading an existing file does not fail here, so the two answers with
    status 500 do not occur. *)
Definition downloadFile (id : string) (w : World) : outcome Answer :=
  match GetDownload id w with
  | (Some a, None) =>
      match heap w !! a with
      | None =>
          Panic "runtime error: invalid memory address or nil pointer dereference"
      | Some download =>
          if decide (Status download = StatusCompleted) then
            match wfiles w !! OutputPath download with
            | None => Done (ErrorAnswer 404 "Downloaded file not found")
            | Some content =>
                Done (FileAnswer
                        ("attachment; filename=" +:+ Base (Filename download))
                        content)
            end
          else Done (ErrorAnswer 400 "Download not completed yet")
      end
  | _ => Done (ErrorAnswer 404 "Download not found")
  end.

(** The handlers getDownload (lines 93-104) and deleteDownload (lines
    164-171). *)
Definition getDownload (id : string) (w : World) : Answer :=
  match GetDownload id w with
  | (Some a, None) => JsonAnswer a
  | _ => ErrorAnswer 404 "Download not found"
  end.

Definition deleteDownload (id : string) (w : World) : outcome (World * Answer) :=
  match DeleteDownload id w with
  | Done (w', Some e) => Done (w', ErrorAnswer 400 e)
  | Done (w', None) => Done (w', StatusAnswer 204)
  | Panic msg => Panic msg
  | Fatal msg => Fatal msg
  end.

(** The goroutine [go m.startDownload(download)] of the object at [a], run
    to its end with nothing else scheduled in between. *)
Definition runController (o : Origin) (a : nat) (w : World) : outcome World :=
  match view a w with
  | Some c => outcome_map (fun c' => commit a c' w) (startDownload o c)
  | None =>
      Panic "runtime error: invalid memory address or nil pointer dereference"
  end.

(** The same goroutine in three stretches, between which the goroutines of
    other downloads may run: the probe (lines 100-131), the workers up to
    the errors read from [errorChan] (lines 133-161), and the rest (lines
    163-197).  [controllerProbe] answers [true] when the controller goes on
    to the chunked path and [false] when it has returned. *)
Definition controllerProbe (o : Origin) (a : nat) (w : World)
    : outcome (World * bool) :=
  match view a w with
  | Some c =>
      match probe o c with
      | inl c' => Done (commit a c' w, false)
      | inr c' => Done (commit a c' w, true)
      end
  | None =>
      Panic "runtime error: invalid memory address or nil pointer dereference"
  end.

Definition controllerFetch (o : Origin) (a : nat) (w : World)
    : outcome (World * list string) :=
  match view a w with
  | Some c => outcome_map (fun r => (commit a r.1 w, r.2)) (fetchChunks o c)
  | None =>
      Panic "runtime error: invalid memory address or nil pointer dereference"
  end.

Definition controllerFinish (a : nat) (chunkErrors : list string) (w : World)
    : outcome World :=
  match view a w with
  | Some c => Done (commit a (finishChunked c chunkErrors) w)
  | None =>
      Panic "runtime error: invalid memory address or nil pointer dereference"
  end.

(** Two create requests for different files, for two chunks each. *)
Definition requestA : CreateDownloadRequest :=
  mkRequest "http://origin/a.bin" "a.bin" 2 "30s" "10m".

Definition requestB : CreateDownloadRequest :=
  mkRequest "http://origin/b.bin" "b.bin" 2 "30s" "10m".

(** The fields of a download that are set when it is created. *)
Definition identity (d : Download)
    : string * string * string * string * Z * string * string * Z :=
  (ID d, URL d, Filename d, OutputPath d, Chunks d, ConnectTimeout d,
   ReadTimeout d, StartTime d).

(** An empty registry on the host without [downloads/dir]. *)
Definition nodir_world : World := mkWorld ∅ ∅ ∅ [] [] noDirEnv.

(** A registry with one completed download and its output file. *)
Definition completed_world : World :=
  let d := set_Status StatusCompleted (probed 7 2) in
  mkWorld {[ID d := 0%nat]} {[0%nat := d]} {[OutputPath d := bytes_of 7]} [] []
    env0.

(** ** What one worker does, as a function of its chunk alone *)

(** The percentage a read loop last wrote into its slot and the number of
    progress updates it published, for a body read with [m] bytes counted
    before (lines 260-274). *)
Fixpoint loop_pct (size : Z) (body : list ReadEvent) (m : Z) : option float :=
  match body with
  | [] => None
  | r :: body =>
      match rerr r with
      | ErrOther _ => None
      | e =>
          let n := Z.of_nat (length (data r)) in
          if n =? 0 then None
          else
            let m := add64 m n in
            let pct := (float_of_Z m / float_of_Z size * 100)%float in
            if is_eof e then Some pct
            else match loop_pct size body m with
                 | Some later => Some later
                 | None => Some pct
                 end
      end
  end.

Fixpoint loop_events (body : list ReadEvent) (m : Z) : nat :=
  match body with
  | [] => 0%nat
  | r :: body =>
      match rerr r with
      | ErrOther _ => 0%nat
      | e =>
          let n := Z.of_nat (length (data r)) in
          if n =? 0 then 0%nat
          else
            let m := add64 m n in
            let k := if (rem64 m 1048576 =? 0) || is_eof e then 1%nat else 0%nat in
            if is_eof e then k else (k + loop_events body m)%nat
      end
  end.

Definition slot_write (i : Z) (pct : option float) (cp : list float)
    : list float :=
  match pct with
  | Some p => <[Z.to_nat i := p]> cp
  | None => cp
  end.

(** The outcome of the fetch of chunk [i]: the error of a request that
    was refused, or the bytes left in the temporary file, the percentage
    left in the slot, the number of progress updates and the result. *)
Definition fetch_summary (o : Origin) (d : Download) (i cs : Z)
    : string + (list Byte.byte * option float * nat * option string) :=
  let r := chunkRange d i cs in
  match do_get o (Some r) with
  | ReqErr msg =>
      inl ("error creating request for chunk " +:+ pretty i +:+ ": " +:+ msg)
  | DoErr msg =>
      inl ("error downloading chunk " +:+ pretty i +:+ ": " +:+ msg)
  | Resp code _ _ body =>
      if negb (code =? 206) then
        inl ("server doesn't support range requests for chunk "
             +:+ pretty i +:+ ", status: " +:+ pretty code)
      else
        let size := actualChunkSize r in
        let got := wrap64 (Z.of_nat (length (received body))) in
        match read_failure body with
        | Some msg =>
            inr (received body, loop_pct size body 0, loop_events body 0,
                 Some (chunk_read_error i msg))
        | None =>
            if got =? size then
              inr (received body, loop_pct size body 0,
                   (loop_events body 0 + 1)%nat, None)
            else
              inr (received body, loop_pct size body 0, loop_events body 0,
                   Some (chunk_incomplete_error i size got))
        end
  end.

Definition apply_summary (i : Z)
    (s : string + (list Byte.byte * option float * nat * option string))
    (c : Cfg) : Cfg * option string :=
  match s with
  | inl e => (c, Some e)
  | inr (bytes, pct, k, e) =>
      (mkCfg (set_ChunkProgress (slot_write i pct (ChunkProgress (dl c))) (dl c))
         (<[chunkFileName (dl c) i := bytes]> (files c))
         (published c ++ progress_events (dl c) k) (env c), e)
  end.

(** A one-chunk download of seven bytes, registered under its id, inside
    downloadSingleFile with its output file open, and the body the origin
    delivers in two reads. *)
Definition reading_system : System :=
  let d := set_Status StatusDownloading (probed 7 1) in
  mkSystem
    (mkWorld {[ID d := 0%nat]} {[0%nat := d]} {[OutputPath d := []]} []
       [0%nat] env0)
    0%nat [] false NoCall [].

Definition reading_reader : Reader :=
  mkReader [mkRead 0 (bytes_of 3) ErrNil; mkRead 0 (bytes_of 4) ErrEOF] 0
    ReaderAtSelect.

(** * Properties *)

(** ** Chunk ranges *)

Lemma wrap64_id z : in_int64 z -> wrap64 z = z.
Proof.
  unfold in_int64, wrap64. intros H.
  rewrite Z.mod_small; lia.
Qed.

Section Partition.
Variable d : Download.
Hypothesis Hsize : 1 <= TotalSize d < 2 ^ 63.
Hypothesis Hn : 1 <= Chunks d < 2 ^ 63.

Let T := TotalSize d.
Let n := Chunks d.
Let base := T / n.

Lemma base_bounds : 0 <= base /\ n * base <= T /\ T < n * base + n.
Proof.
  subst base T n.
  pose proof (Z.div_mod (TotalSize d) (Chunks d) ltac:(lia)) as Hdm.
  pose proof (Z.mod_pos_bound (TotalSize d) (Chunks d) ltac:(lia)) as Hmb.
  pose proof (Z.div_pos (TotalSize d) (Chunks d) ltac:(lia) ltac:(lia)).
  nia.
Qed.

Lemma chunkSize_eq : quot64 (TotalSize d) (Chunks d) = base.
Proof.
  unfold quot64. rewrite Z.quot_div_nonneg by lia.
  pose proof base_bounds as (? & ? & ?).
  apply wrap64_id. unfold in_int64. subst base T n. nia.
Qed.

Lemma chunkRange_eq i :
  0 <= i < n ->
  chunkRange d i base =
    (i * base, if i =? n - 1 then T - 1 else (i + 1) * base - 1).
Proof.
  intros Hi. pose proof base_bounds as (Hb0 & Hb1 & Hb2).
  unfold chunkRange, mul64, add64, sub64.
  assert (Hib : 0 <= i * base <= T) by (subst T n; nia).
  assert (Hib' : 0 <= i * base + base <= T) by (subst T n; nia).
  rewrite (wrap64_id (i * base)) by (unfold in_int64; subst T; lia).
  rewrite (wrap64_id (i * base + base)) by (unfold in_int64; subst T; lia).
  rewrite (wrap64_id (i * base + base - 1)) by (unfold in_int64; subst T; lia).
  rewrite (wrap64_id (Chunks d - 1)) by (unfold in_int64; lia).
  rewrite (wrap64_id (TotalSize d - 1)) by (unfold in_int64; lia).
  fold n T. destruct (i =? n - 1); f_equal; lia.
Qed.

Lemma chunkRanges_lookup (i : nat) :
  (i < Z.to_nat n)%nat ->
  chunkRanges d !! i =
    Some (Z.of_nat i * base,
          if Z.of_nat i =? n - 1 then T - 1 else (Z.of_nat i + 1) * base - 1).
Proof.
  intros Hi. unfold chunkRanges, chunkIndices.
  rewrite !list_lookup_fmap, lookup_seq_lt by (fold n; lia).
  simpl. rewrite chunkSize_eq, chunkRange_eq by (subst n; lia). done.
Qed.

Lemma chunkRanges_length : length (chunkRanges d) = Z.to_nat n.
Proof. unfold chunkRanges, chunkIndices. by rewrite !length_map, length_seq. Qed.

Lemma chunkRanges_lookup_inv (i : nat) r :
  chunkRanges d !! i = Some r ->
  (i < Z.to_nat n)%nat /\
  r = (Z.of_nat i * base,
       if Z.of_nat i =? n - 1 then T - 1 else (Z.of_nat i + 1) * base - 1).
Proof.
  intros H. assert (Hi : (i < Z.to_nat n)%nat).
  { apply lookup_lt_Some in H. by rewrite chunkRanges_length in H. }
  split; [done|]. rewrite chunkRanges_lookup in H by done. congruence.
Qed.

Lemma owner_holds b :
  0 <= b < T ->
  exists s e, chunkRanges d !! owner d b = Some (s, e) /\ s <= b <= e.
Proof.
  intros Hb. pose proof base_bounds as (Hb0 & Hb1 & Hb2).
  unfold owner. fold T n base. destruct (Z.eqb_spec base 0) as [Hz|Hz].
  - rewrite chunkRanges_lookup by (subst n; lia).
    rewrite Z2Nat.id by (subst n; lia). rewrite Z.eqb_refl.
    eexists _, _. split; [done|]. subst n; nia.
  - assert (0 <= b / base) by (apply Z.div_pos; lia).
    pose proof (Z.div_mod b base Hz) as Hdm.
    pose proof (Z.mod_pos_bound b base ltac:(lia)) as Hmb.
    rewrite chunkRanges_lookup by (subst n; lia).
    rewrite Z2Nat.id by (subst n; lia).
    eexists _, _. split; [done|].
    destruct (Z.min_spec (b / base) (n - 1)) as [[Hlt ->]|[Hge ->]].
    + destruct (Z.eqb_spec (b / base) (n - 1)); [lia|]. nia.
    + rewrite Z.eqb_refl. nia.
Qed.

Lemma owner_unique b (i : nat) s e :
  0 <= b < T ->
  chunkRanges d !! i = Some (s, e) -> s <= b <= e -> i = owner d b.
Proof.
  intros Hb Hi Hse. pose proof base_bounds as (Hb0 & Hb1 & Hb2).
  apply chunkRanges_lookup_inv in Hi as [Hlt Heq].
  injection Heq as -> ->. unfold owner. fold T n base.
  destruct (Z.eqb_spec base 0) as [Hz|Hz].
  - destruct (Z.eqb_spec (Z.of_nat i) (n - 1)); [lia|]. rewrite Hz in Hse. lia.
  - assert (0 <= b / base) by (apply Z.div_pos; lia).
    pose proof (Z.div_mod b base Hz) as Hdm.
    pose proof (Z.mod_pos_bound b base ltac:(lia)) as Hmb.
    destruct (Z.eqb_spec (Z.of_nat i) (n - 1)) as [Hl|Hl].
    + assert (n - 1 <= b / base) by nia. lia.
    + assert (b / base = Z.of_nat i) by nia. subst n. lia.
Qed.
End Partition.

(** The range a worker puts in its [Range] header is its entry of
    [chunkRanges]. *)
Lemma chunkOpen_requests_range o c i :
  0 <= i < Chunks (dl c) ->
  chunkRanges (dl c) !! Z.to_nat i =
    Some (chunkRange (dl c) i (quot64 (TotalSize (dl c)) (Chunks (dl c)))) /\
  forall code cl ar body,
    do_get o (Some (chunkRange (dl c) i
                      (quot64 (TotalSize (dl c)) (Chunks (dl c))))) =
      Resp code cl ar body ->
    code = 206 ->
    (chunkOpen o c i (quot64 (TotalSize (dl c)) (Chunks (dl c)))).2 =
      inl (chunkFileName (dl c) i,
           actualChunkSize
             (chunkRange (dl c) i (quot64 (TotalSize (dl c)) (Chunks (dl c)))),
           body).
Proof.
  intros Hi. split.
  - unfold chunkRanges, chunkIndices.
    rewrite !list_lookup_fmap, lookup_seq_lt by lia. simpl.
    by rewrite Z2Nat.id by lia.
  - intros code cl ar body Hget ->. unfold chunkOpen. by rewrite Hget.
Qed.

(** C1. For total_size >= 1 and n >= 1 chunks the ranges requested by the
    workers are n contiguous, non-overlapping ranges that cover
    [0, total_size-1] exactly: with base = total_size / n, chunk i < n-1
    spans [i*base, (i+1)*base - 1] and the last chunk ends at
    total_size-1. *)
Theorem chunk_ranges_partition (d : Download) :
  1 <= TotalSize d < 2 ^ 63 ->
  1 <= Chunks d < 2 ^ 63 ->
  let base := TotalSize d / Chunks d in
  length (chunkRanges d) = Z.to_nat (Chunks d) /\
  (forall i, 0 <= i < Chunks d - 1 ->
     chunkRanges d !! Z.to_nat i = Some (i * base, (i + 1) * base - 1)) /\
  chunkRanges d !! Z.to_nat (Chunks d - 1) =
    Some ((Chunks d - 1) * base, TotalSize d - 1) /\
  (exists e, chunkRanges d !! 0%nat = Some (0, e)) /\
  (forall (i : nat) s e s' e',
     chunkRanges d !! i = Some (s, e) ->
     chunkRanges d !! S i = Some (s', e') -> s' = e + 1) /\
  (forall (i : nat) s e,
     chunkRanges d !! i = Some (s, e) ->
     0 <= s /\ s <= e + 1 /\ e <= TotalSize d - 1) /\
  (forall b, 0 <= b < TotalSize d ->
     exists i, (exists s e, chunkRanges d !! i = Some (s, e) /\ s <= b <= e) /\
       forall j s e, chunkRanges d !! j = Some (s, e) -> s <= b <= e -> j = i).
Proof.
  intros HT Hn base.
  pose proof (base_bounds d HT Hn) as (Hb0 & Hb1 & Hb2). fold base in Hb0, Hb1, Hb2.
  split; [by apply chunkRanges_length|].
  split.
  { intros i Hi. rewrite (chunkRanges_lookup d HT Hn) by lia.
    rewrite Z2Nat.id by lia. fold base.
    destruct (Z.eqb_spec i (Chunks d - 1)); [lia|done]. }
  split.
  { rewrite (chunkRanges_lookup d HT Hn) by lia.
    rewrite Z2Nat.id by lia. by rewrite Z.eqb_refl. }
  split.
  { rewrite (chunkRanges_lookup d HT Hn) by lia. eexists. f_equal. }
  split.
  { intros i s e s' e' H1 H2.
    apply (chunkRanges_lookup_inv d HT Hn) in H1 as [Hi1 E1].
    apply (chunkRanges_lookup_inv d HT Hn) in H2 as [Hi2 E2].
    fold base in E1, E2. injection E1 as -> ->. injection E2 as -> ->.
    destruct (Z.eqb_spec (Z.of_nat i) (Chunks d - 1)); lia. }
  split.
  { intros i s e H1.
    apply (chunkRanges_lookup_inv d HT Hn) in H1 as [Hi1 E1].
    fold base in E1. injection E1 as -> ->.
    destruct (Z.eqb_spec (Z.of_nat i) (Chunks d - 1)); nia. }
  intros b Hb. exists (owner d b). split.
  - by apply owner_holds.
  - intros j s e Hj Hse. by apply (owner_unique d HT Hn b j s e).
Qed.

Lemma chunk_ranges_partition_witness :
  1 <= TotalSize (probed 1000003 4) < 2 ^ 63 /\
  1 <= Chunks (probed 1000003 4) < 2 ^ 63 /\
  length (chunkRanges (probed 1000003 4)) = 4%nat /\
  chunkRanges (probed 1000003 4) !! 3%nat = Some (750000, 1000002).
Proof.
  assert (H1 : 1 <= TotalSize (probed 1000003 4) < 2 ^ 63) by (simpl; lia).
  assert (H2 : 1 <= Chunks (probed 1000003 4) < 2 ^ 63) by (simpl; lia).
  destruct (chunk_ranges_partition (probed 1000003 4) H1 H2)
    as (Hlen & _ & Hlast & _).
  split; [exact H1|]. split; [exact H2|]. split; [exact Hlen|exact Hlast].
Defined.

(** ** Arithmetic of the byte counters *)

Lemma wrap64_add_l a b : wrap64 (wrap64 a + b) = wrap64 (a + b).
Proof.
  unfold wrap64. f_equal.
  replace ((a + 2 ^ 63) mod 2 ^ 64 - 2 ^ 63 + b + 2 ^ 63)
    with ((a + 2 ^ 63) mod 2 ^ 64 + b) by lia.
  rewrite Zplus_mod_idemp_l. f_equal. lia.
Qed.

Lemma add64_wrap a b : add64 (wrap64 a) b = wrap64 (a + b).
Proof. apply wrap64_add_l. Qed.

(** ** File-system facts *)

Lemma appendFile_other p q bs (fs : FS) :
  p ≠ q -> appendFile p bs fs !! q = fs !! q.
Proof.
  intros. unfold appendFile. destruct (fs !! p); [|done].
  by rewrite lookup_insert_ne.
Qed.

Lemma appendFile_same p bs (fs : FS) :
  appendFile p bs fs !! p = (fun old => old ++ bs) <$> fs !! p.
Proof.
  unfold appendFile. destruct (fs !! p) eqn:H; [|by rewrite H].
  by rewrite lookup_insert_eq.
Qed.

Lemma appendFile_present p bs (fs : FS) old :
  fs !! p = Some old -> appendFile p bs fs = <[p := old ++ bs]> fs.
Proof. intros H. unfold appendFile. by rewrite H. Qed.

(** A write through the handle of a removed file leaves nothing on disk. *)
Lemma appendFile_absent p bs (fs : FS) :
  fs !! p = None -> appendFile p bs fs = fs.
Proof. intros H. unfold appendFile. by rewrite H. Qed.

Lemma elem_of_chunkIndices d i : i ∈ chunkIndices d <-> 0 <= i < Chunks d.
Proof.
  unfold chunkIndices. rewrite list_elem_of_fmap. split.
  - intros (k & -> & Hk). apply elem_of_seq in Hk. lia.
  - intros Hi. exists (Z.to_nat i). split; [lia|]. apply elem_of_seq. lia.
Qed.

(** ** mergeChunks *)

Section Merge.
Variable d : Download.
Hypothesis Hnames : forall i, chunkFileName d i ≠ OutputPath d.

(** A path other than the output that is absent stays absent. *)
Lemma mergeLoop_absent idxs (fs fs' : FS) tm tm' e p :
  mergeLoop d idxs fs tm = (fs', tm', e) ->
  p ≠ OutputPath d -> fs !! p = None -> fs' !! p = None.
Proof.
  revert fs tm. induction idxs as [|i idxs IH]; intros fs tm H Hp Hnone; simpl in H.
  - by inversion H; subst.
  - destruct (fs !! chunkFileName d i) as [content|] eqn:Hc.
    + eapply IH; [exact H|done|]. unfold removeFile.
      destruct (decide (chunkFileName d i = p)) as [->|Hne].
      * by rewrite lookup_delete_eq.
      * rewrite lookup_delete_ne by done. by rewrite appendFile_other.
    + by inversion H; subst.
Qed.

(** A loop that ends without error has removed every chunk file it
    visited, and its counter is the (wrapped) size of the output. *)
Lemma mergeLoop_ok idxs (fs fs' : FS) tm tm' out :
  mergeLoop d idxs fs tm = (fs', tm', None) ->
  fs !! OutputPath d = Some out ->
  tm = wrap64 (Z.of_nat (length out)) ->
  (forall i, i ∈ idxs -> fs' !! chunkFileName d i = None) /\
  exists out', fs' !! OutputPath d = Some out' /\
     tm' = wrap64 (Z.of_nat (length out')).
Proof.
  revert fs tm out. induction idxs as [|i idxs IH]; intros fs tm out H Hout Htm; simpl in H.
  - inversion H; subst. split; [|by eauto]. intros i Hi. by apply elem_of_nil in Hi.
  - destruct (fs !! chunkFileName d i) as [content|] eqn:Hc; [|done].
    set (fs1 := removeFile (chunkFileName d i)
                  (appendFile (OutputPath d) content fs)) in *.
    assert (Hout1 : fs1 !! OutputPath d = Some (out ++ content)).
    { unfold fs1, removeFile. rewrite lookup_delete_ne by apply Hnames.
      by rewrite appendFile_same, Hout. }
    assert (Hgone : fs1 !! chunkFileName d i = None).
    { unfold fs1, removeFile. by rewrite lookup_delete_eq. }
    destruct (IH fs1 _ (out ++ content) H Hout1) as [Hrest Hsize].
    { subst tm. rewrite add64_wrap, length_app. f_equal. lia. }
    split; [|done]. intros j Hj. apply elem_of_cons in Hj as [->|Hj].
    + eapply mergeLoop_absent; [exact H|apply Hnames|done].
    + by apply Hrest.
Qed.

(** A loop that stops on an error has still removed the chunk files it
    copied before the failure, and leaves the partial output behind. *)
Lemma mergeLoop_output idxs (fs fs' : FS) tm tm' e out :
  mergeLoop d idxs fs tm = (fs', tm', e) ->
  fs !! OutputPath d = Some out ->
  exists out', fs' !! OutputPath d = Some out'.
Proof.
  revert fs tm out. induction idxs as [|i idxs IH]; intros fs tm out H Hout; simpl in H.
  - inversion H; subst. eauto.
  - destruct (fs !! chunkFileName d i) as [content|] eqn:Hc.
    + eapply IH; [exact H|]. unfold removeFile.
      rewrite lookup_delete_ne by apply Hnames.
      by rewrite appendFile_same, Hout.
    + inversion H; subst. eauto.
Qed.
End Merge.

Lemma mergeChunks_dl c c' e : mergeChunks c = (c', e) -> dl c' = dl c.
Proof.
  unfold mergeChunks. intros H.
  destruct (createErr _ _); [by inversion H|].
  destruct (mergeLoop _ _ _ _) as [[fs tm] [err|]]; [by inversion H|].
  destruct (negb _); by inversion H.
Qed.

Lemma mergeChunks_env c c' e : mergeChunks c = (c', e) -> env c' = env c.
Proof.
  unfold mergeChunks. intros H.
  destruct (createErr _ _); [by inversion H|].
  destruct (mergeLoop _ _ _ _) as [[fs tm] [err|]]; [by inversion H|].
  destruct (negb _); by inversion H.
Qed.

(** A merge that returns nil has created its output. *)
Lemma mergeChunks_created c c' :
  mergeChunks c = (c', None) -> createErr (env c) (OutputPath (dl c)) = None.
Proof. unfold mergeChunks. by destruct (createErr _ _). Qed.

(** What a successful merge leaves on disk. *)
Lemma mergeChunks_ok c c' :
  (forall i, chunkFileName (dl c) i ≠ OutputPath (dl c)) ->
  mergeChunks c = (c', None) ->
  dl c' = dl c /\
  (forall i, 0 <= i < Chunks (dl c) -> files c' !! chunkFileName (dl c) i = None) /\
  exists out, files c' !! OutputPath (dl c) = Some out /\
    TotalSize (dl c) = wrap64 (Z.of_nat (length out)).
Proof.
  intros Hnames H. split; [by eapply mergeChunks_dl|].
  unfold mergeChunks in H. destruct (createErr _ _); [done|].
  destruct (mergeLoop _ _ _ _) as [[fs tm] [err|]] eqn:Hloop; [done|].
  destruct (Z.eqb_spec tm (TotalSize (dl c))) as [Heq|Hne]; simpl in H; [|done].
  inversion H; subst c'; clear H. simpl.
  destruct (mergeLoop_ok (dl c) Hnames _ _ _ _ _ [] Hloop) as [Hgone (out & Hout & Htm)].
  { unfold createFile. by rewrite lookup_insert_eq. }
  { done. }
  split.
  - intros i Hi. apply Hgone. by apply elem_of_chunkIndices.
  - exists out. split; [done|congruence].
Qed.

(** ** What the workers leave untouched *)

Lemma same_ident_refl d : same_ident d d.
Proof. by repeat split. Qed.

Lemma same_ident_trans d1 d2 d3 :
  same_ident d1 d2 -> same_ident d2 d3 -> same_ident d1 d3.
Proof.
  unfold same_ident. intros (?&?&?&?&?&?&?) (?&?&?&?&?&?&?).
  repeat split; congruence.
Qed.

Lemma chunkIter_ident name i size r c n c' n' ctl :
  chunkIter name i size r c n = (c', n', ctl) -> same_ident (dl c) (dl c').
Proof.
  unfold chunkIter. intros H.
  destruct (rerr r); (destruct (Z.of_nat (length (data r)) =? 0);
    [inversion H; subst; apply same_ident_refl|]) ||
    (inversion H; subst; apply same_ident_refl).
  all: destruct (negb (index_ok _ _));
    [inversion H; subst; by repeat split|].
  all: match type of H with context [if ?b then _ else _] => destruct b end.
  all: inversion H; subst; repeat split; simpl; by rewrite length_insert.
Qed.

Lemma downloadLoop_ident name i size body c n c' n' e :
  downloadLoop name i size body c n = Done (c', n', e) ->
  same_ident (dl c) (dl c').
Proof.
  revert c n. induction body as [|r body IH]; intros c n H; simpl in H.
  - inversion H; subst. apply same_ident_refl.
  - destruct (chunkIter name i size r c n) as [[c1 n1] ctl] eqn:Hit.
    apply chunkIter_ident in Hit.
    destruct ctl.
    + eapply same_ident_trans; [exact Hit|by eapply IH].
    + by inversion H; subst.
    + by inversion H; subst.
    + done.
Qed.

Lemma chunkOpen_ident o c i cs c' r :
  chunkOpen o c i cs = (c', r) -> same_ident (dl c) (dl c').
Proof.
  unfold chunkOpen. intros H.
  destruct (do_get o _) as [msg|msg|code cl ar body].
  - inversion H; subst. apply same_ident_refl.
  - inversion H; subst. apply same_ident_refl.
  - destruct (negb _); inversion H; subst; apply same_ident_refl.
Qed.

Lemma chunkFinish_ident i size c n c' e :
  chunkFinish i size c n = (c', e) -> same_ident (dl c) (dl c').
Proof.
  unfold chunkFinish. intros H.
  destruct (negb _); inversion H; subst; apply same_ident_refl.
Qed.

Lemma downloadChunk_ident o c i cs c' e :
  downloadChunk o c i cs = Done (c', e) -> same_ident (dl c) (dl c').
Proof.
  unfold downloadChunk. intros H.
  destruct (chunkOpen o c i cs) as [c1 [[[name size] body]|err]] eqn:Hopen.
  - apply chunkOpen_ident in Hopen.
    destruct (downloadLoop name i size body c1 0)
      as [[[c2 n] [err|]]|msg|msg] eqn:Hloop; [| |done|done].
    + apply downloadLoop_ident in Hloop. inversion H; subst.
      by eapply same_ident_trans.
    + apply downloadLoop_ident in Hloop. injection H as H.
      apply chunkFinish_ident in H.
      eapply same_ident_trans; [exact Hopen|]. by eapply same_ident_trans.
  - apply chunkOpen_ident in Hopen. by inversion H; subst.
Qed.

Lemma runWorkers_ident o cs idxs c errs c' errs' :
  runWorkers o cs idxs c errs = Done (c', errs') -> same_ident (dl c) (dl c').
Proof.
  revert c errs. induction idxs as [|i idxs IH]; intros c errs H; simpl in H.
  - inversion H; subst. apply same_ident_refl.
  - destruct (downloadChunk o c i cs) as [[c1 [e|]]|msg|msg] eqn:Hc;
      [| |done|done];
      apply downloadChunk_ident in Hc;
      (eapply same_ident_trans; [exact Hc|by eapply IH]).
Qed.

(** No function of the engine changes the host. *)
Lemma chunkIter_env name i size r c n c' n' ctl :
  chunkIter name i size r c n = (c', n', ctl) -> env c' = env c.
Proof.
  unfold chunkIter. intros H.
  destruct (rerr r); [| |by inversion H].
  all: destruct (_ =? 0); [by inversion H|].
  all: destruct (negb _); [by inversion H|].
  all: destruct (_ || _); by inversion H.
Qed.

Lemma downloadLoop_env name i size body c n c' n' e :
  downloadLoop name i size body c n = Done (c', n', e) -> env c' = env c.
Proof.
  revert c n. induction body as [|r body IH]; intros c n H; simpl in H.
  - by inversion H.
  - destruct (chunkIter name i size r c n) as [[c1 n1] ctl] eqn:Hit.
    apply chunkIter_env in Hit.
    destruct ctl; [|by inversion H; subst..|done].
    rewrite <- Hit. by eapply IH.
Qed.

Lemma chunkOpen_env o c i cs c' r :
  chunkOpen o c i cs = (c', r) -> env c' = env c.
Proof.
  unfold chunkOpen. intros H.
  destruct (do_get o _) as [msg|msg|code cl ar body];
    [by inversion H|by inversion H|].
  destruct (negb _); by inversion H.
Qed.

Lemma downloadChunk_env o c i cs c' e :
  downloadChunk o c i cs = Done (c', e) -> env c' = env c.
Proof.
  unfold downloadChunk. intros H.
  destruct (chunkOpen o c i cs) as [c1 [[[name size] body]|err]] eqn:Hopen;
    apply chunkOpen_env in Hopen; [|by inversion H; subst].
  destruct (downloadLoop name i size body c1 0)
    as [[[c2 n] [err|]]|msg|msg] eqn:Hloop; [| |done|done];
    apply downloadLoop_env in Hloop.
  - inversion H; subst. congruence.
  - injection H as H. unfold chunkFinish in H.
    destruct (negb _); inversion H; subst; simpl; congruence.
Qed.

Lemma runWorkers_env o cs idxs c errs c' errs' :
  runWorkers o cs idxs c errs = Done (c', errs') -> env c' = env c.
Proof.
  revert c errs. induction idxs as [|i idxs IH]; intros c errs H; simpl in H.
  - by inversion H.
  - destruct (downloadChunk o c i cs) as [[c1 [e|]]|msg|msg] eqn:Hc;
      [| |done|done];
      apply downloadChunk_env in Hc; rewrite <- Hc; by eapply IH.
Qed.

(** The errors a controller reads are those the workers sent, in another
    order at most. *)
Lemma arrive_perm t e queue : arrive t e queue ≡ₚ (t, e) :: queue.
Proof.
  induction queue as [|[t' e'] rest IH]; simpl; [done|].
  destruct (t <=? t')%nat; [done|]. rewrite IH. apply perm_swap.
Qed.

Lemma inArrivalOrder_perm at_ errs : inArrivalOrder at_ errs ≡ₚ errs.
Proof.
  unfold inArrivalOrder.
  assert (H : forall (l : list (nat * string)),
            snd <$> foldr (fun ke queue => arrive (at_ ke.1) ke.2 queue) [] l
              ≡ₚ snd <$> l).
  { induction l as [|[k e] l IH]; simpl; [done|].
    rewrite arrive_perm. simpl. by rewrite IH. }
  rewrite H. clear H.
  assert (H : forall j, snd <$> imap (fun k e => (j + k, e)%nat) errs = errs).
  { induction errs as [|e errs IH]; intros j; simpl; [done|]. f_equal.
    rewrite <- (IH (S j)) at 2. f_equal. apply imap_ext.
    intros k x _. simpl. f_equal. lia. }
  by rewrite <- (H 0%nat) at 2.
Qed.

Lemma inArrivalOrder_empty at_ : inArrivalOrder at_ [] = [].
Proof. reflexivity. Qed.

Lemma inArrivalOrder_nil at_ errs : inArrivalOrder at_ errs = [] <-> errs = [].
Proof.
  split; [|by intros ->].
  intros H. apply Permutation_nil_r. rewrite <- H.
  symmetry. apply inArrivalOrder_perm.
Qed.

Lemma chunkFileName_ident d d' i :
  same_ident d d' -> chunkFileName d' i = chunkFileName d i.
Proof. intros (H&_). unfold chunkFileName. by rewrite H. Qed.

(** ** The controller returns

    With a progress slot for every chunk, as AddDownload allocates them,
    no worker panics and startDownload returns. *)

Lemma index_ok_ident d d' i : same_ident d d' -> index_ok d' i = index_ok d i.
Proof. intros (_&_&_&_&_&_&Hlen). unfold index_ok. by rewrite Hlen. Qed.

Lemma downloadLoop_returns name i size body c n :
  index_ok (dl c) i = true ->
  exists r, downloadLoop name i size body c n = Done r.
Proof.
  revert c n. induction body as [|r body IH]; intros c n Hok; simpl; [eauto|].
  destruct (chunkIter name i size r c n) as [[c1 n1] ctl] eqn:Hit.
  apply chunkIter_ident in Hit as Hid.
  destruct ctl as [| |e|msg]; eauto.
  - apply IH. by rewrite (index_ok_ident _ _ _ Hid).
  - exfalso. unfold chunkIter in Hit.
    destruct (rerr r); (destruct (Z.of_nat (length (data r)) =? 0); [done|]) || done.
    all: simpl in Hit; rewrite Hok in Hit; simpl in Hit.
    all: match type of Hit with context [if ?b then _ else _] => destruct b end.
    all: done.
Qed.

Lemma downloadChunk_returns o c i cs :
  index_ok (dl c) i = true ->
  exists r, downloadChunk o c i cs = Done r.
Proof.
  intros Hok. unfold downloadChunk.
  destruct (chunkOpen o c i cs) as [c1 [[[name size] body]|err]] eqn:Hopen;
    [|eauto].
  apply chunkOpen_ident in Hopen.
  destruct (downloadLoop_returns name i size body c1 0) as [[[c2 n2] e] Hr].
  { by rewrite (index_ok_ident _ _ _ Hopen). }
  rewrite Hr. destruct e; eauto.
Qed.

Lemma runWorkers_returns o cs idxs c errs :
  (forall i, i ∈ idxs -> index_ok (dl c) i = true) ->
  exists r, runWorkers o cs idxs c errs = Done r.
Proof.
  revert c errs. induction idxs as [|i idxs IH]; intros c errs Hok; simpl; [eauto|].
  destruct (downloadChunk_returns o c i cs) as [[c1 e] Hr].
  { apply Hok. by left. }
  rewrite Hr. apply downloadChunk_ident in Hr.
  destruct e; apply IH; intros j Hj;
    rewrite (index_ok_ident _ _ _ Hr); apply Hok; by right.
Qed.

Lemma startDownload_returns o c :
  0 < Chunks (dl c) ->
  length (ChunkProgress (dl c)) = Z.to_nat (Chunks (dl c)) ->
  exists c', startDownload o c = Done c'.
Proof.
  intros Hn Hlen. unfold startDownload, probe.
  destruct (do_head o) as [msg|msg|code cl ar body]; [eauto|eauto|].
  destruct (_ || _); [eauto|].
  unfold downloadChunked, fetchChunks.
  cbn [dl upd_dl broadcastUpdate Chunks set_TotalSize set_Status TotalSize].
  destruct (Z.eqb_spec (Chunks (dl c)) 0); [lia|].
  destruct (Z.ltb_spec (Chunks (dl c)) 0); [lia|].
  match goal with
  | |- context [runWorkers ?o ?cs ?idxs ?c0 ?errs] =>
      destruct (runWorkers_returns o cs idxs c0 errs) as [[c1 errs1] Hr]
  end.
  - intros i Hi. apply elem_of_chunkIndices in Hi. simpl in Hi.
    unfold index_ok. simpl. rewrite Hlen.
    apply andb_true_intro. split; [apply Z.leb_le|apply Z.ltb_lt]; lia.
  - rewrite Hr. cbn [outcome_map]. eauto.
Qed.

(** ** downloadSingleFile *)

Lemma singleLoop_output name body c n c' n' out :
  singleLoop name body c n = (c', n', None) ->
  files c !! name = Some out ->
  n = wrap64 (Z.of_nat (length out)) ->
  dl c' = dl c /\
  (forall p, p ≠ name -> files c' !! p = files c !! p) /\
  exists out', files c' !! name = Some out' /\
    n' = wrap64 (Z.of_nat (length out')).
Proof.
  revert c n out. induction body as [|r body IH]; intros c n out H Hout Hn; simpl in H.
  - inversion H; subst. eauto.
  - unfold singleIter in H.
    assert (Hstep : forall c1 n1,
      c1 = upd_files (appendFile name (data r)) c ->
      n1 = add64 n (Z.of_nat (length (data r))) ->
      files c1 !! name = Some (out ++ data r) /\
      n1 = wrap64 (Z.of_nat (length (out ++ data r))) /\
      dl c1 = dl c /\ forall p, p ≠ name -> files c1 !! p = files c !! p).
    { intros c1 n1 -> ->. simpl. rewrite appendFile_same, Hout. simpl.
      split; [done|]. split.
      - subst n. rewrite add64_wrap, length_app. f_equal. lia.
      - split; [done|]. intros p Hp. by rewrite appendFile_other. }
    destruct (rerr r) eqn:Hr; [| |done].
    + destruct (Z.of_nat (length (data r)) =? 0); [inversion H; subst; eauto|].
      simpl in H. destruct (Hstep _ _ eq_refl eq_refl) as (H1 & H2 & H3 & H4).
      destruct (IH _ _ _ H H1 H2) as (Hd & Hframe & Hres).
      split; [congruence|]. split; [|done].
      intros p Hp. rewrite Hframe by done. by apply H4.
    + destruct (Z.of_nat (length (data r)) =? 0); [inversion H; subst; eauto|].
      simpl in H. destruct (Hstep _ _ eq_refl eq_refl) as (H1 & H2 & H3 & H4).
      inversion H; subst. eauto.
Qed.

Lemma singleLoop_reads_ok name body c n :
  reads_ok body -> exists c' n', singleLoop name body c n = (c', n', None).
Proof.
  revert c n. induction body as [|r body IH]; intros c n Hok; simpl; [eauto|].
  apply Forall_cons in Hok as [Hr Hok]. unfold singleIter.
  destruct (rerr r) eqn:E; [| |by destruct (Hr msg)].
  - destruct (_ =? 0); simpl; eauto.
  - destruct (_ =? 0); simpl; eauto.
Qed.

(** A completed single-file download: the output holds what was received
    and [Downloaded] counts it; no other path is written. *)
Lemma downloadSingleFile_completed o c c' :
  downloadSingleFile o c = c' ->
  Status (dl c') = StatusCompleted ->
  Status (dl c) ≠ StatusCompleted ->
  (forall p, p ≠ OutputPath (dl c) -> files c' !! p = files c !! p) /\
  OutputPath (dl c') = OutputPath (dl c) /\
  TotalSize (dl c') = TotalSize (dl c) /\
  exists out, files c' !! OutputPath (dl c) = Some out /\
    Downloaded (dl c') = wrap64 (Z.of_nat (length out)).
Proof.
  unfold downloadSingleFile, singleOpen. intros H Hdone Hnot.
  destruct (do_get o None) as [msg|msg|code cl ar body].
  - subst c'. simpl in Hdone. done.
  - subst c'. simpl in Hdone. done.
  - destruct (createErr (env c) (OutputPath (dl c))) as [err|].
    { subst c'. simpl in Hdone. done. }
    simpl in H.
    destruct (singleLoop _ _ _ _) as [[c1 n1] [e|]] eqn:Hloop.
    + subst c'. simpl in Hdone. done.
    + apply singleLoop_output with (out := []) in Hloop as (Hd & Hframe & out & Hout & Hn).
      * subst c'. simpl in *. rewrite Hd. simpl. repeat split; try done.
        -- intros p Hp. rewrite Hframe by done. unfold createFile.
           by rewrite lookup_insert_ne.
        -- eauto.
      * simpl. unfold createFile. by rewrite lookup_insert_eq.
      * done.
Qed.

(** ** Completion *)

Lemma newDownload_in_downloads_dir url filename chunks ct rt clk :
  in_downloads_dir (newDownload url filename chunks ct rt clk).
Proof.
  unfold in_downloads_dir, newDownload. simpl.
  destruct (decide (filename = "")); eexists; reflexivity.
Qed.

Lemma names_distinct d i : in_downloads_dir d -> chunkFileName d i ≠ OutputPath d.
Proof.
  intros [leaf Hleaf]. rewrite Hleaf. unfold chunkFileName.
  intros H. apply (f_equal (fun s => String.get 0 s)) in H.
  cbn in H. discriminate H.
Qed.

Lemma downloadChunked_completed o c c' :
  in_downloads_dir (dl c) ->
  Status (dl c) = StatusDownloading ->
  downloadChunked o c = Done c' ->
  Status (dl c') = StatusCompleted ->
  OutputPath (dl c') = OutputPath (dl c) /\ ID (dl c') = ID (dl c) /\
  Chunks (dl c') = Chunks (dl c) /\ TotalSize (dl c') = TotalSize (dl c) /\
  (forall i, 0 <= i < Chunks (dl c) -> files c' !! chunkFileName (dl c) i = None) /\
  exists out, files c' !! OutputPath (dl c) = Some out /\
    TotalSize (dl c) = wrap64 (Z.of_nat (length out)).
Proof.
  intros Hdir Hst H Hdone. unfold downloadChunked, fetchChunks in H.
  destruct (Chunks (dl c) =? 0); [done|].
  destruct (Chunks (dl c) <? 0); [done|].
  destruct (runWorkers _ _ _ _ _) as [[c1 errs]|msg|msg] eqn:Hrun;
    [|done|done].
  apply runWorkers_ident in Hrun as Hid.
  cbn [outcome_map fst snd] in H. unfold finishChunked in H.
  destruct (inArrivalOrder _ errs) as [|e errs'];
    [|inversion H; subst; simpl in Hdone; done].
  inversion H; subst c'; clear H. unfold mergePhase in *.
  pose proof Hid as (HID & Hout & Hn & HT & HS & _ & _).
  destruct (decide (Status (dl c1) = StatusDownloading)) as [Hs|Hs]; [|].
  - destruct (mergeChunks c1) as [c2 [e|]] eqn:Hm; [simpl in Hdone; done|].
    apply mergeChunks_ok in Hm as (Hd & Hgone & out & Hfile & Hsize).
    + simpl. rewrite Hd. simpl. repeat split; try done.
      * intros i Hi. rewrite <- (chunkFileName_ident (dl c) (dl c1)) by done.
        apply Hgone. lia.
      * exists out. split; [congruence|congruence].
    + intros i. apply names_distinct. destruct Hdir as [leaf Hl]. exists leaf. congruence.
  - congruence.
Qed.

(** C2 (amended). When a download becomes completed on the chunked path,
    the final file exists at output_path with size total_size and every
    temporary chunk file of the download is gone; on the single-file path
    the final file exists at output_path, its size is the downloaded byte
    count of the snapshot, and no other file has been touched. *)
Theorem completed_output (o : Origin) (c c' : Cfg) :
  in_downloads_dir (dl c) ->
  startDownload o c = Done c' ->
  Status (dl c') = StatusCompleted ->
  (forall bs, files c' !! OutputPath (dl c') = Some bs ->
     Z.of_nat (length bs) < 2 ^ 63) ->
  exists bs, files c' !! OutputPath (dl c') = Some bs /\
    if single_path o (dl c) then
      Z.of_nat (length bs) = Downloaded (dl c') /\
      forall p, p ≠ OutputPath (dl c') -> files c' !! p = files c !! p
    else
      Z.of_nat (length bs) = TotalSize (dl c') /\
      forall i, 0 <= i < Chunks (dl c') ->
        files c' !! chunkFileName (dl c') i = None.
Proof.
  intros Hdir H Hdone Hsmall. unfold startDownload, probe, single_path in *.
  destruct (do_head o) as [msg|msg|code cl ar body].
  - inversion H; subst. simpl in Hdone. done.
  - inversion H; subst. simpl in Hdone. done.
  - cbn [dl upd_dl broadcastUpdate Chunks set_TotalSize set_Status] in H.
    destruct (negb (bool_decide (ar = "bytes")) || (Chunks (dl c) =? 1)).
    + injection H as H'.
      apply downloadSingleFile_completed in H' as (Hframe & Hout & HT & out & Hfile & Hn);
        [|done|simpl; done].
      simpl in *. rewrite Hout. exists out. split; [done|].
      assert (Z.of_nat (length out) < 2 ^ 63) by (apply Hsmall; by rewrite Hout).
      split.
      * rewrite Hn. symmetry. apply wrap64_id. unfold in_int64. lia.
      * done.
    + apply downloadChunked_completed in H as (Hout & HID & Hn & HT & Hgone & out & Hfile & Hsize);
        [|done|done|done].
      simpl in *. rewrite Hout. exists out. split; [done|].
      assert (Z.of_nat (length out) < 2 ^ 63) by (apply Hsmall; by rewrite Hout).
      split.
      * rewrite HT, Hsize. symmetry. apply wrap64_id. unfold in_int64. lia.
      * intros i Hi. rewrite Hn in Hi.
        replace (chunkFileName (dl c') i) with
          (chunkFileName (set_TotalSize cl (set_Status StatusDownloading (dl c))) i)
          by (unfold chunkFileName; by rewrite HID).
        by apply Hgone.
Qed.

Lemma completed_output_witness :
  exists c',
    startDownload (rangeOrigin (bytes_of 7) "bytes") (fresh_cfg 2) = Done c' /\
    Status (dl c') = StatusCompleted /\
    exists bs, files c' !! OutputPath (dl c') = Some bs /\
      Z.of_nat (length bs) = TotalSize (dl c') /\
      forall i, 0 <= i < Chunks (dl c') ->
        files c' !! chunkFileName (dl c') i = None.
Proof.
  eexists.
  match goal with
  | |- ?R = Done ?c /\ _ =>
      assert (Hrun : R = Done c) by (vm_compute; reflexivity)
  end.
  split; [exact Hrun|].
  match type of Hrun with
  | _ = Done ?c =>
      assert (Hdone : Status (dl c) = StatusCompleted) by reflexivity;
      assert (Hsmall : forall bs, files c !! OutputPath (dl c) = Some bs ->
                         Z.of_nat (length bs) < 2 ^ 63)
        by (intros bs Hbs; vm_compute in Hbs; injection Hbs as <-; reflexivity)
  end.
  split; [exact Hdone|].
  assert (Hdir : in_downloads_dir (dl (fresh_cfg 2))) by (by exists "f.bin").
  exact (completed_output _ _ _ Hdir Hrun Hdone Hsmall).
Defined.

(** C2 as stated fails on the single-file path: with an origin that sends
    no Content-Length the download completes with a file whose size is not
    total_size. *)
Lemma completed_size_counterexample :
  exists c',
    startDownload unsizedOrigin (fresh_cfg 4) = Done c' /\
    Status (dl c') = StatusCompleted /\
    exists bs, files c' !! OutputPath (dl c') = Some bs /\
      Z.of_nat (length bs) ≠ TotalSize (dl c').
Proof.
  eexists. split; [vm_compute; reflexivity|].
  split; [reflexivity|]. eexists. split; [vm_compute; reflexivity|].
  vm_compute. discriminate.
Qed.

(** ** Clean-up on failure *)

(** C5 (failing input). An origin serves chunk 0 of a two-chunk download
    and answers 500 for chunk 1: the download enters error and the
    temporary file of chunk 0 is still on disk. *)
Theorem failed_chunk_leaves_temp_file :
  exists c',
    startDownload flakyOrigin (fresh_cfg 2) = Done c' /\
    Status (dl c') = StatusError /\
    files c' !! chunkFileName (dl c') 0 = Some (bytes_of 3).
Proof.
  eexists. split; [vm_compute; reflexivity|].
  split; [reflexivity|]. vm_compute. reflexivity.
Qed.

(** ** Merge failure *)

(** C6 (failing input).  Two downloads are created at the same clock
    reading, so they have the same id and the same chunk file names.  Both
    are probed; the workers of the first (a file of seven bytes) finish;
    the workers of the second (five bytes) then write the same two chunk
    files; then the first controller merges.  The merged total is 5, not 7.
    The merge is not repeated: after this one pass the first download is in
    error with the mismatch message, both chunk files have been removed,
    the five merged bytes are left in its output file, and a second merge
    would fail to open chunk 0. *)
Theorem merge_mismatch_not_retried :
  exists w1 a1 w2 a2 w3 w4 w5 w6 w7 d c,
    createDownload (Some requestA) clock0 world0 = (w1, Replied 200 (Some a1)) /\
    createDownload (Some requestB) clock0 w1 = (w2, Replied 200 (Some a2)) /\
    a1 ≠ a2 /\
    controllerProbe (rangeOrigin (bytes_of 7) "bytes") a1 w2 = Done (w3, true) /\
    controllerProbe (rangeOrigin (bytes_of 5) "bytes") a2 w3 = Done (w4, true) /\
    controllerFetch (rangeOrigin (bytes_of 7) "bytes") a1 w4 = Done (w5, []) /\
    wfiles w5 !! "chunk_2_0.tmp" = Some (bytes_of 3) /\
    wfiles w5 !! "chunk_2_1.tmp" = Some (bytes_of 4) /\
    controllerFetch (rangeOrigin (bytes_of 5) "bytes") a2 w5 = Done (w6, []) /\
    wfiles w6 !! "chunk_2_0.tmp" = Some (bytes_of 2) /\
    wfiles w6 !! "chunk_2_1.tmp" = Some (bytes_of 3) /\
    controllerFinish a1 [] w6 = Done w7 /\
    heap w7 !! a1 = Some d /\
    TotalSize d = 7 /\
    Status d = StatusError /\
    Error d = "merged file size mismatch: expected 7 bytes, got 5 bytes" /\
    last (UpdateType <$> wpublished w7) = Some "error" /\
    wfiles w7 !! "chunk_2_0.tmp" = None /\
    wfiles w7 !! "chunk_2_1.tmp" = None /\
    wfiles w7 !! "downloads/a.bin" = Some (bytes_of 5) /\
    view a1 w7 = Some c /\
    (mergeChunks c).2 =
      Some "failed to open chunk file 0: open chunk_2_0.tmp: no such file or directory".
Proof.
  do 11 eexists.
  split; [vm_compute; reflexivity|].
  split; [vm_compute; reflexivity|].
  split; [discriminate|].
  split; [vm_compute; reflexivity|].
  split; [vm_compute; reflexivity|].
  split; [vm_compute; reflexivity|].
  split; [vm_compute; reflexivity|].
  split; [vm_compute; reflexivity|].
  split; [vm_compute; reflexivity|].
  split; [vm_compute; reflexivity|].
  split; [vm_compute; reflexivity|].
  split; [vm_compute; reflexivity|].
  split; [vm_compute; reflexivity|].
  repeat (split; [vm_compute; reflexivity|]).
  vm_compute; reflexivity.
Qed.

(** ** The probe *)


(** ** Read timing *)

(** C4 (failing input).  A chunk fetch of a download whose read_timeout is
    "1s" gets a body whose only read stays silent for an hour and then
    delivers the three bytes of the range: the fetch returns nil, with the
    three bytes in its temporary file. *)
Theorem stalled_read_succeeds :
  ReadTimeout (dl downloading_cfg) = "1s" /\
  do_get (slowOrigin 3600000000000) (Some (chunkRange (dl downloading_cfg) 0 3)) =
    Resp 206 3 "bytes" [mkRead 3600000000000 (bytes_of 3) ErrEOF] /\
  exists c',
    downloadChunk (slowOrigin 3600000000000) downloading_cfg 0 3
      = Done (c', None) /\
    files c' !! "chunk_2_0.tmp" = Some (bytes_of 3).
Proof.
  split; [reflexivity|]. split; [reflexivity|].
  eexists. split; vm_compute; reflexivity.
Qed.

(** ** The registry *)

Lemma AddDownload_ok url filename chunks connectTimeout readTimeout clk w :
  makeslice_ok (wenv w) chunks = true ->
  AddDownload url filename chunks connectTimeout readTimeout clk w =
    let download :=
      newDownload url filename chunks connectTimeout readTimeout clk in
    let a := fresh (dom (heap w)) in
    Done (mkWorld (<[ID download := a]> (downloads w))
            (<[a := download]> (heap w)) (wfiles w) (wpublished w)
            (spawned w ++ [a]) (wenv w),
          a, None).
Proof.
  intros Hok. unfold AddDownload. rewrite Hok.
  by apply andb_true_iff in Hok as [-> _].
Qed.

(** AddDownload looks at neither the url nor the chunk count: whenever the
    progress slice can be allocated, a Download in status pending is
    created, registered under its id, handed to a new controller and
    returned without error. *)
Lemma AddDownload_accepts (url filename : string) (chunks : Z)
    (connectTimeout readTimeout : string) (clk : AddClock) (w : World) :
  makeslice_ok (wenv w) chunks = true ->
  exists w' a d,
    AddDownload url filename chunks connectTimeout readTimeout clk w
      = Done (w', a, None) /\
    heap w !! a = None /\
    heap w' !! a = Some d /\
    downloads w' !! ID d = Some a /\
    Status d = StatusPending /\ URL d = url /\ Chunks d = chunks /\
    length (ChunkProgress d) = Z.to_nat chunks /\
    spawned w' = spawned w ++ [a].
Proof.
  intros Hok. rewrite AddDownload_ok by done. simpl.
  eexists _, _, _. split; [reflexivity|]. simpl.
  split.
  { apply not_elem_of_dom. apply is_fresh. }
  split; [by rewrite lookup_insert_eq|].
  split; [by rewrite lookup_insert_eq|].
  repeat split. apply length_replicate.
Qed.

(** The handler adds no check of its own: every decoded request whose
    progress slice can be allocated is answered 200 with the new
    download. *)
Lemma createDownload_accepts (req : CreateDownloadRequest) (clk : AddClock)
    (w : World) :
  makeslice_ok (wenv w) (rqChunks req) = true ->
  exists w' a d,
    createDownload (Some req) clk w = (w', Replied 200 (Some a)) /\
    heap w' !! a = Some d /\ Status d = StatusPending /\
    URL d = rqURL req /\ Chunks d = rqChunks req.
Proof.
  intros Hok. unfold createDownload. rewrite AddDownload_ok by done. simpl.
  eexists _, _, _. split; [reflexivity|]. simpl.
  split; [by rewrite lookup_insert_eq|]. done.
Qed.

(** C8 (failing input).  A create request with an empty url, and one for
    17 chunks, are each answered 200: the download is created in status
    pending with that url and that chunk count, registered under its id and
    handed to a controller. *)
Theorem unchecked_request_is_accepted :
  (exists w' a d,
     createDownload (Some (mkRequest "" "f.bin" 4 "30s" "10m")) clock0 world0
       = (w', Replied 200 (Some a)) /\
     heap w' !! a = Some d /\ downloads w' !! ID d = Some a /\
     Status d = StatusPending /\ URL d = "" /\ Chunks d = 4 /\
     spawned w' = [a]) /\
  (exists w' a d,
     createDownload (Some (mkRequest "http://origin/f.bin" "f.bin" 17 "30s" "10m"))
       clock0 world0 = (w', Replied 200 (Some a)) /\
     heap w' !! a = Some d /\ downloads w' !! ID d = Some a /\
     Status d = StatusPending /\ URL d = "http://origin/f.bin" /\
     Chunks d = 17 /\ length (ChunkProgress d) = 17%nat /\
     spawned w' = [a]).
Proof.
  split; eexists _, _, _; (split; [vm_compute; reflexivity|]);
    (split; [vm_compute; reflexivity|]);
    (split; [vm_compute; reflexivity|]); done.
Qed.

(** C10. Deleting a download that is not downloading removes only its
    registry entry and succeeds: the file system, and with it every
    chunk_<id>_<index>.tmp file and the output file, is unchanged, and a
    later get for the id reports not found. *)
Theorem delete_inactive_keeps_files (w : World) (id : string) (a : nat)
    (d : Download) :
  downloads w !! id = Some a ->
  heap w !! a = Some d ->
  Status d ≠ StatusDownloading ->
  exists w',
    DeleteDownload id w = Done (w', None) /\
    downloads w' = delete id (downloads w) /\
    heap w' = heap w /\
    wfiles w' = wfiles w /\
    wpublished w' = wpublished w /\
    GetDownload id w' = (None, Some "download not found").
Proof.
  intros Hid Ha Hst. unfold DeleteDownload. rewrite Hid, Ha.
  destruct (decide (Status d = StatusDownloading)) as [|_]; [done|].
  eexists. split; [reflexivity|]. simpl. repeat split.
  unfold GetDownload. simpl. by rewrite lookup_delete_eq.
Qed.

(** The other branch, for comparison: deleting an active download marks it
    as cancelled and removes every chunk file it has on disk. *)
Lemma removeChunkFiles_absent d idxs (fs : FS) p :
  fs !! p = None ->
  foldl (fun fs i => removeFile (chunkFileName d i) fs) fs idxs !! p = None.
Proof.
  revert fs. induction idxs as [|i idxs IH]; intros fs H; simpl; [done|].
  apply IH. unfold removeFile.
  destruct (decide (chunkFileName d i = p)) as [->|Hne].
  - by rewrite lookup_delete_eq.
  - by rewrite lookup_delete_ne.
Qed.

Lemma removeChunkFiles_gone d idxs (fs : FS) i :
  i ∈ idxs ->
  foldl (fun fs i => removeFile (chunkFileName d i) fs) fs idxs
    !! chunkFileName d i = None.
Proof.
  revert fs. induction idxs as [|j idxs IH]; intros fs Hi; simpl.
  - by apply elem_of_nil in Hi.
  - apply elem_of_cons in Hi as [->|Hi]; [|by apply IH].
    apply removeChunkFiles_absent. unfold removeFile. by rewrite lookup_delete_eq.
Qed.

Lemma delete_active_removes_chunks (w : World) (id : string) (a : nat)
    (d : Download) :
  downloads w !! id = Some a ->
  heap w !! a = Some d ->
  Status d = StatusDownloading ->
  exists w',
    DeleteDownload id w = Done (w', None) /\
    Status <$> heap w' !! a = Some StatusError /\
    (forall i, 0 <= i < Chunks d -> wfiles w' !! chunkFileName d i = None) /\
    GetDownload id w' = (None, Some "download not found").
Proof.
  intros Hid Ha Hst. unfold DeleteDownload. rewrite Hid, Ha.
  destruct (decide (Status d = StatusDownloading)) as [_|]; [|done].
  eexists. split; [reflexivity|]. simpl. split.
  { by rewrite lookup_insert_eq. }
  split.
  - intros i Hi. unfold removeChunkFiles.
    change (chunkFileName d i)
      with (chunkFileName (set_Error "Download cancelled"
                             (set_Status StatusError d)) i).
    apply removeChunkFiles_gone. apply elem_of_chunkIndices. simpl. lia.
  - unfold GetDownload. simpl. by rewrite lookup_delete_eq.
Qed.

Lemma delete_inactive_keeps_files_witness :
  exists w',
    DeleteDownload "2" paused_world = Done (w', None) /\
    wfiles w' !! "chunk_2_0.tmp" = Some (bytes_of 1) /\
    GetDownload "2" w' = (None, Some "download not found").
Proof.
  assert (Hst : Status (set_Status StatusPaused (probed 7 2)) ≠ StatusDownloading)
    by discriminate.
  destruct (delete_inactive_keeps_files paused_world "2" 0%nat
              (set_Status StatusPaused (probed 7 2)) eq_refl eq_refl Hst)
    as (w' & Hdel & _ & _ & Hfiles & _ & Hget).
  exists w'. split; [exact Hdel|]. split; [|exact Hget].
  rewrite Hfiles. reflexivity.
Defined.

(** ** Pause *)

(** A worker never reads the status: whatever status is written into the
    download, its next scheduling does the same thing.  Only the value on
    [pauseChan] can park it, and a value is taken by one receiver. *)

Lemma chunkIter_status name i size r c n st :
  chunkIter name i size r (upd_dl (set_Status st) c) n =
    (upd_dl (set_Status st) (chunkIter name i size r c n).1.1,
     (chunkIter name i size r c n).1.2,
     (chunkIter name i size r c n).2).
Proof.
  unfold chunkIter.
  destruct (rerr r); simpl; try reflexivity.
  all: destruct (Z.of_nat (length (data r)) =? 0); simpl; try reflexivity.
  all: change (index_ok (set_Status st (dl c)) i) with (index_ok (dl c) i).
  all: destruct (negb (index_ok (dl c) i)); simpl; try reflexivity.
  all: match goal with
       | |- context [if ?b then _ else _] => destruct b
       end; reflexivity.
Qed.

Lemma workerStep_ignores_status o wk c st :
  workerStep o wk (upd_dl (set_Status st) c) =
    match workerStep o wk c with
    | Some (wk', c') => Some (wk', upd_dl (set_Status st) c')
    | None => None
    end.
Proof.
  unfold workerStep. destruct (w_pc wk); [| | |reflexivity|reflexivity].
  - unfold chunkOpen. cbn [dl upd_dl].
    change (chunkRange (set_Status st (dl c)) (w_index wk) (w_chunkSize wk))
      with (chunkRange (dl c) (w_index wk) (w_chunkSize wk)).
    destruct (do_get o _) as [msg|msg|code cl ar body]; [reflexivity|reflexivity|].
    destruct (negb (code =? 206)); reflexivity.
  - cbn [dl upd_dl].
    change (pauseChan (set_Status st (dl c))) with (pauseChan (dl c)).
    destruct (pauseChan (dl c)); [reflexivity|].
    destruct (w_body wk) as [|r body].
    + unfold chunkFinish. destruct (negb _); reflexivity.
    + change (mkCfg (set_Status st (dl c)) (files c) (published c))
        with (upd_dl (set_Status st) c).
      rewrite chunkIter_status.
      destruct (chunkIter _ _ _ r c _) as [[c1 n1] [| |e|msg]]; simpl;
        try reflexivity.
      unfold chunkFinish. destruct (negb _); reflexivity.
  - cbn [dl upd_dl].
    change (pauseChan (set_Status st (dl c))) with (pauseChan (dl c)).
    destruct (pauseChan (dl c)); reflexivity.
Qed.

(** C3 (failing input). A two-chunk download is paused while both workers
    are in their read loops.  The single send of PauseDownload is taken by
    worker 0, which parks; the call returns; worker 1 is still at its
    select, and its next iteration reads and writes two more bytes to its
    backing file although the download is paused and no resume was
    requested. *)
Theorem pause_parks_one_worker_only :
  exists s1 s2,
    run trickleOrigin
      [ActWorker 0; ActWorker 1; ActPause "2"; ActWorker 0; ActReturn]
      running_system = Some s1 /\
    returned s1 = [None] /\ caller s1 = NoCall /\
    targetStatus s1 = Some StatusPaused /\
    w_pc <$> workers s1 !! 0%nat = Some AwaitResume /\
    w_pc <$> workers s1 !! 1%nat = Some AtSelect /\
    chunkBytes s1 = [Some []; Some []] /\
    step trickleOrigin (ActWorker 1) s1 = Some s2 /\
    targetStatus s2 = Some StatusPaused /\
    chunkBytes s2 = [Some []; Some (bytes_of 2)].
Proof.
  eexists _, _. split; [vm_compute; reflexivity|].
  do 6 (split; [vm_compute; reflexivity|]).
  split; [vm_compute; reflexivity|].
  split; vm_compute; reflexivity.
Qed.

(** ** Progress ticks *)

(** C7 (failing input). In a seven-byte, two-chunk download the second
    worker has fetched its four bytes and the first none.  The next tick
    writes 3 into [Downloaded] (50 percent of seven, truncated) while the
    per-chunk byte counters sum to 4. *)
Theorem tick_downloaded_not_counter_sum :
  exists s,
    run (rangeOrigin (bytes_of 7) "bytes")
      [ActWorker 0; ActWorker 1; ActWorker 1; ActTick 1000000000]
      running_system = Some s /\
    w_downloaded <$> workers s = [0; 4] /\
    counterSum s = 4 /\
    Downloaded <$> heap (world s) !! target s = Some 3.
Proof.
  eexists. split; [vm_compute; reflexivity|].
  split; [vm_compute; reflexivity|].
  split; vm_compute; reflexivity.
Qed.

(** ** The scheduled worker and downloadChunk

    A worker that is scheduled until it exits while nobody sends on
    [pauseChan] does what the sequential reading of downloadChunk does. *)

Lemma runWorker_exited o fuel wk c e :
  w_pc wk = Exited e -> runWorker o fuel wk c = (wk, c).
Proof.
  intros H. destruct fuel; [done|]. simpl. unfold workerStep. by rewrite H.
Qed.

Lemma runWorker_panicked o fuel wk c msg :
  w_pc wk = Panicked msg -> runWorker o fuel wk c = (wk, c).
Proof.
  intros H. destruct fuel; [done|]. simpl. unfold workerStep. by rewrite H.
Qed.

Lemma runWorker_S o fuel wk c :
  runWorker o (S fuel) wk c =
    match workerStep o wk c with
    | Some (wk, c) => runWorker o fuel wk c
    | None => (wk, c)
    end.
Proof. reflexivity. Qed.

Lemma runWorker_loop o i cs name size body c n :
  pauseChan (dl c) = None ->
  exists wk' c',
    runWorker o (S (length body)) (mkWorker i cs name size body n AtSelect) c =
      (wk', c') /\
    loop_exit i size (downloadLoop name i size body c n) wk' c'.
Proof.
  revert c n. induction body as [|r body IH]; intros c n Hchan.
  - rewrite runWorker_S. unfold workerStep.
    cbn [w_pc w_body w_name w_index w_size w_downloaded w_chunkSize length].
    rewrite Hchan. cbn [downloadLoop loop_exit].
    destruct (chunkFinish i size c n) as [c1 e]. simpl. eauto.
  - cbn [length]. rewrite runWorker_S. unfold workerStep.
    cbn [w_pc w_body w_name w_index w_size w_downloaded w_chunkSize downloadLoop].
    rewrite Hchan.
    destruct (chunkIter name i size r c n) as [[c1 n1] ctl] eqn:Hit.
    apply chunkIter_ident in Hit as Hid.
    destruct ctl as [| |e|msg].
    + apply IH. destruct Hid as (_&_&_&_&_&Hp&_). congruence.
    + cbn [loop_exit]. destruct (chunkFinish i size c1 n1) as [c2 e].
      eexists _, _. split; [by eapply runWorker_exited|done].
    + eexists _, _. split; [by eapply runWorker_exited|done].
    + eexists _, _. split; [by eapply runWorker_panicked|done].
Qed.

Lemma runWorker_downloadChunk o c i cs :
  pauseChan (dl c) = None ->
  exists fuel wk' c',
    runWorker o fuel (mkWorker i cs "" 0 [] 0 Starting) c = (wk', c') /\
    chunk_exit (downloadChunk o c i cs) wk' c'.
Proof.
  intros Hchan. unfold downloadChunk.
  destruct (chunkOpen o c i cs) as [c1 [[[name size] body]|err]] eqn:Hopen.
  - apply chunkOpen_ident in Hopen as Hid.
    destruct (runWorker_loop o i cs name size body c1 0) as (wk' & c' & Hrun & Hex).
    { destruct Hid as (_&_&_&_&_&Hp&_). congruence. }
    exists (S (S (length body))), wk', c'.
    rewrite runWorker_S. unfold workerStep at 1. cbn [w_pc w_index w_chunkSize].
    rewrite Hopen. split; [exact Hrun|].
    destruct (downloadLoop name i size body c1 0) as [[[c2 n2] [e|]]|msg|msg];
      cbn [loop_exit chunk_exit] in *; [done| |done|done].
    by destruct (chunkFinish i size c2 n2).
  - exists 1%nat. eexists _, _. simpl. unfold workerStep. simpl. rewrite Hopen.
    split; [reflexivity|]. simpl. done.
Qed.

(** * Further properties *)

(** ** Names of the temporary files *)

Lemma list_ascii_of_string_app s1 s2 :
  Stdlib.Strings.String.list_ascii_of_string (s1 +:+ s2) =
    Stdlib.Strings.String.list_ascii_of_string s1 ++ Stdlib.Strings.String.list_ascii_of_string s2.
Proof.
  induction s1 as [|a s1 IH]; [reflexivity|].
  change (String a s1 +:+ s2) with (String a (s1 +:+ s2)).
  simpl. by rewrite IH.
Qed.

Lemma string_app_inv_tail s1 s2 t : s1 +:+ t = s2 +:+ t -> s1 = s2.
Proof.
  intros H. apply (f_equal Stdlib.Strings.String.list_ascii_of_string) in H.
  rewrite !list_ascii_of_string_app in H. apply app_inv_tail in H.
  rewrite <- (Stdlib.Strings.String.string_of_list_ascii_of_string s1),
          <- (Stdlib.Strings.String.string_of_list_ascii_of_string s2).
  by rewrite H.
Qed.

(** Distinct chunks of a download use distinct temporary files. *)
Lemma chunkFileName_inj d i j : chunkFileName d i = chunkFileName d j -> i = j.
Proof.
  unfold chunkFileName. intros H.
  do 3 apply String.app_inj in H.
  apply string_app_inv_tail in H. by apply pretty_Z_inj in H.
Qed.

(** ** The read loops and the bytes they take *)

Lemma wrap64_0 : wrap64 0 = 0.
Proof. reflexivity. Qed.

Lemma singleLoop_received name body c m out :
  files c !! name = Some out ->
  singleLoop name body c (wrap64 m) =
    (mkCfg (dl c) (<[name := out ++ received body]> (files c)) (published c)
       (env c),
     wrap64 (m + Z.of_nat (length (received body))),
     read_failure body).
Proof.
  revert c m out. induction body as [|r body IH]; intros c m out Hout.
  - simpl. rewrite app_nil_r, insert_id, Z.add_0_r by done. by destruct c.
  - cbn [singleLoop received read_failure]. unfold singleIter.
    assert (Hnil : (mkCfg (dl c) (<[name := out ++ []]> (files c)) (published c)
                      (env c),
                    wrap64 (m + Z.of_nat (length (@nil Byte.byte))),
                    @None string) = (c, wrap64 m, None)).
    { rewrite app_nil_r, insert_id by done. simpl. rewrite Z.add_0_r.
      by destruct c. }
    destruct (rerr r) as [| |msg] eqn:Hr.
    + destruct (Z.of_nat (length (data r)) =? 0) eqn:Hn; [by rewrite Hnil|].
      cbn [is_eof]. rewrite add64_wrap.
      rewrite (IH _ (m + Z.of_nat (length (data r))) (out ++ data r)).
      * cbn [dl files published env upd_files]. unfold appendFile.
        rewrite Hout. rewrite insert_insert_eq.
        rewrite <- app_assoc, length_app, Nat2Z.inj_add, Z.add_assoc. done.
      * cbn [files upd_files]. by rewrite appendFile_same, Hout.
    + destruct (Z.of_nat (length (data r)) =? 0) eqn:Hn; [by rewrite Hnil|].
      cbn [is_eof]. rewrite add64_wrap. rewrite app_nil_r.
      unfold upd_files, appendFile. by rewrite Hout.
    + rewrite app_nil_r, insert_id by done. simpl. rewrite Z.add_0_r.
      by destruct c.
Qed.

(** ** mergeChunks: what ends up in the output *)

Section MergeContent.
Variable d : Download.
Variable contents : Z -> list Byte.byte.
Hypothesis Hnames : forall i, chunkFileName d i ≠ OutputPath d.

(** Merging a run of chunks that are all on disk appends them in order,
    removes them, and touches nothing else. *)
Lemma mergeLoop_prefix pre rest (fs : FS) m out0 :
  NoDup pre ->
  fs !! OutputPath d = Some out0 ->
  (forall i, i ∈ pre -> fs !! chunkFileName d i = Some (contents i)) ->
  exists fs',
    mergeLoop d (pre ++ rest) fs (wrap64 m) =
      mergeLoop d rest fs'
        (wrap64 (m + Z.of_nat (length (concat (contents <$> pre))))) /\
    fs' !! OutputPath d = Some (out0 ++ concat (contents <$> pre)) /\
    (forall i, i ∈ pre -> fs' !! chunkFileName d i = None) /\
    (forall p, p ≠ OutputPath d -> (forall i, i ∈ pre -> p ≠ chunkFileName d i) ->
       fs' !! p = fs !! p).
Proof.
  revert fs m out0. induction pre as [|i pre IH]; intros fs m out0 Hnd Hout Hpre.
  - exists fs. simpl. rewrite Z.add_0_r, app_nil_r.
    split; [done|]. split; [done|]. split; [|done].
    intros i Hi. by apply elem_of_nil in Hi.
  - apply NoDup_cons in Hnd as [Hi Hnd].
    cbn [app mergeLoop]. rewrite (Hpre i) by (by left).
    rewrite add64_wrap.
    set (fs1 := removeFile (chunkFileName d i)
                  (appendFile (OutputPath d) (contents i) fs)).
    assert (Hout1 : fs1 !! OutputPath d = Some (out0 ++ contents i)).
    { unfold fs1, removeFile. rewrite lookup_delete_ne by apply Hnames.
      by rewrite appendFile_same, Hout. }
    assert (Hother : forall p, p ≠ OutputPath d -> p ≠ chunkFileName d i ->
              fs1 !! p = fs !! p).
    { intros p Hp1 Hp2. unfold fs1, removeFile.
      rewrite lookup_delete_ne by done. by rewrite appendFile_other. }
    destruct (IH fs1 (m + Z.of_nat (length (contents i))) (out0 ++ contents i))
      as (fs' & Hrun & Hout' & Hgone & Hframe); [done|done| |].
    { intros j Hj. rewrite Hother.
      - apply Hpre. by right.
      - apply Hnames.
      - intros Heq. apply chunkFileName_inj in Heq. by subst. }
    exists fs'. split.
    { rewrite Hrun. do 2 f_equal. rewrite fmap_cons. simpl.
      rewrite length_app. lia. }
    split.
    { rewrite Hout'. rewrite fmap_cons. simpl. by rewrite app_assoc. }
    split.
    { intros j Hj. apply elem_of_cons in Hj as [->|Hj]; [|by apply Hgone].
      rewrite Hframe.
      - unfold fs1, removeFile. by rewrite lookup_delete_eq.
      - apply Hnames.
      - intros k Hk Heq. apply chunkFileName_inj in Heq. by subst. }
    intros p Hp1 Hp2. rewrite Hframe; [|done|].
    + apply Hother; [done|]. apply Hp2. by left.
    + intros j Hj. apply Hp2. by right.
Qed.
End MergeContent.

Lemma NoDup_chunkIndices d : NoDup (chunkIndices d).
Proof.
  unfold chunkIndices. apply NoDup_fmap_2; [apply Nat2Z.inj'|apply NoDup_seq].
Qed.

(** A merge whose output cannot be created changes nothing. *)
Lemma mergeChunks_not_created (c : Cfg) (err : string) :
  createErr (env c) (OutputPath (dl c)) = Some err ->
  mergeChunks c = (c, Some ("failed to create output file: " +:+ err)).
Proof. intros H. unfold mergeChunks. by rewrite H. Qed.

(** What a merge of chunk files that are all on disk leaves behind. *)
Lemma mergeChunks_content (c : Cfg) (contents : Z -> list Byte.byte) :
  in_downloads_dir (dl c) ->
  createErr (env c) (OutputPath (dl c)) = None ->
  (forall i, 0 <= i < Chunks (dl c) ->
     files c !! chunkFileName (dl c) i = Some (contents i)) ->
  let merged := concat (contents <$> chunkIndices (dl c)) in
  let r := mergeChunks c in
  dl r.1 = dl c /\ published r.1 = published c /\
  files r.1 !! OutputPath (dl c) = Some merged /\
  (forall i, 0 <= i < Chunks (dl c) ->
     files r.1 !! chunkFileName (dl c) i = None) /\
  (forall p, p ≠ OutputPath (dl c) ->
     (forall i, 0 <= i < Chunks (dl c) -> p ≠ chunkFileName (dl c) i) ->
     files r.1 !! p = files c !! p) /\
  (r.2 = None <-> wrap64 (Z.of_nat (length merged)) = TotalSize (dl c)).
Proof.
  intros Hdir Hcreate Hfiles merged r.
  assert (Hnames : forall i, chunkFileName (dl c) i ≠ OutputPath (dl c))
    by (intros i; by apply names_distinct).
  destruct (mergeLoop_prefix (dl c) contents Hnames (chunkIndices (dl c)) []
              (createFile (OutputPath (dl c)) (files c)) 0 [])
    as (fs' & Hrun & Hout & Hgone & Hframe).
  { apply NoDup_chunkIndices. }
  { unfold createFile. by rewrite lookup_insert_eq. }
  { intros i Hi. unfold createFile. rewrite lookup_insert_ne by (by apply not_eq_sym).
    apply Hfiles. by apply elem_of_chunkIndices. }
  rewrite app_nil_r in Hrun. cbn [mergeLoop] in Hrun. simpl in Hout.
  fold merged in Hrun, Hout. rewrite Z.add_0_l in Hrun.
  subst r. unfold mergeChunks. rewrite Hcreate.
  change (wrap64 0) with 0 in Hrun. rewrite Hrun.
  destruct (Z.eqb_spec (wrap64 (Z.of_nat (length merged))) (TotalSize (dl c)))
    as [Heq|Hne]; simpl.
  all: split; [done|]; split; [done|]; split; [done|].
  all: split; [intros i Hi; apply Hgone; by apply elem_of_chunkIndices|].
  all: split;
    [intros p Hp1 Hp2; rewrite Hframe;
      [unfold createFile; by rewrite lookup_insert_ne by (by apply not_eq_sym)
      |done
      |intros i Hi; apply Hp2; by apply elem_of_chunkIndices]|].
  - done.
  - split; [done|]. intros Heq. done.
Qed.

(** X1. With every chunk file on disk: when the output file cannot be
    created, mergeChunks returns the create error and changes nothing, so
    every chunk file stays; otherwise it writes the concatenation of the
    chunk files in index order to the output, removes every chunk file and
    leaves all other files alone, and it returns nil exactly when the number
    of bytes merged is total_size. *)
Theorem mergeChunks_concat (c : Cfg) (contents : Z -> list Byte.byte) :
  in_downloads_dir (dl c) ->
  (forall i, 0 <= i < Chunks (dl c) ->
     files c !! chunkFileName (dl c) i = Some (contents i)) ->
  let merged := concat (contents <$> chunkIndices (dl c)) in
  let r := mergeChunks c in
  match createErr (env c) (OutputPath (dl c)) with
  | Some err => r = (c, Some ("failed to create output file: " +:+ err))
  | None =>
      dl r.1 = dl c /\ published r.1 = published c /\
      files r.1 !! OutputPath (dl c) = Some merged /\
      (forall i, 0 <= i < Chunks (dl c) ->
         files r.1 !! chunkFileName (dl c) i = None) /\
      (forall p, p ≠ OutputPath (dl c) ->
         (forall i, 0 <= i < Chunks (dl c) -> p ≠ chunkFileName (dl c) i) ->
         files r.1 !! p = files c !! p) /\
      (r.2 = None <-> wrap64 (Z.of_nat (length merged)) = TotalSize (dl c))
  end.
Proof.
  intros Hdir Hfiles merged r.
  destruct (createErr (env c) (OutputPath (dl c))) as [err|] eqn:Hcreate.
  - by apply mergeChunks_not_created.
  - by apply mergeChunks_content.
Qed.

Lemma mergeChunks_concat_witness :
  (files (mergeChunks fetched_cfg).1 !! "downloads/f.bin" = Some (bytes_of 7) /\
   files (mergeChunks fetched_cfg).1 !! "chunk_2_0.tmp" = None /\
   (mergeChunks fetched_cfg).2 = None) /\
  mergeChunks fetched_nodir_cfg =
    (fetched_nodir_cfg,
     Some "failed to create output file: open downloads/dir/f.bin: no such file or directory").
Proof.
  split.
  - assert (Hdir : in_downloads_dir (dl fetched_cfg)) by (by exists "f.bin").
    assert (Hfiles : forall i, 0 <= i < Chunks (dl fetched_cfg) ->
              files fetched_cfg !! chunkFileName (dl fetched_cfg) i
                = Some ((fun i => if i =? 0 then bytes_of 3 else bytes_of 4) i)).
    { intros i Hi. change (Chunks (dl fetched_cfg)) with 2 in Hi.
      assert (i = 0 \/ i = 1) as [-> | ->] by lia; vm_compute; reflexivity. }
    pose proof (mergeChunks_concat fetched_cfg _ Hdir Hfiles) as H.
    change (createErr (env fetched_cfg) (OutputPath (dl fetched_cfg)))
      with (@None string) in H.
    destruct H as (_ & _ & Hout & Hgone & _ & Hiff).
    split; [exact Hout|]. split.
    + apply (Hgone 0). change (Chunks (dl fetched_cfg)) with 2. lia.
    + apply Hiff. vm_compute. reflexivity.
  - assert (Hdir : in_downloads_dir (dl fetched_nodir_cfg))
      by (by exists "dir/f.bin").
    assert (Hfiles : forall i, 0 <= i < Chunks (dl fetched_nodir_cfg) ->
              files fetched_nodir_cfg !! chunkFileName (dl fetched_nodir_cfg) i
                = Some ((fun i => if i =? 0 then bytes_of 3 else bytes_of 4) i)).
    { intros i Hi. change (Chunks (dl fetched_nodir_cfg)) with 2 in Hi.
      assert (i = 0 \/ i = 1) as [-> | ->] by lia; vm_compute; reflexivity. }
    exact (mergeChunks_concat fetched_nodir_cfg _ Hdir Hfiles).
Defined.

Lemma chunkIndices_split d k :
  0 <= k < Chunks d ->
  exists rest, chunkIndices d = indices_below k ++ k :: rest.
Proof.
  intros Hk. unfold chunkIndices, indices_below.
  replace (Z.to_nat (Chunks d))
    with (Z.to_nat k + S (Z.to_nat (Chunks d) - Z.to_nat k - 1))%nat by lia.
  rewrite seq_app, map_app. cbn [seq map]. rewrite Nat.add_0_l, Z2Nat.id by lia.
  eauto.
Qed.

Lemma elem_of_indices_below k i : i ∈ indices_below k <-> 0 <= i < k.
Proof.
  unfold indices_below. rewrite list_elem_of_fmap. split.
  - intros (j & -> & Hj). apply elem_of_seq in Hj. lia.
  - intros Hi. exists (Z.to_nat i). split; [lia|]. apply elem_of_seq. lia.
Qed.

Lemma mergeChunks_missing (c : Cfg) (contents : Z -> list Byte.byte)
    (k : Z) :
  in_downloads_dir (dl c) ->
  createErr (env c) (OutputPath (dl c)) = None ->
  0 <= k < Chunks (dl c) ->
  (forall i, 0 <= i < k ->
     files c !! chunkFileName (dl c) i = Some (contents i)) ->
  files c !! chunkFileName (dl c) k = None ->
  let r := mergeChunks c in
  r.2 = Some (chunk_open_error (dl c) k) /\
  files r.1 !! OutputPath (dl c) = Some (concat (contents <$> indices_below k)) /\
  (forall i, 0 <= i < k -> files r.1 !! chunkFileName (dl c) i = None) /\
  (forall p, p ≠ OutputPath (dl c) ->
     (forall i, 0 <= i < k -> p ≠ chunkFileName (dl c) i) ->
     files r.1 !! p = files c !! p).
Proof.
  intros Hdir Hcreate Hk Hfiles Hmiss r.
  assert (Hnames : forall i, chunkFileName (dl c) i ≠ OutputPath (dl c))
    by (intros i; by apply names_distinct).
  destruct (chunkIndices_split (dl c) k Hk) as [rest Hsplit].
  destruct (mergeLoop_prefix (dl c) contents Hnames (indices_below k) (k :: rest)
              (createFile (OutputPath (dl c)) (files c)) 0 [])
    as (fs' & Hrun & Hout & Hgone & Hframe).
  { unfold indices_below. apply NoDup_fmap_2; [apply Nat2Z.inj'|apply NoDup_seq]. }
  { unfold createFile. by rewrite lookup_insert_eq. }
  { intros i Hi. unfold createFile. rewrite lookup_insert_ne by (by apply not_eq_sym).
    apply Hfiles. by apply elem_of_indices_below. }
  assert (Hk' : fs' !! chunkFileName (dl c) k = None).
  { rewrite Hframe.
    - unfold createFile. by rewrite lookup_insert_ne by (by apply not_eq_sym).
    - apply Hnames.
    - intros i Hi Heq. apply chunkFileName_inj in Heq. subst i.
      apply elem_of_indices_below in Hi. lia. }
  cbn [mergeLoop] in Hrun. rewrite Hk' in Hrun.
  subst r. unfold mergeChunks. rewrite Hcreate, Hsplit.
  change (wrap64 0) with 0 in Hrun. rewrite Hrun. simpl in *.
  split; [done|]. split; [done|].
  split; [intros i Hi; apply Hgone; by apply elem_of_indices_below|].
  intros p Hp1 Hp2. rewrite Hframe.
  - unfold createFile. by rewrite lookup_insert_ne by (by apply not_eq_sym).
  - done.
  - intros i Hi. apply Hp2. by apply elem_of_indices_below.
Qed.

(** X2. When chunk file [k] is the first one missing: if the output file
    cannot be created, mergeChunks returns the create error and removes
    nothing; otherwise it fails with the open error for [k], and by then the
    chunks before [k] have been appended to the output and removed, and
    nothing else has changed (the later chunk files stay on disk). *)
Theorem mergeChunks_missing_chunk (c : Cfg) (contents : Z -> list Byte.byte)
    (k : Z) :
  in_downloads_dir (dl c) ->
  0 <= k < Chunks (dl c) ->
  (forall i, 0 <= i < k ->
     files c !! chunkFileName (dl c) i = Some (contents i)) ->
  files c !! chunkFileName (dl c) k = None ->
  let r := mergeChunks c in
  match createErr (env c) (OutputPath (dl c)) with
  | Some err => r = (c, Some ("failed to create output file: " +:+ err))
  | None =>
      r.2 = Some (chunk_open_error (dl c) k) /\
      files r.1 !! OutputPath (dl c)
        = Some (concat (contents <$> indices_below k)) /\
      (forall i, 0 <= i < k -> files r.1 !! chunkFileName (dl c) i = None) /\
      (forall p, p ≠ OutputPath (dl c) ->
         (forall i, 0 <= i < k -> p ≠ chunkFileName (dl c) i) ->
         files r.1 !! p = files c !! p)
  end.
Proof.
  intros Hdir Hk Hfiles Hmiss r.
  destruct (createErr (env c) (OutputPath (dl c))) as [err|] eqn:Hcreate.
  - by apply mergeChunks_not_created.
  - by apply mergeChunks_missing.
Qed.

Lemma mergeChunks_missing_chunk_witness :
  (mergeChunks missing_chunk_cfg).2
    = Some "failed to open chunk file 1: open chunk_2_1.tmp: no such file or directory" /\
  files (mergeChunks missing_chunk_cfg).1 !! "downloads/f.bin"
    = Some (bytes_of 3) /\
  files (mergeChunks missing_chunk_cfg).1 !! "chunk_2_0.tmp" = None.
Proof.
  assert (Hdir : in_downloads_dir (dl missing_chunk_cfg)) by (by exists "f.bin").
  assert (Hk : 0 <= 1 < Chunks (dl missing_chunk_cfg))
    by (change (Chunks (dl missing_chunk_cfg)) with 2; lia).
  assert (Hfiles : forall i, 0 <= i < 1 ->
            files missing_chunk_cfg !! chunkFileName (dl missing_chunk_cfg) i
              = Some ((fun _ => bytes_of 3) i)).
  { intros i Hi. assert (i = 0) as -> by lia. reflexivity. }
  pose proof (mergeChunks_missing_chunk missing_chunk_cfg (fun _ => bytes_of 3) 1
                Hdir Hk Hfiles eq_refl) as H.
  change (createErr (env missing_chunk_cfg) (OutputPath (dl missing_chunk_cfg)))
    with (@None string) in H.
  destruct H as (Herr & Hout & Hgone & _).
  split; [exact Herr|]. split; [exact Hout|]. apply (Hgone 0). lia.
Defined.

(** ** A chunk fetch and the bytes it leaves on disk *)

Lemma progress_events_ident d d' k :
  same_ident d d' -> progress_events d' k = progress_events d k.
Proof. intros (H & _). unfold progress_events. by rewrite H. Qed.

Lemma progress_events_app d k1 k2 :
  progress_events d k1 ++ progress_events d k2 = progress_events d (k1 + k2).
Proof. unfold progress_events. by rewrite replicate_add. Qed.

Lemma downloadLoop_received name i size body c m out :
  index_ok (dl c) i = true ->
  files c !! name = Some out ->
  exists c' k,
    downloadLoop name i size body c (wrap64 m) =
      Done (c', wrap64 (m + Z.of_nat (length (received body))),
            chunk_read_error i <$> read_failure body) /\
    files c' = <[name := out ++ received body]> (files c) /\
    same_ident (dl c) (dl c') /\
    published c' = published c ++ progress_events (dl c) k.
Proof.
  revert c m out. induction body as [|r body IH]; intros c m out Hok Hout.
  - exists c, 0%nat. simpl. rewrite Z.add_0_r, app_nil_r, insert_id by done.
    repeat split; try done. by rewrite app_nil_r.
  - cbn [downloadLoop received read_failure]. unfold chunkIter.
    assert (Hstop : forall e : option string,
      exists c' k,
        Done (c, wrap64 m, e) =
          Done (c', wrap64 (m + Z.of_nat (length (@nil Byte.byte))), e) /\
        files c' = <[name := out ++ []]> (files c) /\
        same_ident (dl c) (dl c') /\
        published c' = published c ++ progress_events (dl c) k).
    { intros e. exists c, 0%nat. simpl.
      rewrite Z.add_0_r, app_nil_r, insert_id by done.
      repeat split; try done. by rewrite app_nil_r. }
    destruct (rerr r) as [| |msg] eqn:Hr; [| |apply Hstop].
    + destruct (Z.of_nat (length (data r)) =? 0) eqn:Hn; [apply Hstop|].
      change (index_ok (dl (upd_files (appendFile name (data r)) c)) i)
        with (index_ok (dl c) i).
      rewrite Hok. cbn [negb is_eof orb]. rewrite add64_wrap, orb_false_r.
      match goal with
      | |- context [if ?b then broadcastUpdate "progress" ?c1 else _] =>
          set (c2 := if b then broadcastUpdate "progress" c1 else c1);
          assert (Hc2 : files c2 = appendFile name (data r) (files c) /\
                        same_ident (dl c) (dl c2) /\
                        exists k1, published c2 =
                          published c ++ progress_events (dl c) k1)
      end.
      { subst c2. destruct (rem64 _ _ =? 0); simpl.
        - split; [done|]. split.
          + repeat split; simpl; by rewrite ?length_insert.
          + by exists 1%nat.
        - split; [done|]. split.
          + repeat split; simpl; by rewrite ?length_insert.
          + exists 0%nat. by rewrite app_nil_r. }
      destruct Hc2 as (Hf2 & Hid2 & k1 & Hp2).
      destruct (IH c2 (m + Z.of_nat (length (data r))) (out ++ data r))
        as (c' & k & Hrun & Hf & Hid & Hp).
      { by rewrite (index_ok_ident _ _ _ Hid2). }
      { rewrite Hf2. by rewrite appendFile_same, Hout. }
      exists c', (k1 + k)%nat. rewrite Hrun. split.
      { by rewrite length_app, Nat2Z.inj_add, Z.add_assoc. }
      split.
      { rewrite Hf, Hf2. unfold appendFile. rewrite Hout. simpl.
        by rewrite insert_insert_eq, <- app_assoc. }
      split; [by eapply same_ident_trans|].
      rewrite Hp, Hp2, (progress_events_ident _ _ _ Hid2), <- app_assoc.
      by rewrite progress_events_app.
    + destruct (Z.of_nat (length (data r)) =? 0) eqn:Hn; [apply Hstop|].
      change (index_ok (dl (upd_files (appendFile name (data r)) c)) i)
        with (index_ok (dl c) i).
      rewrite Hok. cbn [negb is_eof orb]. rewrite add64_wrap, orb_true_r.
      rewrite app_nil_r. eexists _, 1%nat. split; [reflexivity|]. simpl.
      split; [unfold appendFile; by rewrite Hout|].
      split; [|done]. repeat split; simpl; by rewrite ?length_insert.
Qed.

(** The result of a chunk fetch that is answered 206, with the files and
    updates it leaves. *)
Lemma downloadChunk_fetch (o : Origin) (c : Cfg) (i cs cl : Z)
    (ar : string) (body : list ReadEvent) :
  index_ok (dl c) i = true ->
  do_get o (Some (chunkRange (dl c) i cs)) = Resp 206 cl ar body ->
  let size := actualChunkSize (chunkRange (dl c) i cs) in
  let got := wrap64 (Z.of_nat (length (received body))) in
  exists c' k,
    downloadChunk o c i cs =
      Done (c', match read_failure body with
                | Some msg => Some (chunk_read_error i msg)
                | None =>
                    if got =? size then None
                    else Some (chunk_incomplete_error i size got)
                end) /\
    files c' = <[chunkFileName (dl c) i := received body]> (files c) /\
    same_ident (dl c) (dl c') /\
    published c' = published c ++ progress_events (dl c) k.
Proof.
  intros Hok Hget size got. unfold downloadChunk, chunkOpen. rewrite Hget.
  cbn [Z.eqb Pos.eqb negb].
  destruct (downloadLoop_received (chunkFileName (dl c) i) i size body
              (upd_files (createFile (chunkFileName (dl c) i)) c) 0 [])
    as (c1 & k & Hrun & Hf & Hid & Hp); [done| |].
  { simpl. unfold createFile. by rewrite lookup_insert_eq. }
  change (wrap64 0) with 0 in Hrun. fold size. rewrite Hrun.
  rewrite Z.add_0_l in *. fold got.
  simpl in Hf, Hid, Hp. unfold createFile in Hf. rewrite insert_insert_eq in Hf.
  destruct (read_failure body) as [msg|]; simpl.
  - exists c1, k. done.
  - unfold chunkFinish. destruct (got =? size); simpl.
    + eexists _, (k + 1)%nat. split; [reflexivity|]. simpl.
      split; [done|]. split; [done|].
      rewrite Hp, <- app_assoc. f_equal.
      rewrite <- progress_events_app. f_equal.
      unfold progress_events. simpl. destruct Hid as (-> & _). done.
    + exists c1, k. done.
Qed.

(** X3. A chunk fetch answered 206 returns nil exactly when no read failed
    and the bytes received number exactly the size of the range; whatever
    it returns, the temporary file holds exactly the bytes received, no
    other file is touched and only progress updates are published. *)
Theorem downloadChunk_accounting (o : Origin) (c : Cfg) (i cs cl : Z)
    (ar : string) (body : list ReadEvent) :
  index_ok (dl c) i = true ->
  do_get o (Some (chunkRange (dl c) i cs)) = Resp 206 cl ar body ->
  let size := actualChunkSize (chunkRange (dl c) i cs) in
  let got := wrap64 (Z.of_nat (length (received body))) in
  exists c' k,
    downloadChunk o c i cs =
      Done (c', match read_failure body with
                | Some msg => Some (chunk_read_error i msg)
                | None =>
                    if got =? size then None
                    else Some (chunk_incomplete_error i size got)
                end) /\
    files c' = <[chunkFileName (dl c) i := received body]> (files c) /\
    same_ident (dl c) (dl c') /\
    published c' = published c ++ progress_events (dl c) k.
Proof. apply downloadChunk_fetch. Qed.

Lemma downloadChunk_accounting_witness :
  exists c',
    downloadChunk (slowOrigin 0) downloading_cfg 0 3 = Done (c', None) /\
    files c' !! "chunk_2_0.tmp" = Some (bytes_of 3).
Proof.
  destruct (downloadChunk_accounting (slowOrigin 0) downloading_cfg 0 3 3
              "bytes" [mkRead 0 (bytes_of 3) ErrEOF] eq_refl eq_refl)
    as (c' & k & Hrun & Hf & _).
  exists c'. split; [exact Hrun|]. rewrite Hf. reflexivity.
Defined.

(** ** A whole chunked download from an origin that serves the file *)

Lemma length_slice content s e :
  0 <= s <= e -> e < Z.of_nat (length content) ->
  Z.of_nat (length (slice content (s, e))) = e - s + 1.
Proof.
  intros Hs He. unfold slice. simpl. rewrite length_take, length_drop. lia.
Qed.

Section Serving.
Variable o : Origin.
Variable content : list Byte.byte.
Variable d : Download.
Hypothesis Hserves : serves o content.
Hypothesis HT : TotalSize d = Z.of_nat (length content).
Hypothesis Hn : 1 <= Chunks d <= TotalSize d.
Hypothesis Hsmall : TotalSize d < 2 ^ 63.

Let cs := quot64 (TotalSize d) (Chunks d).

Lemma serving_range i :
  0 <= i < Chunks d ->
  exists s e, chunkRange d i cs = (s, e) /\ 0 <= s <= e /\ e < TotalSize d /\
    actualChunkSize (s, e) = e - s + 1.
Proof.
  intros Hi. subst cs.
  assert (H1 : 1 <= TotalSize d < 2 ^ 63) by lia.
  assert (H2 : 1 <= Chunks d < 2 ^ 63) by lia.
  rewrite (chunkSize_eq d H1 H2), (chunkRange_eq d H1 H2 i Hi).
  pose proof (base_bounds d H1 H2) as (Hb0 & Hb1 & Hb2).
  assert (Hb : 1 <= TotalSize d / Chunks d).
  { apply Z.div_le_lower_bound; lia. }
  eexists _, _. split; [reflexivity|].
  assert (Hrange : 0 <= i * (TotalSize d / Chunks d) <=
            (if i =? Chunks d - 1 then TotalSize d - 1
             else (i + 1) * (TotalSize d / Chunks d) - 1) /\
          (if i =? Chunks d - 1 then TotalSize d - 1
           else (i + 1) * (TotalSize d / Chunks d) - 1) < TotalSize d).
  { destruct (Z.eqb_spec i (Chunks d - 1)); nia. }
  split; [lia|]. split; [lia|].
  unfold actualChunkSize, add64, sub64. simpl.
  rewrite (wrap64_id (_ - _)) by (unfold in_int64; lia).
  apply wrap64_id. unfold in_int64. lia.
Qed.

(** The workers of a run of chunks each leave their slice of the file in
    their own temporary file and report no error. *)
Lemma runWorkers_serves idxs c errs :
  same_ident d (dl c) ->
  NoDup idxs ->
  (forall i, i ∈ idxs -> 0 <= i < Chunks d) ->
  (forall i, i ∈ idxs -> index_ok d i = true) ->
  exists c' k,
    runWorkers o cs idxs c errs = Done (c', errs) /\
    same_ident d (dl c') /\
    (forall i, i ∈ idxs ->
       files c' !! chunkFileName d i = Some (slice content (chunkRange d i cs))) /\
    (forall p, (forall i, i ∈ idxs -> p ≠ chunkFileName d i) ->
       files c' !! p = files c !! p) /\
    published c' = published c ++ progress_events d k.
Proof.
  revert c. induction idxs as [|i idxs IH]; intros c Hid Hnd Hin Hok.
  - exists c, 0%nat. simpl. rewrite app_nil_r.
    split; [done|]. split; [exact Hid|]. split; [|done].
    intros i Hi. by apply elem_of_nil in Hi.
  - apply NoDup_cons in Hnd as [Hi Hnd].
    destruct (serving_range i) as (s & e & Hr & Hse & He & Hsize);
      [apply Hin; by left|].
    destruct Hserves as [_ Hget].
    destruct (Hget s e) as (cl & ar & body & Hresp & Hfail & Hrecv); [lia|lia|].
    assert (Hrange : chunkRange (dl c) i cs = (s, e)).
    { rewrite <- Hr. unfold chunkRange.
      destruct Hid as (_ & _ & -> & -> & _). done. }
    destruct (downloadChunk_fetch o c i cs cl ar body)
      as (c1 & k1 & Hrun & Hf & Hid1 & Hp).
    { rewrite (index_ok_ident _ _ _ Hid). apply Hok. by left. }
    { by rewrite Hrange. }
    rewrite Hfail, Hrange, Hrecv, Hsize in Hrun.
    rewrite length_slice, (wrap64_id (e - s + 1)), Z.eqb_refl in Hrun
      by (unfold in_int64; lia).
    assert (Hid' : same_ident d (dl c1)) by (by eapply same_ident_trans).
    destruct (IH c1 Hid' Hnd) as (c' & k & Hrun' & Hid2 & Hfiles & Hframe & Hp').
    { intros j Hj. apply Hin. by right. }
    { intros j Hj. apply Hok. by right. }
    exists c', (k1 + k)%nat. cbn [runWorkers]. rewrite Hrun.
    split; [exact Hrun'|]. split; [done|].
    rewrite (chunkFileName_ident _ _ i Hid) in Hf.
    split.
    { intros j Hj. apply elem_of_cons in Hj as [->|Hj]; [|by apply Hfiles].
      rewrite Hframe.
      - rewrite Hf, lookup_insert_eq, Hrecv. by rewrite Hr.
      - intros j Hj Heq. apply chunkFileName_inj in Heq. by subst. }
    split.
    { intros p Hp0. rewrite Hframe by (intros j Hj; apply Hp0; by right).
      rewrite Hf. rewrite lookup_insert_ne; [done|].
      apply not_eq_sym, Hp0. by left. }
    rewrite Hp', Hp, <- app_assoc, (progress_events_ident _ _ _ Hid).
    by rewrite progress_events_app.
Qed.

(** The slices of the chunk ranges, put end to end, are the file. *)
Lemma concat_prefix_slices (k : nat) :
  Z.of_nat k <= Chunks d - 1 ->
  concat ((fun i => slice content (chunkRange d i cs)) <$>
            (Z.of_nat <$> seq 0 k)) =
    take (Z.to_nat (Z.of_nat k * (TotalSize d / Chunks d))) content.
Proof.
  assert (H1 : 1 <= TotalSize d < 2 ^ 63) by lia.
  assert (H2 : 1 <= Chunks d < 2 ^ 63) by lia.
  pose proof (base_bounds d H1 H2) as (Hb0 & Hb1 & Hb2).
  induction k as [|k IH]; intros Hk; [reflexivity|].
  rewrite seq_S, !fmap_app, concat_app, IH by lia. simpl.
  rewrite app_nil_r. subst cs.
  rewrite (chunkSize_eq d H1 H2), (chunkRange_eq d H1 H2) by lia.
  destruct (Z.eqb_spec (Z.of_nat k) (Chunks d - 1)); [lia|].
  unfold slice. simpl.
  replace (Z.to_nat ((Z.of_nat k + 1) * (TotalSize d / Chunks d) - 1 -
                     Z.of_nat k * (TotalSize d / Chunks d) + 1))
    with (Z.to_nat (TotalSize d / Chunks d)) by (f_equal; lia).
  rewrite take_take_drop. f_equal. nia.
Qed.

Lemma concat_slices :
  concat ((fun i => slice content (chunkRange d i cs)) <$> chunkIndices d)
    = content.
Proof.
  assert (H1 : 1 <= TotalSize d < 2 ^ 63) by lia.
  assert (H2 : 1 <= Chunks d < 2 ^ 63) by lia.
  pose proof (base_bounds d H1 H2) as (Hb0 & Hb1 & Hb2).
  unfold chunkIndices.
  replace (Z.to_nat (Chunks d)) with (S (Z.to_nat (Chunks d - 1))) by lia.
  rewrite seq_S, !fmap_app, concat_app, concat_prefix_slices by lia. simpl.
  rewrite app_nil_r, Z2Nat.id by lia. subst cs.
  rewrite (chunkSize_eq d H1 H2), (chunkRange_eq d H1 H2) by lia.
  rewrite Z.eqb_refl. unfold slice. simpl.
  rewrite take_take_drop. apply take_ge. lia.
Qed.
End Serving.

(** The chunked path against an origin that serves the file, up to the
    merge: every chunk is fetched into its temporary file and no worker
    reports an error. *)
Lemma fetchChunks_serves (o : Origin) (c : Cfg) (content : list Byte.byte) :
  serves o content ->
  length (ChunkProgress (dl c)) = Z.to_nat (Chunks (dl c)) ->
  2 <= Chunks (dl c) <= Z.of_nat (length content) ->
  Z.of_nat (length content) < 2 ^ 63 ->
  let d2 := set_TotalSize (Z.of_nat (length content))
              (set_Status StatusDownloading (dl c)) in
  exists c2 c3 k,
    probe o c = inr c2 /\ dl c2 = d2 /\
    fetchChunks o c2 = Done (c3, []) /\
    same_ident d2 (dl c3) /\ env c3 = env c /\
    (forall i, 0 <= i < Chunks (dl c) ->
       files c3 !! chunkFileName (dl c) i =
         Some (slice content (chunkRange d2 i (quot64 (TotalSize d2) (Chunks d2))))) /\
    (forall p, (forall i, 0 <= i < Chunks (dl c) -> p ≠ chunkFileName (dl c) i) ->
       files c3 !! p = files c !! p) /\
    published c3 =
      published c ++ update_of (dl c) "status" :: progress_events (dl c) k.
Proof.
  intros Hserves Hlen Hn Hsmall d2.
  pose proof Hserves as [(code & hbody & Hhead) _].
  unfold probe. rewrite Hhead.
  cbn [dl upd_dl broadcastUpdate Chunks set_TotalSize set_Status bool_decide
       decide_rel negb orb].
  rewrite bool_decide_eq_true_2 by done. cbn [negb orb].
  destruct (Z.eqb_spec (Chunks (dl c)) 1) as [|_]; [lia|].
  set (c2 := upd_dl (set_TotalSize (Z.of_nat (length content)))
               (broadcastUpdate "status"
                  (upd_dl (set_Status StatusDownloading) c))).
  assert (Hd2 : dl c2 = d2) by done.
  assert (HT : TotalSize d2 = Z.of_nat (length content)) by done.
  assert (Hn2 : 1 <= Chunks d2 <= TotalSize d2) by (rewrite HT; simpl; lia).
  assert (Hsmall2 : TotalSize d2 < 2 ^ 63) by (by rewrite HT).
  destruct (runWorkers_serves o content d2 Hserves HT Hn2 Hsmall2
              (chunkIndices d2) c2 [])
    as (c3 & k & Hrun & Hid & Hfiles & Hframe & Hpub).
  { apply same_ident_refl. }
  { apply NoDup_chunkIndices. }
  { intros i Hi. by apply elem_of_chunkIndices. }
  { intros i Hi. apply elem_of_chunkIndices in Hi. unfold index_ok.
    subst d2. simpl in *. rewrite Hlen.
    apply andb_true_intro. split; [apply Z.leb_le|apply Z.ltb_lt]; lia. }
  exists c2, c3, k. split; [done|]. split; [done|].
  split.
  { unfold fetchChunks. rewrite Hd2.
    destruct (Z.eqb_spec (Chunks d2) 0) as [|_]; [lia|].
    destruct (Z.ltb_spec (Chunks d2) 0) as [|_]; [lia|].
    by rewrite Hrun. }
  split; [done|].
  split; [by apply runWorkers_env in Hrun|].
  split.
  { intros i Hi. apply Hfiles. by apply elem_of_chunkIndices. }
  split.
  { intros p Hp. rewrite Hframe; [done|].
    intros i Hi. apply Hp. by apply elem_of_chunkIndices in Hi. }
  rewrite Hpub. subst c2. simpl. by rewrite <- app_assoc.
Qed.

Lemma startDownload_serves (o : Origin) (c : Cfg) (content : list Byte.byte) :
  serves o content ->
  in_downloads_dir (dl c) ->
  length (ChunkProgress (dl c)) = Z.to_nat (Chunks (dl c)) ->
  2 <= Chunks (dl c) <= Z.of_nat (length content) ->
  Z.of_nat (length content) < 2 ^ 63 ->
  createErr (env c) (OutputPath (dl c)) = None ->
  exists c',
    startDownload o c = Done c' /\
    Status (dl c') = StatusCompleted /\
    TotalSize (dl c') = Z.of_nat (length content) /\
    files c' !! OutputPath (dl c) = Some content /\
    (forall i, 0 <= i < Chunks (dl c) ->
       files c' !! chunkFileName (dl c) i = None) /\
    (forall p, p ≠ OutputPath (dl c) ->
       (forall i, 0 <= i < Chunks (dl c) -> p ≠ chunkFileName (dl c) i) ->
       files c' !! p = files c !! p).
Proof.
  intros Hserves Hdir Hlen Hn Hsmall Hcreate.
  destruct (fetchChunks_serves o c content Hserves Hlen Hn Hsmall)
    as (c2 & c3 & k & Hprobe & Hd2 & Hfetch & Hid & Henv & Hfiles & Hframe & _).
  set (d2 := set_TotalSize (Z.of_nat (length content))
               (set_Status StatusDownloading (dl c))) in *.
  assert (HT : TotalSize d2 = Z.of_nat (length content)) by done.
  assert (Hn2 : 1 <= Chunks d2 <= TotalSize d2) by (rewrite HT; simpl; lia).
  assert (Hsmall2 : TotalSize d2 < 2 ^ 63) by (by rewrite HT).
  unfold startDownload, downloadChunked. rewrite Hprobe, Hfetch.
  cbn [outcome_map fst snd finishChunked]. unfold mergePhase.
  pose proof Hid as (HID & Hout & HC & HTot & HS & _).
  destruct (decide (Status (dl c3) = StatusDownloading)) as [_|Hne];
    [|by rewrite HS in Hne].
  destruct (mergeChunks_content c3
              (fun i => slice content
                          (chunkRange d2 i (quot64 (TotalSize d2) (Chunks d2)))))
    as (Hd & _ & Hmerged & Hgone & Hother & Hiff).
  { destruct Hdir as [leaf Hleaf]. exists leaf. by rewrite Hout. }
  { by rewrite Henv, Hout. }
  { intros i Hi. rewrite (chunkFileName_ident _ _ i Hid).
    apply Hfiles. rewrite HC in Hi. exact Hi. }
  assert (Hidx : chunkIndices (dl c3) = chunkIndices d2)
    by (unfold chunkIndices; by rewrite HC).
  rewrite Hidx, (concat_slices content d2 HT Hn2 Hsmall2) in Hmerged, Hiff.
  destruct (mergeChunks c3) as [c4 [e|]] eqn:Hm; simpl in *.
  { exfalso. assert (Some e = None); [|done]. apply Hiff.
    rewrite HTot. apply wrap64_id. unfold in_int64. lia. }
  eexists. split; [reflexivity|]. simpl. rewrite Hd, HTot. simpl.
  split; [done|]. split; [done|].
  rewrite Hout in Hmerged, Hother. split; [done|].
  assert (Hname : forall i, chunkFileName (dl c3) i = chunkFileName (dl c) i)
    by (intros i; unfold chunkFileName; by rewrite HID).
  split.
  { intros i Hi. rewrite <- Hname. apply Hgone. lia. }
  intros p Hp1 Hp2. rewrite Hother.
  - apply Hframe. intros i Hi. apply (Hp2 i). done.
  - done.
  - intros i Hi. rewrite Hname. apply (Hp2 i). lia.
Qed.

(** The same download when its output file cannot be created: the chunks
    are fetched, the merge fails at once and the chunk files stay. *)
Lemma startDownload_not_created (o : Origin) (c : Cfg)
    (content : list Byte.byte) (err : string) :
  serves o content ->
  length (ChunkProgress (dl c)) = Z.to_nat (Chunks (dl c)) ->
  2 <= Chunks (dl c) <= Z.of_nat (length content) ->
  Z.of_nat (length content) < 2 ^ 63 ->
  createErr (env c) (OutputPath (dl c)) = Some err ->
  let d2 := set_TotalSize (Z.of_nat (length content)) (dl c) in
  exists c',
    startDownload o c = Done c' /\
    Status (dl c') = StatusError /\
    Error (dl c') = "failed to create output file: " +:+ err /\
    (forall i, 0 <= i < Chunks (dl c) ->
       files c' !! chunkFileName (dl c) i =
         Some (slice content (chunkRange d2 i (quot64 (TotalSize d2) (Chunks d2))))) /\
    (forall p, (forall i, 0 <= i < Chunks (dl c) -> p ≠ chunkFileName (dl c) i) ->
       files c' !! p = files c !! p).
Proof.
  intros Hserves Hlen Hn Hsmall Hcreate d2.
  destruct (fetchChunks_serves o c content Hserves Hlen Hn Hsmall)
    as (c2 & c3 & k & Hprobe & Hd2 & Hfetch & Hid & Henv & Hfiles & Hframe & _).
  unfold startDownload, downloadChunked. rewrite Hprobe, Hfetch.
  cbn [outcome_map fst snd finishChunked]. unfold mergePhase.
  pose proof Hid as (HID & Hout & HC & HTot & HS & _).
  destruct (decide (Status (dl c3) = StatusDownloading)) as [_|Hne];
    [|by rewrite HS in Hne].
  rewrite (mergeChunks_not_created c3 err) by (by rewrite Henv, Hout).
  eexists. split; [reflexivity|]. simpl. done.
Qed.

(** X4. From an origin that serves the file with range support, a download
    with at least two chunks and no more chunks than bytes fetches every
    chunk.  When its output file can be created it completes: the output is
    byte for byte the origin's file, every temporary chunk file is gone and
    no other file has changed.  When the output file cannot be created (a
    file name with a directory that does not exist) it ends in error with
    the create error, and every chunk file is left on disk with its slice
    of the file. *)
Theorem chunked_download_byte_identical (o : Origin) (c : Cfg)
    (content : list Byte.byte) :
  serves o content ->
  in_downloads_dir (dl c) ->
  length (ChunkProgress (dl c)) = Z.to_nat (Chunks (dl c)) ->
  2 <= Chunks (dl c) <= Z.of_nat (length content) ->
  Z.of_nat (length content) < 2 ^ 63 ->
  exists c',
    startDownload o c = Done c' /\
    match createErr (env c) (OutputPath (dl c)) with
    | None =>
        Status (dl c') = StatusCompleted /\
        TotalSize (dl c') = Z.of_nat (length content) /\
        files c' !! OutputPath (dl c) = Some content /\
        (forall i, 0 <= i < Chunks (dl c) ->
           files c' !! chunkFileName (dl c) i = None) /\
        (forall p, p ≠ OutputPath (dl c) ->
           (forall i, 0 <= i < Chunks (dl c) -> p ≠ chunkFileName (dl c) i) ->
           files c' !! p = files c !! p)
    | Some err =>
        let d2 := set_TotalSize (Z.of_nat (length content)) (dl c) in
        Status (dl c') = StatusError /\
        Error (dl c') = "failed to create output file: " +:+ err /\
        (forall i, 0 <= i < Chunks (dl c) ->
           files c' !! chunkFileName (dl c) i =
             Some (slice content
                     (chunkRange d2 i (quot64 (TotalSize d2) (Chunks d2))))) /\
        (forall p,
           (forall i, 0 <= i < Chunks (dl c) -> p ≠ chunkFileName (dl c) i) ->
           files c' !! p = files c !! p)
    end.
Proof.
  intros Hserves Hdir Hlen Hn Hsmall.
  destruct (createErr (env c) (OutputPath (dl c))) as [err|] eqn:Hcreate.
  - destruct (startDownload_not_created o c content err) as (c' & H & H');
      eauto.
  - destruct (startDownload_serves o c content) as (c' & H & H'); eauto.
Qed.

Lemma rangeOrigin_serves content : serves (rangeOrigin content "bytes") content.
Proof.
  split; [by eexists _, _|]. intros s e Hs He. unfold rangeOrigin. cbn [do_get].
  destruct (Z.leb_spec 0 s); [|lia]. destruct (Z.leb_spec s e); [|lia].
  destruct (Z.ltb_spec e (Z.of_nat (length content))); [|lia].
  cbn [andb]. eexists _, _, _. split; [reflexivity|].
  cbn [read_failure received rerr data is_eof].
  change (take (Z.to_nat (e - s + 1)) (drop (Z.to_nat s) content))
    with (slice content (s, e)).
  destruct (Z.of_nat (length (slice content (s, e))) =? 0) eqn:Hz.
  - split; [done|]. apply Z.eqb_eq in Hz.
    rewrite length_slice in Hz by lia. lia.
  - split; [done|]. by rewrite app_nil_r.
Qed.

Lemma chunked_download_byte_identical_witness :
  (exists c',
     startDownload (rangeOrigin (bytes_of 7) "bytes") (fresh_cfg 2) = Done c' /\
     Status (dl c') = StatusCompleted /\
     files c' !! "downloads/f.bin" = Some (bytes_of 7) /\
     files c' !! "chunk_2_1.tmp" = None) /\
  (exists c',
     startDownload (rangeOrigin (bytes_of 7) "bytes") (nodir_cfg 2) = Done c' /\
     Status (dl c') = StatusError /\
     Error (dl c') =
       "failed to create output file: open downloads/dir/f.bin: no such file or directory" /\
     files c' !! "chunk_2_1.tmp" = Some (bytes_of 4)).
Proof.
  assert (Hn : 2 <= 2 <= Z.of_nat (length (bytes_of 7))) by (simpl; lia).
  assert (Hsmall : Z.of_nat (length (bytes_of 7)) < 2 ^ 63) by (simpl; lia).
  split.
  - assert (Hdir : in_downloads_dir (dl (fresh_cfg 2))) by (by exists "f.bin").
    destruct (chunked_download_byte_identical (rangeOrigin (bytes_of 7) "bytes")
                (fresh_cfg 2) (bytes_of 7) (rangeOrigin_serves _) Hdir eq_refl
                Hn Hsmall)
      as (c' & Hrun & H).
    change (createErr (env (fresh_cfg 2)) (OutputPath (dl (fresh_cfg 2))))
      with (@None string) in H.
    destruct H as (Hdone & _ & Hout & Hgone & _).
    exists c'. split; [exact Hrun|]. split; [exact Hdone|].
    split; [exact Hout|]. apply (Hgone 1). simpl. lia.
  - assert (Hdir : in_downloads_dir (dl (nodir_cfg 2)))
      by (by exists "dir/f.bin").
    destruct (chunked_download_byte_identical (rangeOrigin (bytes_of 7) "bytes")
                (nodir_cfg 2) (bytes_of 7) (rangeOrigin_serves _) Hdir eq_refl
                Hn Hsmall)
      as (c' & Hrun & H).
    change (createErr (env (nodir_cfg 2)) (OutputPath (dl (nodir_cfg 2))))
      with (Some "open downloads/dir/f.bin: no such file or directory") in H.
    destruct H as (Herr & Hmsg & Hchunks & _).
    exists c'. split; [exact Hrun|]. split; [exact Herr|].
    split; [exact Hmsg|].
    assert (H1 : 0 <= 1 < Chunks (dl (nodir_cfg 2))) by (simpl; lia).
    apply Hchunks in H1. vm_compute in H1. vm_compute. exact H1.
Defined.

(** ** What a worker may touch, whatever the origin does *)

Lemma chunkIter_frame name i size r c n c' n' ctl :
  chunkIter name i size r c n = (c', n', ctl) ->
  (forall p, p ≠ name -> files c' !! p = files c !! p) /\
  exists k, published c' = published c ++ progress_events (dl c) k.
Proof.
  unfold chunkIter. intros H.
  assert (Hsame : (forall p, p ≠ name -> files c !! p = files c !! p) /\
            exists k, published c = published c ++ progress_events (dl c) k).
  { split; [done|]. exists 0%nat. by rewrite app_nil_r. }
  destruct (rerr r); [| |by inversion H; subst].
  all: destruct (Z.of_nat (length (data r)) =? 0); [by inversion H; subst|].
  all: destruct (negb (index_ok _ _)).
  all: try (inversion H; subst; split;
    [intros p Hp; simpl; by rewrite appendFile_other
    |exists 0%nat; by rewrite app_nil_r]).
  all: match type of H with context [if ?b then _ else _] => destruct b end.
  all: inversion H; subst; simpl; split;
    try (intros p Hp; by rewrite appendFile_other).
  all: try (by exists 1%nat).
  all: exists 0%nat; by rewrite app_nil_r.
Qed.

Lemma downloadLoop_frame name i size body c n c' n' e :
  downloadLoop name i size body c n = Done (c', n', e) ->
  (forall p, p ≠ name -> files c' !! p = files c !! p) /\
  exists k, published c' = published c ++ progress_events (dl c) k.
Proof.
  revert c n. induction body as [|r body IH]; intros c n H; simpl in H.
  - inversion H; subst. split; [done|]. exists 0%nat. by rewrite app_nil_r.
  - destruct (chunkIter name i size r c n) as [[c1 n1] ctl] eqn:Hit.
    pose proof (chunkIter_ident _ _ _ _ _ _ _ _ _ Hit) as Hid.
    apply chunkIter_frame in Hit as [Hf (k1 & Hp)].
    destruct ctl; [|by inversion H; subst; eauto..|done].
    apply IH in H as [Hf' (k & Hp')]. split.
    + intros p Hpn. by rewrite Hf', Hf.
    + exists (k1 + k)%nat.
      rewrite Hp', Hp, <- app_assoc, (progress_events_ident _ _ _ Hid).
      by rewrite progress_events_app.
Qed.

Lemma downloadChunk_frame o c i cs c' e :
  downloadChunk o c i cs = Done (c', e) ->
  (forall p, p ≠ chunkFileName (dl c) i -> files c' !! p = files c !! p) /\
  exists k, published c' = published c ++ progress_events (dl c) k.
Proof.
  unfold downloadChunk, chunkOpen. intros H.
  assert (Hsame : (forall p, p ≠ chunkFileName (dl c) i ->
                     files c !! p = files c !! p) /\
            exists k, published c = published c ++ progress_events (dl c) k).
  { split; [done|]. exists 0%nat. by rewrite app_nil_r. }
  destruct (do_get o _) as [msg|msg|code cl ar body];
    [by inversion H; subst..|].
  destruct (negb (code =? 206)); [by inversion H; subst|].
  destruct (downloadLoop _ _ _ _ _ _) as [[[c1 n1] err]|msg|msg] eqn:Hloop;
    [|by destruct msg..].
  pose proof (downloadLoop_ident _ _ _ _ _ _ _ _ _ Hloop) as (HID & _).
  apply downloadLoop_frame in Hloop as [Hf (k & Hp)]. simpl in Hf, Hp, HID.
  assert (Hf1 : forall p, p ≠ chunkFileName (dl c) i ->
            files c1 !! p = files c !! p).
  { intros p Hpn. rewrite Hf by done. unfold createFile.
    by rewrite lookup_insert_ne. }
  destruct err as [msg|].
  - inversion H; subst. eauto.
  - unfold chunkFinish in H. destruct (negb _); inversion H; subst; simpl.
    + eauto.
    + split; [done|]. exists (k + 1)%nat. rewrite Hp, <- app_assoc.
      rewrite <- progress_events_app. unfold progress_events. simpl.
      by rewrite HID.
Qed.

Lemma runWorkers_frame o cs idxs c errs c' errs' :
  runWorkers o cs idxs c errs = Done (c', errs') ->
  (forall p, (forall i, i ∈ idxs -> p ≠ chunkFileName (dl c) i) ->
     files c' !! p = files c !! p) /\
  (exists k, published c' = published c ++ progress_events (dl c) k) /\
  exists more, errs' = errs ++ more.
Proof.
  revert c errs. induction idxs as [|i idxs IH]; intros c errs H; simpl in H.
  - inversion H; subst. split; [done|]. split.
    + exists 0%nat. by rewrite app_nil_r.
    + exists []. by rewrite app_nil_r.
  - destruct (downloadChunk o c i cs) as [[c1 e]|msg|msg] eqn:Hc; [|done..].
    pose proof (downloadChunk_ident _ _ _ _ _ _ Hc) as Hid.
    apply downloadChunk_frame in Hc as [Hf (k1 & Hp)].
    assert (Hrest : exists errs1 more1, errs1 = errs ++ more1 /\
              runWorkers o cs idxs c1 errs1 = Done (c', errs')).
    { destruct e; eexists _, _; (split; [|exact H]);
        [reflexivity|by rewrite app_nil_r]. }
    destruct Hrest as (errs1 & more1 & -> & Hrun).
    apply IH in Hrun as (Hf' & (k & Hp') & more & ->).
    split.
    { intros p Hpn. rewrite Hf'.
      - apply Hf. apply Hpn. by left.
      - intros j Hj. rewrite (chunkFileName_ident _ _ j Hid). apply Hpn. by right. }
    split.
    { exists (k1 + k)%nat.
      rewrite Hp', Hp, <- app_assoc, (progress_events_ident _ _ _ Hid).
      by rewrite progress_events_app. }
    exists (more1 ++ more). by rewrite app_assoc.
Qed.

(** ** A refused chunk *)

Lemma downloadChunk_refused o c i d :
  same_ident d (dl c) ->
  chunk_refused o d i ->
  exists e, downloadChunk o c i (quot64 (TotalSize d) (Chunks d)) = Done (c, Some e).
Proof.
  intros (_ & _ & HC & HT & _) Href. unfold chunk_refused in Href.
  unfold downloadChunk, chunkOpen.
  replace (chunkRange (dl c) i (quot64 (TotalSize d) (Chunks d)))
    with (chunkRange d i (quot64 (TotalSize d) (Chunks d)))
    by (unfold chunkRange; by rewrite HC, HT).
  destruct (do_get o _) as [msg|msg|code cl ar body]; [eauto..|].
  destruct (Z.eqb_spec code 206); [done|]. simpl. eauto.
Qed.

Lemma runWorkers_refused o d i idxs c errs c' errs' :
  same_ident d (dl c) ->
  chunk_refused o d i ->
  i ∈ idxs -> NoDup idxs ->
  runWorkers o (quot64 (TotalSize d) (Chunks d)) idxs c errs = Done (c', errs') ->
  errs' ≠ [] /\
  files c' !! chunkFileName d i = files c !! chunkFileName d i.
Proof.
  intros Hid Href. revert c errs Hid.
  induction idxs as [|j idxs IH]; intros c errs Hid Hi Hnd H.
  - by apply elem_of_nil in Hi.
  - apply NoDup_cons in Hnd as [Hj Hnd]. cbn [runWorkers] in H.
    apply elem_of_cons in Hi as [->|Hi].
    + destruct (downloadChunk_refused o c j d Hid Href) as [e He].
      rewrite He in H. apply runWorkers_frame in H as (Hf & _ & more & ->).
      split; [by destruct errs|].
      apply Hf. intros k Hk Heq.
      rewrite (chunkFileName_ident _ _ k Hid) in Heq.
      apply chunkFileName_inj in Heq. by subst.
    + destruct (downloadChunk o c j _) as [[c1 e]|msg|msg] eqn:Hc; [|done..].
      pose proof (downloadChunk_ident _ _ _ _ _ _ Hc) as Hid1.
      apply downloadChunk_frame in Hc as [Hf _].
      assert (Hne : chunkFileName d i ≠ chunkFileName (dl c) j).
      { rewrite (chunkFileName_ident _ _ j Hid). intros Heq.
        apply chunkFileName_inj in Heq. by subst. }
      rewrite <- (Hf _ Hne).
      assert (Hid' : same_ident d (dl c1)) by (by eapply same_ident_trans).
      destruct e; by eapply IH.
Qed.

(** X5. If the origin refuses the range request of any chunk (the request
    fails or the status is not 206), the download ends in error whatever
    the other chunks did: nothing is merged, so the output path holds what
    it held before, and the refused worker has created no file. *)
Theorem refused_chunk_fails_download (o : Origin) (c c' : Cfg)
    (code cl : Z) (hbody : list ReadEvent) (i : Z) :
  in_downloads_dir (dl c) ->
  do_head o = Resp code cl "bytes" hbody ->
  Chunks (dl c) ≠ 1 ->
  0 <= i < Chunks (dl c) ->
  chunk_refused o (set_TotalSize cl (dl c)) i ->
  startDownload o c = Done c' ->
  Status (dl c') = StatusError /\
  files c' !! OutputPath (dl c) = files c !! OutputPath (dl c) /\
  files c' !! chunkFileName (dl c) i = files c !! chunkFileName (dl c) i.
Proof.
  intros Hdir Hhead Hn1 Hi Href H.
  unfold startDownload, probe in H. rewrite Hhead in H.
  cbn [dl upd_dl broadcastUpdate Chunks set_TotalSize set_Status] in H.
  rewrite bool_decide_eq_true_2 in H by done. cbn [negb orb] in H.
  destruct (Z.eqb_spec (Chunks (dl c)) 1); [done|].
  unfold downloadChunked, fetchChunks in H.
  cbn [dl upd_dl broadcastUpdate Chunks set_TotalSize set_Status TotalSize] in H.
  destruct (Chunks (dl c) =? 0); [done|]. destruct (Chunks (dl c) <? 0); [done|].
  set (d2 := set_TotalSize cl (set_Status StatusDownloading (dl c))) in *.
  destruct (runWorkers _ _ _ _ _) as [[c3 errs]|msg|msg] eqn:Hrun;
    [|done..].
  pose proof Hrun as Hframe. apply runWorkers_frame in Hframe as (Hf & _ & _).
  eapply (runWorkers_refused o d2 i) in Hrun as [Herrs Hfile].
  - cbn [outcome_map fst snd] in H. unfold finishChunked in H.
    destruct (inArrivalOrder _ errs) as [|e errs'] eqn:Harr;
      [by apply inArrivalOrder_nil in Harr|].
    inversion H; subst c'. simpl.
    split; [done|]. split.
    + rewrite Hf; [done|]. intros j Hj. apply not_eq_sym.
      by apply (names_distinct (dl c)).
    + exact Hfile.
  - apply same_ident_refl.
  - unfold chunk_refused in *. exact Href.
  - by apply elem_of_chunkIndices.
  - apply NoDup_chunkIndices.
Qed.

Lemma refused_chunk_fails_download_witness :
  exists c',
    startDownload flakyOrigin (fresh_cfg 2) = Done c' /\
    Status (dl c') = StatusError /\
    files c' !! "downloads/f.bin" = None /\
    files c' !! "chunk_2_1.tmp" = None.
Proof.
  destruct (startDownload flakyOrigin (fresh_cfg 2)) as [c'|msg|msg] eqn:Hrun;
    [|vm_compute in Hrun; discriminate Hrun..].
  assert (Hdir : in_downloads_dir (dl (fresh_cfg 2))) by (by exists "f.bin").
  assert (Hn1 : Chunks (dl (fresh_cfg 2)) ≠ 1) by (simpl; lia).
  assert (Hi : 0 <= 1 < Chunks (dl (fresh_cfg 2))) by (simpl; lia).
  assert (Href : chunk_refused flakyOrigin
                   (set_TotalSize 7 (dl (fresh_cfg 2))) 1).
  { vm_compute. discriminate. }
  destruct (refused_chunk_fails_download flakyOrigin (fresh_cfg 2) c' 200 7 [] 1
              Hdir eq_refl Hn1 Hi Href Hrun) as (Herr & Hout & Hfile).
  exists c'. split; [reflexivity|]. split; [exact Herr|].
  split; [exact Hout|exact Hfile].
Defined.

(** ** The single-file path *)

Lemma downloadSingleFile_result o c code cl ar body :
  do_get o None = Resp code cl ar body ->
  createErr (env c) (OutputPath (dl c)) = None ->
  let c1 := mkCfg (dl c) (<[OutputPath (dl c) := received body]> (files c))
              (published c) (env c) in
  downloadSingleFile o c =
    match read_failure body with
    | Some msg => failWith msg c1
    | None =>
        singleCompleted (wrap64 (Z.of_nat (length (received body)))) c1
    end.
Proof.
  intros Hget Hcreate c1. unfold downloadSingleFile, singleOpen.
  rewrite Hget, Hcreate.
  change 0 with (wrap64 0) at 1.
  rewrite (singleLoop_received _ _ _ 0 [])
    by (simpl; unfold createFile; apply lookup_insert_eq).
  cbn [dl files published env upd_files app]. unfold createFile.
  rewrite insert_insert_eq, Z.add_0_l. fold c1.
  by destruct (read_failure body).
Qed.

Lemma downloadSingleFile_not_created o c code cl ar body err :
  do_get o None = Resp code cl ar body ->
  createErr (env c) (OutputPath (dl c)) = Some err ->
  downloadSingleFile o c = failWith err c.
Proof.
  intros Hget Hcreate. unfold downloadSingleFile, singleOpen.
  by rewrite Hget, Hcreate.
Qed.

(** X6. downloadSingleFile with nobody pausing the download while it
    reads.  When the output file cannot be created, the download ends in
    error with the create error and no file is touched.  Otherwise the
    output file holds exactly the bytes the read loop took from the
    response, also when a read fails and the download ends in error (the
    partial output stays); without a read error the download is completed
    and its downloaded count is the number of bytes written, whatever
    total_size the probe reported.  No other file is touched. *)
Theorem single_file_output (o : Origin) (c : Cfg) (code cl : Z) (ar : string)
    (body : list ReadEvent) :
  do_get o None = Resp code cl ar body ->
  let c' := downloadSingleFile o c in
  TotalSize (dl c') = TotalSize (dl c) /\
  match createErr (env c) (OutputPath (dl c)) with
  | Some err =>
      files c' = files c /\
      Status (dl c') = StatusError /\ Error (dl c') = err
  | None =>
      files c' = <[OutputPath (dl c) := received body]> (files c) /\
      match read_failure body with
      | Some msg => Status (dl c') = StatusError /\ Error (dl c') = msg
      | None =>
          Status (dl c') = StatusCompleted /\
          Downloaded (dl c') = wrap64 (Z.of_nat (length (received body)))
      end
  end.
Proof.
  intros Hget c'. subst c'.
  destruct (createErr (env c) (OutputPath (dl c))) as [err|] eqn:Hcreate.
  - by rewrite (downloadSingleFile_not_created _ _ _ _ _ _ _ Hget Hcreate).
  - rewrite (downloadSingleFile_result _ _ _ _ _ _ Hget Hcreate).
    by destruct (read_failure body).
Qed.

Lemma single_file_output_witness :
  (files (downloadSingleFile unsizedOrigin (fresh_cfg 4)) !! "downloads/f.bin"
     = Some (bytes_of 4) /\
   Status (dl (downloadSingleFile unsizedOrigin (fresh_cfg 4)))
     = StatusCompleted) /\
  (files (downloadSingleFile unsizedOrigin (nodir_cfg 4)) = ∅ /\
   Error (dl (downloadSingleFile unsizedOrigin (nodir_cfg 4)))
     = "open downloads/dir/f.bin: no such file or directory").
Proof.
  split.
  - pose proof (single_file_output unsizedOrigin (fresh_cfg 4) 200 (-1) ""
                  [mkRead 0 (bytes_of 4) ErrEOF] eq_refl) as [_ H].
    change (createErr (env (fresh_cfg 4)) (OutputPath (dl (fresh_cfg 4))))
      with (@None string) in H.
    destruct H as (Hf & Hst & _).
    split; [|exact Hst]. rewrite Hf. reflexivity.
  - pose proof (single_file_output unsizedOrigin (nodir_cfg 4) 200 (-1) ""
                  [mkRead 0 (bytes_of 4) ErrEOF] eq_refl) as [_ H].
    change (createErr (env (nodir_cfg 4)) (OutputPath (dl (nodir_cfg 4))))
      with (Some "open downloads/dir/f.bin: no such file or directory") in H.
    destruct H as (Hf & _ & Herr).
    split; [exact Hf|exact Herr].
Defined.

(** ** The order of the published updates *)

Lemma mergeChunks_published c c' e :
  mergeChunks c = (c', e) -> published c' = published c.
Proof.
  unfold mergeChunks. intros H.
  destruct (createErr _ _); [by inversion H|].
  destruct (mergeLoop _ _ _ _) as [[fs tm] [err|]]; [by inversion H|].
  destruct (negb _); by inversion H.
Qed.

(** After a failed probe and on the single-file path: the status update,
    then one final update. *)
Lemma probe_returned_events o c c' :
  probe o c = inl c' ->
  exists ty,
    (ty = "completed" /\ Status (dl c') = StatusCompleted \/
     ty = "error" /\ Status (dl c') = StatusError) /\
    published c' =
      published c ++ [update_of (dl c) "status"; update_of (dl c) ty].
Proof.
  unfold probe. intros H.
  destruct (do_head o) as [msg|msg|code cl ar hbody].
  - inversion H; subst. exists "error". split; [by right|]. simpl.
    by rewrite <- app_assoc.
  - inversion H; subst. exists "error". split; [by right|]. simpl.
    by rewrite <- app_assoc.
  - cbn [dl upd_dl broadcastUpdate Chunks set_TotalSize set_Status] in H.
    destruct (_ || _); [|done]. injection H as <-.
    set (c0 := upd_dl (set_TotalSize cl)
                 (broadcastUpdate "status"
                    (upd_dl (set_Status StatusDownloading) c))).
    assert (Hp0 : published c0 = published c ++ [update_of (dl c) "status"])
      by done.
    assert (HID : ID (dl c0) = ID (dl c)) by done.
    destruct (do_get o None) as [msg|msg|code' cl' ar' body] eqn:Hget.
    + unfold downloadSingleFile, singleOpen. rewrite Hget.
      exists "error". split; [by right|]. simpl. by rewrite <- app_assoc.
    + unfold downloadSingleFile, singleOpen. rewrite Hget.
      exists "error". split; [by right|]. simpl. by rewrite <- app_assoc.
    + destruct (createErr (env c0) (OutputPath (dl c0))) as [err|] eqn:Hcreate.
      { rewrite (downloadSingleFile_not_created _ _ _ _ _ _ _ Hget Hcreate).
        exists "error". split; [by right|]. simpl. by rewrite <- app_assoc. }
      rewrite (downloadSingleFile_result _ _ _ _ _ _ Hget Hcreate).
      destruct (read_failure body);
        [exists "error"; split; [by right|]
        |exists "completed"; split; [by left|]];
        simpl; by rewrite <- app_assoc.
Qed.

(** The chunked path from the end of the workers on, with the status
    [st] the controller finds at line 175. *)
Lemma finishChunked_events c errs st :
  let c' := finishChunked (upd_dl (set_Status st) c) errs in
  exists final,
    published c' = published c ++ final /\
    (final = [update_of (dl c) "completed"] /\
       Status (dl c') = StatusCompleted /\ errs = [] /\ st = StatusDownloading \/
     final = [update_of (dl c) "error"] /\
       Status (dl c') = StatusError /\ (errs ≠ [] \/ st = StatusDownloading) \/
     final = [] /\ c' = upd_dl (set_Status st) c /\ errs = [] /\
       st ≠ StatusDownloading).
Proof.
  intros c'. subst c'. destruct errs as [|e errs]; cbn [finishChunked].
  - unfold mergePhase. cbn [dl upd_dl Status set_Status].
    destruct (decide (st = StatusDownloading)) as [->|Hne].
    + destruct (mergeChunks _) as [c4 [e|]] eqn:Hm;
        pose proof (mergeChunks_dl _ _ _ Hm) as Hd;
        pose proof (mergeChunks_published _ _ _ Hm) as Hp.
      * exists [update_of (dl c) "error"]. split.
        { simpl. unfold update_of. by rewrite Hd, Hp. }
        right. left. split; [done|]. split; [done|]. by right.
      * exists [update_of (dl c) "completed"]. split.
        { simpl. unfold update_of. by rewrite Hd, Hp. }
        left. done.
    + exists []. split; [by rewrite app_nil_r|]. right. right. done.
  - exists [update_of (dl c) "error"]. split; [done|].
    right. left. split; [done|]. split; [done|]. by left.
Qed.

Lemma fetchChunks_events o c c' errs :
  fetchChunks o c = Done (c', errs) ->
  same_ident (dl c) (dl c') /\
  exists k, published c' = published c ++ progress_events (dl c) k.
Proof.
  unfold fetchChunks. intros H.
  destruct (Chunks (dl c) =? 0); [done|].
  destruct (Chunks (dl c) <? 0); [done|].
  destruct (runWorkers _ _ _ _ _) as [[c3 errs3]|msg|msg] eqn:Hrun;
    [|done..].
  injection H as <- _. split; [by eapply runWorkers_ident|].
  by apply runWorkers_frame in Hrun as (_ & Hp & _).
Qed.

(** X7. The updates a controller and its chunk workers publish (the two
    tickers, which publish progress updates only, are left out).  After a
    failed probe, and on the single-file path when nobody pauses the
    download: the status update, then exactly one final update, completed
    or error as the download ends.  On the chunked path: the status
    update, then progress updates only, then at most one final update,
    decided when the workers are done: error if a chunk failed; otherwise,
    if the download is still downloading, completed or error as the merge
    decides; otherwise (a pause or a delete has written another status
    meanwhile) nothing at all: the controller returns without a final
    update and leaves the status it found. *)
Theorem controller_event_order (o : Origin) (c : Cfg) :
  match probe o c with
  | inl c' =>
      exists ty,
        (ty = "completed" /\ Status (dl c') = StatusCompleted \/
         ty = "error" /\ Status (dl c') = StatusError) /\
        published c' =
          published c ++ [update_of (dl c) "status"; update_of (dl c) ty]
  | inr c2 =>
      forall c3 errs st,
        fetchChunks o c2 = Done (c3, errs) ->
        let c' := finishChunked (upd_dl (set_Status st) c3) errs in
        exists k final,
          published c' =
            published c ++ update_of (dl c) "status"
              :: progress_events (dl c) k ++ final /\
          (final = [update_of (dl c) "completed"] /\
             Status (dl c') = StatusCompleted /\
             errs = [] /\ st = StatusDownloading \/
           final = [update_of (dl c) "error"] /\
             Status (dl c') = StatusError /\
             (errs ≠ [] \/ st = StatusDownloading) \/
           final = [] /\ Status (dl c') = st /\
             errs = [] /\ st ≠ StatusDownloading)
  end.
Proof.
  destruct (probe o c) as [c'|c2] eqn:Hprobe.
  - by apply (probe_returned_events o).
  - intros c3 errs st Hfetch c'.
    apply fetchChunks_events in Hfetch as [(HID & _) [k Hk]].
    assert (Hc2 : ID (dl c2) = ID (dl c) /\
                  published c2 = published c ++ [update_of (dl c) "status"]).
    { unfold probe in Hprobe.
      destruct (do_head o) as [msg|msg|code cl ar hbody]; [done..|].
      cbn [dl upd_dl broadcastUpdate Chunks set_TotalSize set_Status] in Hprobe.
      destruct (_ || _); [done|]. by injection Hprobe as <-. }
    destruct Hc2 as [HID2 Hp2].
    destruct (finishChunked_events c3 errs st) as (final & Hp & Hcases).
    fold c' in Hp, Hcases. exists k, final. split.
    + rewrite Hp, Hk, Hp2. unfold progress_events.
      rewrite HID2. by rewrite <- !app_assoc.
    + unfold update_of in *. rewrite HID, HID2 in Hcases.
      destruct Hcases as [H|[H|(H1 & H2 & H3 & H4)]]; [by left|by right; left|].
      right. right. split; [done|]. split; [by rewrite H2|done].
Qed.

Lemma controller_event_order_witness :
  (exists c2 c3 errs,
     probe flakyOrigin (fresh_cfg 2) = inr c2 /\
     fetchChunks flakyOrigin c2 = Done (c3, errs) /\
     UpdateType <$> published (finishChunked c3 errs)
       = ["status"; "progress"; "progress"; "error"]) /\
  (exists c2 c3,
     probe (rangeOrigin (bytes_of 7) "bytes") (fresh_cfg 2) = inr c2 /\
     fetchChunks (rangeOrigin (bytes_of 7) "bytes") c2 = Done (c3, []) /\
     UpdateType <$>
       published (finishChunked (upd_dl (set_Status StatusPaused) c3) [])
       = ["status"; "progress"; "progress"; "progress"; "progress"]).
Proof.
  split.
  - pose proof (controller_event_order flakyOrigin (fresh_cfg 2)) as H.
    destruct (probe flakyOrigin (fresh_cfg 2)) as [c'|c2] eqn:Hprobe;
      [vm_compute in Hprobe; discriminate Hprobe|].
    destruct (fetchChunks flakyOrigin c2) as [[c3 errs]|msg|msg] eqn:Hfetch.
    2,3: vm_compute in Hprobe; injection Hprobe as <-;
         vm_compute in Hfetch; discriminate Hfetch.
    destruct (H c3 errs (Status (dl c3)) eq_refl) as (k & final & _ & _).
    exists c2, c3, errs. split; [reflexivity|]. split; [exact Hfetch|].
    vm_compute in Hprobe. injection Hprobe as <-.
    vm_compute in Hfetch. injection Hfetch as <- <-.
    vm_compute. reflexivity.
  - pose proof (controller_event_order (rangeOrigin (bytes_of 7) "bytes")
                  (fresh_cfg 2)) as H.
    destruct (probe (rangeOrigin (bytes_of 7) "bytes") (fresh_cfg 2))
      as [c'|c2] eqn:Hprobe; [vm_compute in Hprobe; discriminate Hprobe|].
    destruct (fetchChunks (rangeOrigin (bytes_of 7) "bytes") c2)
      as [[c3 errs]|msg|msg] eqn:Hfetch.
    2,3: vm_compute in Hprobe; injection Hprobe as <-;
         vm_compute in Hfetch; discriminate Hfetch.
    destruct (H c3 errs StatusPaused eq_refl) as (k & final & _ & _).
    exists c2, c3. split; [reflexivity|].
    vm_compute in Hprobe. injection Hprobe as <-.
    vm_compute in Hfetch. injection Hfetch as <- <-.
    split; [vm_compute; reflexivity|]. vm_compute. reflexivity.
Defined.

(** ** The sizes of the chunks *)

Section Sizes.
Variable d : Download.
Hypothesis Hsize : 1 <= TotalSize d < 2 ^ 63.
Hypothesis Hn : 1 <= Chunks d < 2 ^ 63.

Lemma chunkSizes_lookup (i : nat) :
  (i < Z.to_nat (Chunks d))%nat ->
  chunkSizes d !! i =
    Some (if Z.of_nat i =? Chunks d - 1
          then TotalSize d - (Chunks d - 1) * (TotalSize d / Chunks d)
          else TotalSize d / Chunks d).
Proof.
  intros Hi. unfold chunkSizes.
  rewrite list_lookup_fmap, (chunkRanges_lookup d Hsize Hn i Hi). simpl.
  pose proof (base_bounds d Hsize Hn) as (Hb0 & Hb1 & Hb2).
  f_equal. unfold actualChunkSize, add64, sub64. simpl.
  destruct (Z.eqb_spec (Z.of_nat i) (Chunks d - 1)) as [Heq|Hne].
  - rewrite Heq.
    rewrite (wrap64_id (_ - _)) by (unfold in_int64; nia).
    rewrite wrap64_id by (unfold in_int64; nia). lia.
  - rewrite (wrap64_id (_ - _)) by (unfold in_int64; nia).
    rewrite wrap64_id by (unfold in_int64; nia). lia.
Qed.

Lemma chunkSizes_prefix_sum (k : nat) :
  (k < Z.to_nat (Chunks d))%nat ->
  foldr Z.add 0 (take k (chunkSizes d)) = Z.of_nat k * (TotalSize d / Chunks d).
Proof.
  induction k as [|k IH]; intros Hk; [by rewrite take_0|].
  erewrite take_S_r by (apply chunkSizes_lookup; lia).
  rewrite foldr_app. simpl.
  destruct (Z.eqb_spec (Z.of_nat k) (Chunks d - 1)); [lia|].
  assert (Hshift : forall l a, foldr Z.add a l = foldr Z.add 0 l + a).
  { induction l as [|x l IHl]; intros a; simpl; [lia|]. rewrite IHl. lia. }
  rewrite Hshift, IH by lia. lia.
Qed.
End Sizes.

(** X8. For total_size >= 1 and n >= 1 the sizes the workers expect are
    non-negative and add up to total_size: every chunk but the last
    expects total_size / n bytes and the last one expects those plus the
    remainder total_size mod n. *)
Theorem chunk_sizes_sum (d : Download) :
  1 <= TotalSize d < 2 ^ 63 ->
  1 <= Chunks d < 2 ^ 63 ->
  length (chunkSizes d) = Z.to_nat (Chunks d) /\
  foldr Z.add 0 (chunkSizes d) = TotalSize d /\
  (forall i, 0 <= i < Chunks d - 1 ->
     chunkSizes d !! Z.to_nat i = Some (TotalSize d / Chunks d)) /\
  chunkSizes d !! Z.to_nat (Chunks d - 1) =
    Some (TotalSize d / Chunks d + TotalSize d mod Chunks d) /\
  Forall (fun s => 0 <= s) (chunkSizes d).
Proof.
  intros HT Hn.
  pose proof (base_bounds d HT Hn) as (Hb0 & Hb1 & Hb2).
  pose proof (Z.div_mod (TotalSize d) (Chunks d) ltac:(lia)) as Hdm.
  assert (Hlen : length (chunkSizes d) = Z.to_nat (Chunks d)).
  { unfold chunkSizes. by rewrite length_fmap, chunkRanges_length. }
  assert (Hlast : chunkSizes d !! Z.to_nat (Chunks d - 1) =
            Some (TotalSize d / Chunks d + TotalSize d mod Chunks d)).
  { rewrite (chunkSizes_lookup d HT Hn) by lia.
    rewrite Z2Nat.id, Z.eqb_refl by lia. f_equal. lia. }
  split; [done|]. split.
  { rewrite <- (take_drop (Z.to_nat (Chunks d - 1)) (chunkSizes d)).
    rewrite (drop_S _ _ _ Hlast), drop_ge by lia.
    rewrite foldr_app. simpl.
    assert (Hshift : forall l a, foldr Z.add a l = foldr Z.add 0 l + a).
    { induction l as [|x l IHl]; intros a; simpl; [lia|]. rewrite IHl. lia. }
    rewrite Hshift, (chunkSizes_prefix_sum d HT Hn) by lia.
    rewrite Z2Nat.id by lia. nia. }
  split.
  { intros i Hi. rewrite (chunkSizes_lookup d HT Hn) by lia.
    rewrite Z2Nat.id by lia.
    destruct (Z.eqb_spec i (Chunks d - 1)); [lia|done]. }
  split; [done|].
  apply Forall_lookup. intros i s Hs.
  assert (Hi : (i < Z.to_nat (Chunks d))%nat).
  { apply lookup_lt_Some in Hs. lia. }
  rewrite (chunkSizes_lookup d HT Hn i Hi) in Hs. injection Hs as <-.
  destruct (_ =? _); nia.
Qed.

Lemma chunk_sizes_sum_witness :
  chunkSizes (probed 1000003 4) = [250000; 250000; 250000; 250003] /\
  foldr Z.add 0 (chunkSizes (probed 1000003 4)) = 1000003.
Proof.
  assert (H1 : 1 <= TotalSize (probed 1000003 4) < 2 ^ 63) by (simpl; lia).
  assert (H2 : 1 <= Chunks (probed 1000003 4) < 2 ^ 63) by (simpl; lia).
  destruct (chunk_sizes_sum (probed 1000003 4) H1 H2) as (_ & Hsum & _).
  split; [reflexivity|exact Hsum].
Defined.

(** ** What the workers write in the download object *)

Lemma writes_slots_refl idxs d : writes_slots idxs d d.
Proof. split; [by destruct d|done]. Qed.

Lemma writes_slots_trans idxs d1 d2 d3 :
  writes_slots idxs d1 d2 -> writes_slots idxs d2 d3 -> writes_slots idxs d1 d3.
Proof.
  intros (H1 & L1 & S1) (H2 & L2 & S2). split; [|split].
  - rewrite H2 at 1. rewrite H1. by destruct d1.
  - congruence.
  - intros j Hj. by rewrite S2, S1.
Qed.

Lemma writes_slots_mono idxs idxs' d d' :
  idxs ⊆ idxs' -> writes_slots idxs d d' -> writes_slots idxs' d d'.
Proof.
  intros Hsub (H1 & L1 & S1). split; [done|]. split; [done|].
  intros j Hj. apply S1. intros Hin. apply Hj. by apply Hsub.
Qed.

Lemma chunkIter_slots name i size r c n c' n' ctl :
  chunkIter name i size r c n = (c', n', ctl) -> writes_slots [i] (dl c) (dl c').
Proof.
  unfold chunkIter. intros H.
  destruct (rerr r); (destruct (Z.of_nat (length (data r)) =? 0);
    [inversion H; subst; apply writes_slots_refl|]) ||
    (inversion H; subst; apply writes_slots_refl).
  all: destruct (negb (index_ok _ _)) eqn:Hok;
    [inversion H; subst; apply writes_slots_refl|].
  all: apply negb_false_iff in Hok; unfold index_ok in Hok; simpl in Hok;
    apply andb_true_iff in Hok as [Hlo Hhi];
    apply Z.leb_le in Hlo; apply Z.ltb_lt in Hhi.
  all: match type of H with context [if ?b then _ else _] => destruct b end.
  all: inversion H; subst; simpl; (split; [by destruct (dl c)|]); simpl;
    (split; [by rewrite length_insert|]).
  all: intros j Hj; apply list_lookup_insert_ne; intros <-; apply Hj;
    rewrite Z2Nat.id by lia; by left.
Qed.

Lemma downloadLoop_slots name i size body c n c' n' e :
  downloadLoop name i size body c n = Done (c', n', e) ->
  writes_slots [i] (dl c) (dl c').
Proof.
  revert c n. induction body as [|r body IH]; intros c n H; simpl in H.
  - inversion H; subst. apply writes_slots_refl.
  - destruct (chunkIter name i size r c n) as [[c1 n1] ctl] eqn:Hit.
    apply chunkIter_slots in Hit.
    destruct ctl; [|by inversion H; subst..|done].
    eapply writes_slots_trans; [exact Hit|by eapply IH].
Qed.

Lemma downloadChunk_slots o c i cs c' e :
  downloadChunk o c i cs = Done (c', e) -> writes_slots [i] (dl c) (dl c').
Proof.
  unfold downloadChunk, chunkOpen. intros H.
  destruct (do_get o _) as [msg|msg|code cl ar body];
    [inversion H; subst; apply writes_slots_refl..|].
  destruct (negb _); [inversion H; subst; apply writes_slots_refl|].
  destruct (downloadLoop _ _ _ _ _ _) as [[[c2 n] [err|]]|msg|msg] eqn:Hloop;
    [| |done|done]; apply downloadLoop_slots in Hloop; simpl in Hloop.
  - by inversion H; subst.
  - unfold chunkFinish in H. destruct (negb _); by inversion H; subst.
Qed.

Lemma runWorkers_slots o cs idxs c errs c' errs' :
  runWorkers o cs idxs c errs = Done (c', errs') ->
  writes_slots idxs (dl c) (dl c').
Proof.
  revert c errs. induction idxs as [|i idxs IH]; intros c errs H; simpl in H.
  - inversion H; subst. apply writes_slots_refl.
  - destruct (downloadChunk o c i cs) as [[c1 e]|msg|msg] eqn:Hc; [|done..].
    apply downloadChunk_slots in Hc.
    eapply writes_slots_trans.
    + eapply writes_slots_mono; [|exact Hc].
      intros x Hx. apply list_elem_of_singleton in Hx as ->. by left.
    + eapply writes_slots_mono; [|destruct e; eapply IH; exact H].
      intros x Hx. by right.
Qed.

(** X9. A chunk worker writes one thing in the download object: its own
    slot of ChunkProgress.  Whatever the origin answers, when downloadChunk
    returns every other field (status, error, total size, downloaded,
    overall progress, speed) and every other slot is as it was, and the
    slice has kept its length. *)
Theorem worker_writes_own_slot (o : Origin) (c c' : Cfg) (i cs : Z)
    (e : option string) :
  downloadChunk o c i cs = Done (c', e) ->
  dl c' = set_ChunkProgress (ChunkProgress (dl c')) (dl c) /\
  length (ChunkProgress (dl c')) = length (ChunkProgress (dl c)) /\
  forall j : nat, Z.of_nat j ≠ i ->
    ChunkProgress (dl c') !! j = ChunkProgress (dl c) !! j.
Proof.
  intros H. apply downloadChunk_slots in H as (H1 & H2 & H3).
  split; [done|]. split; [done|]. intros j Hj. apply H3.
  intros Hin. apply Hj. by apply list_elem_of_singleton in Hin.
Qed.

Lemma worker_writes_own_slot_witness :
  exists c',
    downloadChunk (rangeOrigin (bytes_of 7) "bytes") downloading_cfg 1 3 = Done (c', None) /\
    ChunkProgress (dl c') !! 0%nat = Some 0%float /\
    Status (dl c') = StatusDownloading.
Proof.
  destruct (downloadChunk (rangeOrigin (bytes_of 7) "bytes") downloading_cfg 1 3)
    as [[c' e]|msg|msg] eqn:Hrun; [|vm_compute in Hrun; discriminate Hrun..].
  destruct (worker_writes_own_slot _ _ _ _ _ _ Hrun) as (Hd & _ & Hslot).
  exists c'. split.
  - vm_compute in Hrun. injection Hrun as _ <-. reflexivity.
  - split; [rewrite (Hslot 0%nat); [reflexivity|discriminate]|].
    rewrite Hd. reflexivity.
Defined.

(** ** The registry across calls *)

Lemma generateID_inj t1 t2 : generateID t1 = generateID t2 -> t1 = t2.
Proof. unfold generateID. apply (inj pretty). Qed.

Lemma AddDownload_twice url1 fn1 n1 ct1 rt1 clk1 url2 fn2 n2 ct2 rt2 clk2 w :
  makeslice_ok (wenv w) n1 = true -> makeslice_ok (wenv w) n2 = true ->
  exists w1 a1 w2 a2,
    AddDownload url1 fn1 n1 ct1 rt1 clk1 w = Done (w1, a1, None) /\
    AddDownload url2 fn2 n2 ct2 rt2 clk2 w1 = Done (w2, a2, None) /\
    a1 ≠ a2 /\
    heap w2 !! a1 = Some (newDownload url1 fn1 n1 ct1 rt1 clk1) /\
    heap w2 !! a2 = Some (newDownload url2 fn2 n2 ct2 rt2 clk2) /\
    spawned w2 = spawned w ++ [a1; a2] /\
    GetDownload (generateID (now_id clk2)) w2 = (Some a2, None) /\
    (GetDownload (generateID (now_id clk1)) w2 = (Some a1, None)
       <-> now_id clk1 ≠ now_id clk2).
Proof.
  intros Hok1 Hok2. rewrite AddDownload_ok by done. cbn zeta.
  eexists _, _, _, _. split; [reflexivity|].
  split; [by rewrite AddDownload_ok by exact Hok2|]. cbn [heap].
  set (a1 := fresh (dom (heap w))).
  set (d1 := newDownload url1 fn1 n1 ct1 rt1 clk1).
  set (a2 := fresh (dom (<[a1 := d1]> (heap w)))).
  assert (Hne : a1 ≠ a2).
  { intros Heq. apply (is_fresh (dom (<[a1 := d1]> (heap w)))).
    fold a2. rewrite <- Heq. apply elem_of_dom. by rewrite lookup_insert_eq. }
  cbn [heap spawned downloads]. split; [exact Hne|].
  split; [by rewrite lookup_insert_ne, lookup_insert_eq|].
  split; [by rewrite lookup_insert_eq|].
  split; [by rewrite <- app_assoc|].
  unfold GetDownload. cbn [downloads ID newDownload].
  split; [by rewrite lookup_insert_eq|].
  destruct (decide (now_id clk1 = now_id clk2)) as [Heq|Hdiff].
  - rewrite Heq, lookup_insert_eq. split; [|done].
    intros H. injection H as H. by symmetry in H.
  - rewrite lookup_insert_ne by (intros H; by apply generateID_inj in H).
    subst d1. cbn [ID newDownload]. by rewrite lookup_insert_eq.
Qed.

(** X10. Two downloads added one after the other are distinct objects, each
    with its own controller, and the second is found under its id.  The
    first is found under its id exactly when the two ids were generated
    at different clock readings: an equal reading gives an equal id, and
    the second registration then replaces the first, whose object and
    controller remain. *)
Theorem add_download_same_instant (url1 fn1 : string) (n1 : Z)
    (ct1 rt1 : string) (clk1 : AddClock) (url2 fn2 : string) (n2 : Z)
    (ct2 rt2 : string) (clk2 : AddClock) (w : World) :
  makeslice_ok (wenv w) n1 = true -> makeslice_ok (wenv w) n2 = true ->
  exists w1 a1 w2 a2,
    AddDownload url1 fn1 n1 ct1 rt1 clk1 w = Done (w1, a1, None) /\
    AddDownload url2 fn2 n2 ct2 rt2 clk2 w1 = Done (w2, a2, None) /\
    a1 ≠ a2 /\
    heap w2 !! a1 = Some (newDownload url1 fn1 n1 ct1 rt1 clk1) /\
    heap w2 !! a2 = Some (newDownload url2 fn2 n2 ct2 rt2 clk2) /\
    spawned w2 = spawned w ++ [a1; a2] /\
    GetDownload (generateID (now_id clk2)) w2 = (Some a2, None) /\
    (GetDownload (generateID (now_id clk1)) w2 = (Some a1, None)
       <-> now_id clk1 ≠ now_id clk2).
Proof. apply AddDownload_twice. Qed.

Lemma add_download_same_instant_witness :
  exists w1 a1 w2 a2,
    AddDownload "http://origin/a" "a" 2 "30s" "10m" clock0 world0
      = Done (w1, a1, None) /\
    AddDownload "http://origin/b" "b" 2 "30s" "10m" clock0 w1
      = Done (w2, a2, None) /\
    a1 ≠ a2 /\
    GetDownload "2" w2 = (Some a2, None).
Proof.
  destruct (add_download_same_instant "http://origin/a" "a" 2 "30s" "10m"
              clock0 "http://origin/b" "b" 2 "30s" "10m" clock0 world0
              eq_refl eq_refl)
    as (w1 & a1 & w2 & a2 & H1 & H2 & Hne & _ & _ & _ & Hget & _).
  exists w1, a1, w2, a2. split; [exact H1|]. split; [exact H2|].
  split; [exact Hne|exact Hget].
Defined.

(** ** A download deleted while it runs *)

Lemma removeChunkFiles_other d (fs : FS) p :
  (forall i, p ≠ chunkFileName d i) ->
  removeChunkFiles d fs !! p = fs !! p.
Proof.
  intros Hp. unfold removeChunkFiles. revert fs.
  induction (chunkIndices d) as [|i idxs IH]; intros fs; simpl; [done|].
  rewrite IH. unfold removeFile. rewrite lookup_delete_ne; [done|].
  apply not_eq_sym, Hp.
Qed.

Lemma removeChunkFiles_chunk d (fs : FS) i :
  0 <= i < Chunks d -> removeChunkFiles d fs !! chunkFileName d i = None.
Proof.
  intros Hi. unfold removeChunkFiles. apply removeChunkFiles_gone.
  by apply elem_of_chunkIndices.
Qed.

Lemma cancelled_runs_on (o : Origin) (w : World) (id : string) (a : nat)
    (d : Download) (content : list Byte.byte) :
  downloads w !! id = Some a ->
  heap w !! a = Some d ->
  Status d = StatusDownloading ->
  in_downloads_dir d ->
  serves o content ->
  TotalSize d = Z.of_nat (length content) ->
  length (ChunkProgress d) = Z.to_nat (Chunks d) ->
  2 <= Chunks d <= Z.of_nat (length content) ->
  Z.of_nat (length content) < 2 ^ 63 ->
  exists w1 c c' k,
    DeleteDownload id w = Done (w1, None) /\
    view a w1 = Some c /\
    downloadChunked o c = Done c' /\
    dl c' = set_ChunkProgress (ChunkProgress (dl c')) (cancelled d) /\
    (forall i, 0 <= i < Chunks d ->
       files c' !! chunkFileName d i =
         Some (slice content (chunkRange d i (quot64 (TotalSize d) (Chunks d))))) /\
    files c' !! OutputPath d = wfiles w !! OutputPath d /\
    published c' = wpublished w ++ progress_events d k /\
    DeleteDownload id (commit a c' w1) =
      Done (commit a c' w1, Some "download not found").
Proof.
  intros Hid Ha Hst Hdir Hserves HT Hlen Hn Hsmall.
  unfold DeleteDownload at 1. rewrite Hid, Ha.
  destruct (decide (Status d = StatusDownloading)) as [_|]; [|done].
  cbn [downloads heap wfiles wpublished spawned wenv].
  fold (cancelled d).
  set (c := mkCfg (cancelled d) (removeChunkFiles (cancelled d) (wfiles w))
              (wpublished w) (wenv w)).
  exists (mkWorld (delete id (downloads w)) (<[a := cancelled d]> (heap w))
            (removeChunkFiles (cancelled d) (wfiles w)) (wpublished w)
            (spawned w) (wenv w)), c.
  unfold view. cbn [heap wfiles wpublished wenv]. rewrite lookup_insert_eq.
  assert (HT' : TotalSize (cancelled d) = Z.of_nat (length content)) by done.
  assert (Hn' : 1 <= Chunks (cancelled d) <= TotalSize (cancelled d))
    by (rewrite HT'; simpl; lia).
  assert (Hsmall' : TotalSize (cancelled d) < 2 ^ 63) by (by rewrite HT').
  destruct (runWorkers_serves o content (cancelled d) Hserves HT' Hn' Hsmall'
              (chunkIndices (cancelled d)) c [])
    as (c3 & k & Hrun & Hident & Hfiles & Hframe & Hpub).
  { apply same_ident_refl. }
  { apply NoDup_chunkIndices. }
  { intros i Hi. by apply elem_of_chunkIndices. }
  { intros i Hi. apply elem_of_chunkIndices in Hi. unfold index_ok.
    simpl in *. rewrite Hlen.
    apply andb_true_intro. split; [apply Z.leb_le|apply Z.ltb_lt]; lia. }
  pose proof (runWorkers_slots _ _ _ _ _ _ _ Hrun) as (Hdl & _ & _).
  exists c3, k. split; [reflexivity|]. split; [reflexivity|].
  unfold downloadChunked, fetchChunks.
  change (dl c) with (cancelled d).
  destruct (Z.eqb_spec (Chunks (cancelled d)) 0) as [|_]; [simpl in *; lia|].
  destruct (Z.ltb_spec (Chunks (cancelled d)) 0) as [|_]; [simpl in *; lia|].
  rewrite Hrun. cbn [outcome_map fst snd].
  rewrite inArrivalOrder_empty. cbn [finishChunked]. unfold mergePhase.
  destruct (decide (Status (dl c3) = StatusDownloading)) as [Hs|_].
  { rewrite Hdl in Hs. discriminate Hs. }
  split; [reflexivity|]. split; [exact Hdl|].
  split.
  { intros i Hi. apply (Hfiles i). apply elem_of_chunkIndices. simpl. lia. }
  split.
  { rewrite Hframe.
    - apply removeChunkFiles_other. intros i.
      change (OutputPath d) with (OutputPath (cancelled d)).
      apply not_eq_sym, names_distinct. done.
    - intros i _. change (OutputPath d) with (OutputPath (cancelled d)).
      apply not_eq_sym, (names_distinct (cancelled d)). done. }
  split; [exact Hpub|].
  unfold DeleteDownload, commit. cbn [downloads]. by rewrite lookup_delete_eq.
Qed.

Lemma removeFiles_not_in d idxs (fs : FS) p :
  (forall j, j ∈ idxs -> p ≠ chunkFileName d j) ->
  foldl (fun fs i => removeFile (chunkFileName d i) fs) fs idxs !! p = fs !! p.
Proof.
  revert fs. induction idxs as [|j idxs IH]; intros fs H; simpl; [done|].
  rewrite IH by (intros k Hk; apply H; by right).
  unfold removeFile. rewrite lookup_delete_ne; [done|].
  apply not_eq_sym, H. by left.
Qed.

(** A delete while a worker is in its read loop.  The removal of the
    chunk files and the writes of the worker commute: a write after the
    removal reaches no file. *)
Lemma removeChunkFiles_append d (fs : FS) i bs :
  0 <= i < Chunks d ->
  removeChunkFiles d (appendFile (chunkFileName d i) bs fs)
    = removeChunkFiles d fs.
Proof.
  intros Hi. apply map_eq. intros p.
  destruct (decide (p ∈ (chunkFileName d <$> chunkIndices d))) as [Hin|Hp].
  - apply list_elem_of_fmap in Hin as (j & -> & Hj).
    apply elem_of_chunkIndices in Hj. by rewrite !removeChunkFiles_chunk.
  - assert (Hne : forall j, j ∈ chunkIndices d -> p ≠ chunkFileName d j).
    { intros j Hj ->. apply Hp. apply list_elem_of_fmap. eauto. }
    unfold removeChunkFiles. rewrite !removeFiles_not_in by done.
    apply appendFile_other.
    apply not_eq_sym, Hne. by apply elem_of_chunkIndices.
Qed.

Lemma chunkIter_cancelled i size r c n :
  0 <= i < Chunks (dl c) ->
  chunkIter (chunkFileName (dl c) i) i size r (cancelledCfg c) n =
    (cancelledCfg (chunkIter (chunkFileName (dl c) i) i size r c n).1.1,
     (chunkIter (chunkFileName (dl c) i) i size r c n).1.2,
     (chunkIter (chunkFileName (dl c) i) i size r c n).2).
Proof.
  intros Hi. unfold chunkIter.
  assert (Happ : forall bs,
            upd_files (appendFile (chunkFileName (dl c) i) bs) (cancelledCfg c)
              = cancelledCfg
                  (upd_files (appendFile (chunkFileName (dl c) i) bs) c)).
  { intros bs. unfold upd_files, cancelledCfg. cbn [dl files published env].
    f_equal. rewrite removeChunkFiles_append by done.
    apply appendFile_absent. by apply removeChunkFiles_chunk. }
  destruct (rerr r); simpl; try reflexivity.
  all: destruct (Z.of_nat (length (data r)) =? 0); simpl; try reflexivity.
  all: change (index_ok (cancelled (dl c)) i) with (index_ok (dl c) i).
  all: destruct (negb (index_ok (dl c) i)); cbn [negb fst snd];
         [by rewrite Happ|].
  all: rewrite Happ.
  all: match goal with
       | |- context [if ?b then _ else _] => destruct b
       end; reflexivity.
Qed.

Lemma downloadLoop_cancelled i size body : forall c n,
  0 <= i < Chunks (dl c) ->
  downloadLoop (chunkFileName (dl c) i) i size body (cancelledCfg c) n =
    outcome_map (fun r => (cancelledCfg r.1.1, r.1.2, r.2))
      (downloadLoop (chunkFileName (dl c) i) i size body c n).
Proof.
  induction body as [|r body IH]; intros c n Hi; simpl; [reflexivity|].
  rewrite chunkIter_cancelled by done.
  destruct (chunkIter (chunkFileName (dl c) i) i size r c n)
    as [[c1 n1] ctl] eqn:Hit.
  apply chunkIter_ident in Hit as Hid. cbn [fst snd].
  destruct ctl as [| |e|msg]; cbn [outcome_map fst snd]; try reflexivity.
  rewrite <- (chunkFileName_ident _ _ i Hid).
  apply IH. destruct Hid as (_ & _ & -> & _). done.
Qed.

(** X11. Deleting a download does not stop it.  (a) When an active
    download is deleted after its probe and before its workers have
    created their files, and the origin serves the file, the workers still
    fetch every chunk: each temporary chunk file is written in full,
    nothing is merged (the output path holds what it held), the object
    stays in status error with the message Download cancelled, no update
    other than progress updates is published, and the id is gone from the
    registry, so a second delete cannot remove the files.  (b) A worker
    that is in its read loop when the delete removes its file reads on to
    the same end, with the same byte count and the same result as without
    the delete; what it writes after the removal reaches no file, so its
    chunk file is not on disk when it returns. *)
Theorem deleted_download_runs_on (o : Origin) (w : World) (id : string)
    (a : nat) (d : Download) (content : list Byte.byte) :
  downloads w !! id = Some a ->
  heap w !! a = Some d ->
  Status d = StatusDownloading ->
  in_downloads_dir d ->
  serves o content ->
  TotalSize d = Z.of_nat (length content) ->
  length (ChunkProgress d) = Z.to_nat (Chunks d) ->
  2 <= Chunks d <= Z.of_nat (length content) ->
  Z.of_nat (length content) < 2 ^ 63 ->
  (exists w1 c c' k,
     DeleteDownload id w = Done (w1, None) /\
     view a w1 = Some c /\
     downloadChunked o c = Done c' /\
     dl c' = set_ChunkProgress (ChunkProgress (dl c')) (cancelled d) /\
     (forall i, 0 <= i < Chunks d ->
        files c' !! chunkFileName d i =
          Some (slice content
                  (chunkRange d i (quot64 (TotalSize d) (Chunks d))))) /\
     files c' !! OutputPath d = wfiles w !! OutputPath d /\
     published c' = wpublished w ++ progress_events d k /\
     DeleteDownload id (commit a c' w1) =
       Done (commit a c' w1, Some "download not found")) /\
  (forall c i size body n c1 n1 e,
     view a w = Some c ->
     0 <= i < Chunks d ->
     downloadLoop (chunkFileName d i) i size body c n = Done (c1, n1, e) ->
     exists w1,
       DeleteDownload id w = Done (w1, None) /\
       view a w1 = Some (cancelledCfg c) /\
       downloadLoop (chunkFileName d i) i size body (cancelledCfg c) n
         = Done (cancelledCfg c1, n1, e) /\
       files (cancelledCfg c1) !! chunkFileName d i = None).
Proof.
  intros Hid Ha Hst Hdir Hserves HT Hlen Hn Hsmall. split.
  { by apply cancelled_runs_on. }
  intros c i size body n c1 n1 e Hview Hi Hloop.
  unfold view in Hview. rewrite Ha in Hview. injection Hview as <-.
  unfold DeleteDownload. rewrite Hid, Ha.
  destruct (decide (Status d = StatusDownloading)) as [_|]; [|done].
  eexists. split; [reflexivity|].
  split.
  { unfold view. cbn [heap wfiles wpublished wenv downloads].
    by rewrite lookup_insert_eq. }
  pose proof (downloadLoop_ident _ _ _ _ _ _ _ _ _ Hloop) as Hident.
  cbn [dl] in Hident.
  split.
  - pose proof (downloadLoop_cancelled i size body
                  (mkCfg d (wfiles w) (wpublished w) (wenv w)) n Hi) as H.
    cbn [dl] in H. rewrite H, Hloop. reflexivity.
  - unfold cancelledCfg. cbn [files].
    rewrite <- (chunkFileName_ident _ _ i Hident).
    apply removeChunkFiles_chunk. destruct Hident as (_ & _ & -> & _). done.
Qed.

Lemma deleted_download_runs_on_witness :
  (exists w1 c c',
     DeleteDownload "2" (world running_system) = Done (w1, None) /\
     view 0%nat w1 = Some c /\
     downloadChunked (rangeOrigin (bytes_of 7) "bytes") c = Done c' /\
     Status (dl c') = StatusError /\
     files c' !! "chunk_2_0.tmp" = Some (bytes_of 3) /\
     files c' !! "downloads/f.bin" = None) /\
  (exists c2,
     downloadLoop "chunk_2_0.tmp" 0 3
       [mkRead 0 (bytes_of 2) ErrNil; mkRead 0 (bytes_of 1) ErrEOF]
       (cancelledCfg downloading_cfg) 0 = Done (c2, 3, None) /\
     files c2 !! "chunk_2_0.tmp" = None /\
     Error (dl c2) = "Download cancelled").
Proof.
  assert (Hdir : in_downloads_dir (set_Status StatusDownloading (probed 7 2)))
    by (by exists "f.bin").
  assert (Hn : 2 <= Chunks (set_Status StatusDownloading (probed 7 2))
                 <= Z.of_nat (length (bytes_of 7))) by (simpl; lia).
  assert (Hsmall : Z.of_nat (length (bytes_of 7)) < 2 ^ 63) by (simpl; lia).
  destruct (deleted_download_runs_on (rangeOrigin (bytes_of 7) "bytes")
              (world running_system) "2" 0%nat
              (set_Status StatusDownloading (probed 7 2)) (bytes_of 7)
              eq_refl eq_refl eq_refl Hdir (rangeOrigin_serves _) eq_refl
              eq_refl Hn Hsmall)
    as [(w1 & c & c' & k & Hdel & Hview & Hrun & Hdl & Hfiles & Hout & _) HB].
  split.
  - exists w1, c, c'. split; [exact Hdel|]. split; [exact Hview|].
    split; [exact Hrun|]. split; [by rewrite Hdl|].
    split; [apply (Hfiles 0); simpl; lia|exact Hout].
  - destruct (downloadLoop "chunk_2_0.tmp" 0 3
                [mkRead 0 (bytes_of 2) ErrNil; mkRead 0 (bytes_of 1) ErrEOF]
                downloading_cfg 0) as [[[c1 n1] e]|msg|msg] eqn:Hloop.
    2,3: vm_compute in Hloop; discriminate Hloop.
    assert (Hi : 0 <= 0 < Chunks (set_Status StatusDownloading (probed 7 2)))
      by (simpl; lia).
    destruct (HB downloading_cfg 0 3 _ 0 c1 n1 e eq_refl Hi Hloop)
      as (w2 & _ & _ & Hloop' & Hgone).
    exists (cancelledCfg c1).
    assert (Hne : n1 = 3 /\ e = None).
    { vm_compute in Hloop. by injection Hloop as _ <- <-. }
    destruct Hne as [-> ->].
    split; [exact Hloop'|]. split; [exact Hgone|reflexivity].
Defined.

(** ** Pause, resume and the ticker *)







Lemma crashed_insert ws k (wk : Worker) :
  existsb (fun wk => match w_pc wk with Panicked _ => true | _ => false end) ws
    = false ->
  (forall msg, w_pc wk ≠ Panicked msg) ->
  existsb (fun wk => match w_pc wk with Panicked _ => true | _ => false end)
    (<[k := wk]> ws) = false.
Proof.
  intros Hws Hwk. revert k. induction ws as [|x ws IH]; intros k; [done|].
  simpl in Hws. apply orb_false_iff in Hws as [Hx Hws].
  destruct k as [|k]; simpl.
  - rewrite Hws, orb_false_r. destruct (w_pc wk) eqn:E; try done.
    by destruct (Hwk msg).
  - by rewrite Hx, IH.
Qed.

Lemma pause_resume_restores (o : Origin) (s : System) (id : string) (k : nat)
    (wk : Worker) (d : Download) :
  crashed s = false -> caller s = NoCall ->
  downloads (world s) !! id = Some (target s) ->
  heap (world s) !! target s = Some d ->
  Status d = StatusDownloading -> pauseChan d = None ->
  workers s !! k = Some wk -> w_pc wk = AtSelect ->
  run o [ActPause id; ActWorker k; ActReturn; ActResume id; ActWorker k;
         ActReturn] s =
    Some (mkSystem
            (mkWorld (downloads (world s)) (heap (world s)) (wfiles (world s))
               (wpublished (world s)
                  ++ [mkUpdate id "paused"; mkUpdate id "resumed"])
               (spawned (world s)) (wenv (world s)))
            (target s) (workers s) (updater s) NoCall
            (returned s ++ [None; None])).
Proof.
  destruct s as [[dls hp fs pub sp] t ws u cl ret]. unfold crashed.
  cbn [world target workers updater caller returned downloads heap wfiles
       wpublished spawned].
  intros Hcr -> Hid Ha Hst Hchan Hk Hpc.
  assert (Hlen : (k < length ws)%nat) by (by eapply lookup_lt_Some).
  assert (Hcr1 : existsb (fun wk => match w_pc wk with Panicked _ => true
                                    | _ => false end)
                   (<[k := set_pc AwaitResume wk]> ws) = false).
  { apply crashed_insert; [done|]. intros msg. discriminate. }
  assert (Hcr2 : existsb (fun wk => match w_pc wk with Panicked _ => true
                                    | _ => false end)
                   (<[k := set_pc AtSelect (set_pc AwaitResume wk)]>
                      (<[k := set_pc AwaitResume wk]> ws)) = false).
  { apply crashed_insert; [done|]. intros msg. discriminate. }
  (* the pause call up to its send *)
  cbn [run]. unfold step at 1, crashed. cbn [workers]. rewrite Hcr.
  unfold PauseDownload, callSend at 1. cbn [caller world downloads heap wfiles wpublished spawned target workers updater returned dl files published].
  rewrite Hid, Ha.
  destruct (decide (Status d = StatusDownloading)) as [_|]; [|done].
  (* worker k takes the value and parks *)
  unfold step at 1, crashed. cbn [workers]. rewrite Hcr.
  unfold view, set_heap. cbn [caller world downloads heap wfiles wpublished spawned target workers updater returned dl files published]. rewrite Hk, lookup_insert_eq.
  unfold workerStep at 1. rewrite Hpc. cbn [dl pauseChan set_pauseChan].
  (* the pause call returns *)
  unfold step at 1, crashed. cbn [workers]. rewrite Hcr1.
  unfold callReturn at 1, commit, set_heap, upd_dl. cbn [caller world downloads heap wfiles wpublished spawned target workers updater returned dl files published].
  rewrite lookup_insert_eq. cbn [pauseChan set_pauseChan].
  (* the resume call up to its send *)
  unfold step at 1, crashed. cbn [workers]. rewrite Hcr1.
  unfold ResumeDownload, callSend at 1. cbn [caller world downloads heap wfiles wpublished spawned target workers updater returned dl files published].
  rewrite Hid, lookup_insert_eq.
  cbn [Status set_Status set_pauseChan].
  destruct (decide (StatusPaused = StatusPaused)) as [_|]; [|done].
  (* worker k takes the value and goes back to its select *)
  unfold step at 1, crashed. cbn [workers]. rewrite Hcr1.
  unfold view, set_heap. cbn [caller world downloads heap wfiles wpublished spawned target workers updater returned dl files published].
  rewrite list_lookup_insert_eq by done. rewrite lookup_insert_eq.
  unfold workerStep at 1. cbn [w_pc set_pc dl pauseChan set_pauseChan].
  (* the resume call returns *)
  unfold step at 1, crashed. cbn [workers]. rewrite Hcr2.
  unfold callReturn at 1, commit, set_heap, upd_dl. cbn [caller world downloads heap wfiles wpublished spawned target workers updater returned dl files published].
  rewrite lookup_insert_eq. cbn [pauseChan set_pauseChan].
  f_equal. f_equal; [f_equal| |].
  - rewrite !insert_insert_eq. apply insert_id. rewrite Ha. f_equal.
    destruct d; simpl in *; by subst.
  - by rewrite <- app_assoc.
  - rewrite list_insert_insert_eq. apply list_insert_id. rewrite Hk. f_equal.
    destruct wk; simpl in *; by subst.
  - by rewrite <- app_assoc.
Qed.

(** X13. Pause and resume are a round trip for the worker that takes the
    two values.  From a state with no call in flight and no worker parked,
    in which worker [k] of a downloading download is at its select, the
    pause call, the worker's receive, the resume call and the worker's
    second receive leave the registry, every download object, the files
    and every worker exactly as they were; the two calls have returned nil
    and published one paused and one resumed update, in this order. *)
Theorem pause_resume_round_trip (o : Origin) (s : System) (id : string)
    (k : nat) (wk : Worker) (d : Download) :
  crashed s = false -> caller s = NoCall -> none_parked s ->
  downloads (world s) !! id = Some (target s) ->
  heap (world s) !! target s = Some d ->
  Status d = StatusDownloading -> pauseChan d = None ->
  workers s !! k = Some wk -> w_pc wk = AtSelect ->
  run o [ActPause id; ActWorker k; ActReturn; ActResume id; ActWorker k;
         ActReturn] s =
    Some (mkSystem
            (mkWorld (downloads (world s)) (heap (world s)) (wfiles (world s))
               (wpublished (world s)
                  ++ [mkUpdate id "paused"; mkUpdate id "resumed"])
               (spawned (world s)) (wenv (world s)))
            (target s) (workers s) (updater s) NoCall
            (returned s ++ [None; None])).
Proof. intros Hcr Hcall _. by apply pause_resume_restores. Qed.

Lemma pause_resume_round_trip_witness :
  exists s s',
    run trickleOrigin [ActWorker 0; ActWorker 1] running_system = Some s /\
    run trickleOrigin
      [ActPause "2"; ActWorker 1; ActReturn; ActResume "2"; ActWorker 1;
       ActReturn] s = Some s' /\
    workers s' = workers s /\
    UpdateType <$> wpublished (world s') = ["paused"; "resumed"].
Proof.
  destruct (run trickleOrigin [ActWorker 0; ActWorker 1] running_system)
    as [s|] eqn:Hs; [|vm_compute in Hs; discriminate Hs].
  vm_compute in Hs. injection Hs as <-.
  match goal with
  | |- exists s s', Some ?s0 = Some s /\ _ =>
      pose proof (pause_resume_round_trip trickleOrigin s0 "2" 1%nat _
                    (set_Status StatusDownloading (probed 7 2))
                    eq_refl eq_refl
                    ltac:(repeat constructor; discriminate)
                    eq_refl eq_refl eq_refl eq_refl eq_refl eq_refl) as Hrt
  end.
  eexists _, _. split; [reflexivity|]. split; [exact Hrt|].
  split; reflexivity.
Defined.

(** *** The ticker after a pause *)

Lemma workerStep_ticker_fields o wk c wk' c' :
  workerStep o wk c = Some (wk', c') ->
  ticker_fields (dl c') = ticker_fields (dl c).
Proof.
  unfold workerStep. intros H. destruct (w_pc wk).
  - destruct (chunkOpen o c _ _) as [c1 [[[name size] body]|e]] eqn:Hopen;
      injection H as _ <-.
    all: unfold chunkOpen in Hopen;
      destruct (do_get o _) as [msg|msg|code cl ar b];
      try (by injection Hopen as <- _).
    all: destruct (negb _); by injection Hopen as <- _.
  - destruct (pauseChan (dl c)); [by injection H as _ <-|].
    destruct (w_body wk) as [|r body].
    + unfold chunkFinish in H. destruct (negb _); by injection H as _ <-.
    + destruct (chunkIter _ _ _ r c _) as [[c1 n1] ctl] eqn:Hit.
      apply chunkIter_slots in Hit as (Hd & _).
      assert (Ht : ticker_fields (dl c1) = ticker_fields (dl c))
        by (by rewrite Hd).
      destruct ctl; try (by injection H as _ <-).
      unfold chunkFinish in H. destruct (negb _); by injection H as _ <-.
  - destruct (pauseChan (dl c)); [by injection H as _ <-|done].
  - done.
  - done.
Qed.

Lemma step_without_ticker o act s s' :
  updater s = false -> step o act s = Some s' ->
  updater s' = false /\ (forall now, act ≠ ActTick now) /\
  target s' = target s /\ targetTotals s' = targetTotals s.
Proof.
  intros Hu Hstep. unfold step in Hstep. destruct (crashed s); [done|].
  unfold targetTotals. destruct act as [k|now|id|id|].
  - destruct (workers s !! k) as [wk|]; [|done].
    destruct (view (target s) (world s)) as [c|] eqn:Hview; [|done].
    destruct (workerStep o wk c) as [[wk' c']|] eqn:Hw; [|done].
    injection Hstep as <-. cbn. split; [done|]. split; [done|].
    split; [done|]. rewrite lookup_insert_eq.
    apply workerStep_ticker_fields in Hw. unfold view in Hview.
    destruct (heap (world s) !! target s); [|done].
    injection Hview as <-. simpl in *. by rewrite Hw.
  - by rewrite Hu in Hstep.
  - unfold PauseDownload, callSend in Hstep.
    destruct (caller s); [|done].
    destruct (downloads (world s) !! id) as [a|];
      [|by injection Hstep as <-].
    destruct (heap (world s) !! a) as [d|] eqn:Ha; [|done].
    destruct (decide _); injection Hstep as <-; cbn; [|done].
    split; [done|]. split; [done|]. split; [done|].
    destruct (decide (a = target s)) as [->|Hne].
    + by rewrite lookup_insert_eq, Ha.
    + by rewrite lookup_insert_ne.
  - unfold ResumeDownload, callSend in Hstep.
    destruct (caller s); [|done].
    destruct (downloads (world s) !! id) as [a|];
      [|by injection Hstep as <-].
    destruct (heap (world s) !! a) as [d|] eqn:Ha; [|done].
    destruct (decide _); injection Hstep as <-; cbn; [|done].
    split; [done|]. split; [done|]. split; [done|].
    destruct (decide (a = target s)) as [->|Hne].
    + by rewrite lookup_insert_eq, Ha.
    + by rewrite lookup_insert_ne.
  - unfold callReturn in Hstep. destruct (caller s); [done|].
    destruct (heap (world s) !! a); [|done].
    destruct (pauseChan d); [done|]. by injection Hstep as <-.
Qed.

Lemma run_without_ticker o acts s s' :
  updater s = false -> run o acts s = Some s' ->
  updater s' = false /\ (forall now, ActTick now ∉ acts) /\
  targetTotals s' = targetTotals s.
Proof.
  revert s. induction acts as [|act acts IH]; intros s Hu Hrun.
  - injection Hrun as <-. split; [done|]. split; [|done].
    intros now Hin. by apply elem_of_nil in Hin.
  - cbn [run] in Hrun. destruct (step o act s) as [s1|] eqn:Hstep; [|done].
    apply (step_without_ticker _ _ _ _ Hu) in Hstep as (Hu1 & Hact & _ & Ht1).
    destruct (IH s1 Hu1 Hrun) as (Hu' & Hacts & Ht').
    split; [done|]. split; [|congruence].
    intros now Hin. apply elem_of_cons in Hin as [Heq|Hin].
    + by apply (Hact now).
    + by apply (Hacts now).
Qed.

Lemma ticker_returns o s now d :
  crashed s = false -> updater s = true ->
  heap (world s) !! target s = Some d ->
  Status d ≠ StatusDownloading ->
  exists s1,
    step o (ActTick now) s = Some s1 /\
    world s1 = world s /\ workers s1 = workers s /\
    forall acts s2, run o acts s1 = Some s2 ->
      updater s2 = false /\ (forall now', ActTick now' ∉ acts) /\
      targetTotals s2 = targetTotals s.
Proof.
  intros Hcr Hu Hd Hst. unfold step. rewrite Hcr, Hu. unfold view. rewrite Hd.
  unfold updateProgressTick. cbn [dl].
  destruct (decide (Status d = StatusDownloading)); [done|].
  eexists. split; [reflexivity|]. split; [done|]. split; [done|].
  intros acts s2 Hrun. by apply run_without_ticker in Hrun.
Qed.

(** X14. The progress ticker ends at the first tick that finds the download
    not downloading, and nothing starts it again.  After a tick during a
    pause, no tick is ever taken again, whatever is scheduled afterwards,
    a resume included: while the workers go on, no worker and no pause or
    resume call writes the fields the ticker maintained (overall progress,
    downloaded, speed, time remaining and the two last-update fields). *)
Theorem ticker_ends_at_pause (o : Origin) (s : System) (now : Z)
    (d : Download) :
  crashed s = false -> updater s = true ->
  heap (world s) !! target s = Some d ->
  Status d ≠ StatusDownloading ->
  exists s1,
    step o (ActTick now) s = Some s1 /\
    world s1 = world s /\ workers s1 = workers s /\
    forall acts s2, run o acts s1 = Some s2 ->
      updater s2 = false /\ (forall now', ActTick now' ∉ acts) /\
      targetTotals s2 = targetTotals s.
Proof. apply ticker_returns. Qed.

Lemma ticker_ends_at_pause_witness :
  exists s s1 s2,
    run trickleOrigin
      [ActWorker 0; ActWorker 1; ActPause "2"; ActWorker 0; ActReturn]
      running_system = Some s /\
    step trickleOrigin (ActTick 5) s = Some s1 /\
    run trickleOrigin [ActResume "2"; ActWorker 0; ActReturn; ActWorker 0] s1
      = Some s2 /\
    targetStatus s2 = Some StatusDownloading /\
    updater s2 = false /\
    step trickleOrigin (ActTick 6) s2 = None.
Proof.
  destruct (run trickleOrigin
              [ActWorker 0; ActWorker 1; ActPause "2"; ActWorker 0; ActReturn]
              running_system) as [s|] eqn:Hs;
    [|vm_compute in Hs; discriminate Hs].
  assert (Hd : exists d, heap (world s) !! target s = Some d /\
                 Status d ≠ StatusDownloading /\
                 crashed s = false /\ updater s = true).
  { vm_compute in Hs. injection Hs as <-. eexists. split; [reflexivity|].
    split; [discriminate|]. split; reflexivity. }
  destruct Hd as (d & Hd & Hst & Hcr & Hu).
  destruct (ticker_ends_at_pause trickleOrigin s 5 d Hcr Hu Hd Hst)
    as (s1 & Hstep & Hw & Hws & Hall).
  destruct (run trickleOrigin
              [ActResume "2"; ActWorker 0; ActReturn; ActWorker 0] s1)
    as [s2|] eqn:Hrun.
  - exists s, s1, s2. split; [reflexivity|]. split; [exact Hstep|].
    split; [exact Hrun|].
    destruct (Hall _ _ Hrun) as (Hu2 & _ & _).
    split; [|split; [exact Hu2|]].
    + vm_compute in Hs. injection Hs as <-.
      vm_compute in Hstep. injection Hstep as <-.
      vm_compute in Hrun. injection Hrun as <-. reflexivity.
    + unfold step. destruct (crashed s2); [reflexivity|]. by rewrite Hu2.
  - exfalso. vm_compute in Hs. injection Hs as <-.
    vm_compute in Hstep. injection Hstep as <-.
    vm_compute in Hrun. discriminate Hrun.
Defined.

(** ** Subscribers *)

Lemma offer_all_take (us : list DownloadUpdate) (q : list DownloadUpdate) :
  (length q <= Fanout.cap)%nat ->
  foldl (fun q u => Fanout.offer u q) q us = take Fanout.cap (q ++ us).
Proof.
  revert q. induction us as [|u us IH]; intros q Hq; simpl.
  - rewrite app_nil_r. by rewrite take_ge.
  - unfold Fanout.offer at 2.
    destruct (Nat.ltb_spec (length q) Fanout.cap) as [Hlt|Hge].
    + rewrite IH by (rewrite length_app; simpl; lia).
      by rewrite <- app_assoc.
    + rewrite IH by done. rewrite !take_app_le by lia. done.
Qed.

Lemma broadcast_all_lookup us ls i q :
  ls !! i = Some q ->
  foldl (fun ls u => Fanout.broadcastUpdate u ls) ls us !! i =
    Some (foldl (fun q u => Fanout.offer u q) q us).
Proof.
  revert ls q. induction us as [|u us IH]; intros ls q Hq; simpl; [done|].
  apply IH. unfold Fanout.broadcastUpdate. by rewrite list_lookup_fmap, Hq.
Qed.

(** X15. A subscriber that does not receive is sent the first hundred
    updates published after it subscribed and none of the later ones:
    broadcastUpdate skips a listener whose channel is full. *)
Theorem idle_listener_keeps_first_hundred (ls : Fanout.Listeners)
    (us : list DownloadUpdate) :
  foldl (fun ls u => Fanout.broadcastUpdate u ls) (Fanout.Subscribe ls).1 us
    !! (Fanout.Subscribe ls).2 = Some (take 100 us).
Proof.
  unfold Fanout.Subscribe. cbn [fst snd].
  rewrite (broadcast_all_lookup us _ _ []).
  - rewrite offer_all_take by (simpl; unfold Fanout.cap; lia). done.
  - by rewrite lookup_app_r, Nat.sub_diag.
Qed.

Lemma fanout_delivery ops : forall b b' i q g,
  Fanout.run ops b = Some b' ->
  Fanout.queues b !! i = Some q ->
  Fanout.got b !! i = Some g ->
  exists q' g' kept,
    Fanout.queues b' !! i = Some q' /\
    Fanout.got b' !! i = Some g' /\
    (length q' <= Nat.max (length q) Fanout.cap)%nat /\
    g' ++ q' = g ++ q ++ kept /\
    sublist kept (Fanout.broadcasts ops) /\
    ((length q + length (Fanout.broadcasts ops) <= Fanout.cap)%nat ->
     kept = Fanout.broadcasts ops).
Proof.
  induction ops as [|op ops IH]; intros b b' i q g Hrun Hq Hg.
  - injection Hrun as <-. exists q, g, []. rewrite app_nil_r.
    repeat split; try done. lia.
  - cbn [Fanout.run] in Hrun.
    destruct (Fanout.exec op b) as [b1|] eqn:Hex; [|done].
    destruct op as [|u|j]; cbn [Fanout.exec] in Hex.
    + injection Hex as <-.
      change (Fanout.broadcasts (Fanout.OpSubscribe :: ops))
        with (Fanout.broadcasts ops).
      destruct (IH _ _ i q g Hrun) as (q' & g' & kept & H1 & H2 & H3 & H4 & H5 & H6).
      { cbn. by apply lookup_app_l_Some. }
      { cbn. by apply lookup_app_l_Some. }
      exists q', g', kept. done.
    + injection Hex as <-.
      destruct (IH _ _ i (Fanout.offer u q) g Hrun)
        as (q' & g' & kept & H1 & H2 & H3 & H4 & H5 & H6).
      { cbn. unfold Fanout.broadcastUpdate. by rewrite list_lookup_fmap, Hq. }
      { done. }
      unfold Fanout.offer in *.
      change (Fanout.broadcasts (Fanout.OpBroadcast u :: ops))
        with (u :: Fanout.broadcasts ops).
      destruct (Nat.ltb_spec (length q) Fanout.cap) as [Hlt|Hge].
      * exists q', g', (u :: kept). split; [done|]. split; [done|].
        split; [rewrite length_app in H3; cbn [length] in H3; lia|].
        split; [by rewrite H4, <- app_assoc|].
        split; [by constructor|].
        intros Hroom. rewrite H6; [done|].
        rewrite length_app. cbn [length] in *. lia.
      * exists q', g', kept. split; [done|]. split; [done|].
        split; [done|]. split; [done|].
        split; [by apply sublist_cons|].
        intros Hroom. cbn [length] in Hroom. lia.
    + unfold Fanout.receive in Hex.
      destruct (Fanout.queues b !! j) as [[|u qj]|] eqn:Hj; [done| |done].
      injection Hex as <-.
      change (Fanout.broadcasts (Fanout.OpReceive j :: ops))
        with (Fanout.broadcasts ops).
      destruct (decide (i = j)) as [->|Hne].
      * rewrite Hq in Hj. injection Hj as ->.
        destruct (IH _ _ j qj (g ++ [u]) Hrun)
          as (q' & g' & kept & H1 & H2 & H3 & H4 & H5 & H6).
        { cbn. apply list_lookup_insert_eq. by eapply lookup_lt_Some. }
        { cbn. by rewrite list_lookup_alter_eq, Hg. }
        exists q', g', kept. split; [done|]. split; [done|].
        split; [cbn [length]; lia|].
        split; [by rewrite H4, <- app_assoc|]. split; [done|].
        intros Hroom. apply H6. cbn [length] in Hroom. lia.
      * destruct (IH _ _ i q g Hrun)
          as (q' & g' & kept & H1 & H2 & H3 & H4 & H5 & H6).
        { cbn. by rewrite list_lookup_insert_ne. }
        { cbn. by rewrite list_lookup_alter_ne. }
        exists q', g', kept. done.
Qed.

(** X16. Whatever the interleaving of subscriptions, broadcasts and
    receives, what a subscriber has received plus what waits in its
    channel is what it had, followed by a subsequence of the updates
    broadcast since, in the order of publication: updates may be missing
    but none is duplicated, reordered or invented, and the channel never
    holds more than 100.  If the channel had room for all of them,
    nothing is missing. *)
Theorem listener_sees_subsequence (ops : list Fanout.Op) (b b' : Fanout.Bus)
    (i : nat) (q g : list DownloadUpdate) :
  Fanout.run ops b = Some b' ->
  Fanout.queues b !! i = Some q ->
  Fanout.got b !! i = Some g ->
  exists q' g' kept,
    Fanout.queues b' !! i = Some q' /\
    Fanout.got b' !! i = Some g' /\
    (length q' <= Nat.max (length q) Fanout.cap)%nat /\
    g' ++ q' = g ++ q ++ kept /\
    sublist kept (Fanout.broadcasts ops) /\
    ((length q + length (Fanout.broadcasts ops) <= Fanout.cap)%nat ->
     kept = Fanout.broadcasts ops).
Proof. apply fanout_delivery. Qed.

Lemma listener_sees_subsequence_witness :
  exists b' : Fanout.Bus,
    Fanout.run
      [Fanout.OpBroadcast (mkUpdate "2" "status"); Fanout.OpReceive 0;
       Fanout.OpBroadcast (mkUpdate "2" "completed")]
      (Fanout.mkBus [[]] [[]]) = Some b' /\
    Fanout.got b' !! 0%nat = Some [mkUpdate "2" "status"] /\
    Fanout.queues b' !! 0%nat = Some [mkUpdate "2" "completed"].
Proof.
  destruct (Fanout.run
              [Fanout.OpBroadcast (mkUpdate "2" "status"); Fanout.OpReceive 0;
               Fanout.OpBroadcast (mkUpdate "2" "completed")]
              (Fanout.mkBus [[]] [[]])) as [b'|] eqn:Hrun;
    [|vm_compute in Hrun; discriminate Hrun].
  destruct (listener_sees_subsequence _ _ _ 0%nat [] [] Hrun eq_refl eq_refl)
    as (q' & g' & kept & Hq & Hg & _ & _ & _ & _).
  exists b'. split; [reflexivity|].
  vm_compute in Hrun. injection Hrun as <-. split; reflexivity.
Defined.

(** ** The websocket hub *)

Lemma hub_deliver (m : string) (c : nat) (h : Hub.State) :
  Hub.wf h -> c ∈ Hub.clients h ->
  exists h' ch,
    Hub.conns h !! c = Some ch /\
    Hub.deliver m c h = Done h' /\ Hub.wf h' /\
    Hub.wire h' = Hub.wire h /\
    Hub.conns h' = <[c := Hub.push m ch]> (Hub.conns h) /\
    forall x, x ∈ Hub.clients h' <->
      x ∈ Hub.clients h /\ (x = c -> (length (Hub.buf ch) < Hub.sendCap)%nat).
Proof.
  intros [Hopen Hcap] Hc. destruct (Hopen c Hc) as (ch & Hch & Hcl).
  unfold Hub.deliver. rewrite Hch, Hcl.
  pose proof (Hcap c ch Hch) as Hlen.
  destruct (Nat.ltb_spec (length (Hub.buf ch)) Hub.sendCap) as [Hlt|Hge].
  - eexists _, ch. split; [done|]. split; [reflexivity|]. cbn.
    split; [split|].
    + intros x Hx. cbn in *. destruct (decide (x = c)) as [->|Hne].
      * rewrite lookup_insert_eq. by eexists.
      * rewrite lookup_insert_ne by done. by apply Hopen.
    + intros x chx. cbn. destruct (decide (x = c)) as [->|Hne].
      * rewrite lookup_insert_eq. intros [= <-]. cbn.
        rewrite length_app. simpl. lia.
      * rewrite lookup_insert_ne by done. apply Hcap.
    + split; [done|]. split.
      { unfold Hub.push. by rewrite (proj2 (Nat.ltb_lt _ _) Hlt). }
      intros x. split; [by intros ?|by intros [? _]].
  - eexists _, ch. split; [done|]. split; [reflexivity|]. cbn.
    split; [split|].
    + intros x Hx. cbn in *. apply elem_of_difference in Hx as [Hx Hne].
      rewrite lookup_insert_ne.
      * by apply Hopen.
      * intros <-. apply Hne. by apply elem_of_singleton.
    + intros x chx. cbn. destruct (decide (x = c)) as [->|Hne].
      * rewrite lookup_insert_eq. by intros [= <-].
      * rewrite lookup_insert_ne by done. apply Hcap.
    + split; [done|]. split.
      { unfold Hub.push. by rewrite (proj2 (Nat.ltb_ge _ _) Hge). }
      intros x. rewrite elem_of_difference, elem_of_singleton. split.
      * intros [Hx Hne]. split; [done|]. intros ->. done.
      * intros [Hx Himp]. split; [done|]. intros ->.
        specialize (Himp eq_refl). lia.
Qed.

Lemma hub_deliverAll (m : string) (cs : list nat) : forall h,
  Hub.wf h -> NoDup cs -> (forall c, c ∈ cs -> c ∈ Hub.clients h) ->
  exists h',
    Hub.deliverAll m cs h = Done h' /\ Hub.wf h' /\
    Hub.wire h' = Hub.wire h /\
    (forall x, Hub.conns h' !! x =
       if decide (x ∈ cs) then Hub.push m <$> Hub.conns h !! x
       else Hub.conns h !! x) /\
    forall x, x ∈ Hub.clients h' <->
      x ∈ Hub.clients h /\
      (x ∈ cs -> exists ch, Hub.conns h !! x = Some ch /\
                   (length (Hub.buf ch) < Hub.sendCap)%nat).
Proof.
  induction cs as [|c cs IH]; intros h Hwf Hnd Hin.
  - exists h. split; [done|]. split; [done|]. split; [done|]. split.
    + intros x. destruct (decide (x ∈ [])) as [Hx|_]; [|done].
      by apply elem_of_nil in Hx.
    + intros x. split; [|by intros [? _]]. intros Hx. split; [done|].
      intros Hx'. by apply elem_of_nil in Hx'.
  - apply NoDup_cons in Hnd as [Hc Hnd].
    destruct (hub_deliver m c h Hwf) as (h1 & ch & Hch & Hd & Hwf1 & Hw1 & Hc1 & Hcl1).
    { apply Hin. by left. }
    destruct (IH h1 Hwf1 Hnd) as (h' & Hrun & Hwf' & Hw' & Hconns & Hcl').
    { intros x Hx. apply Hcl1. split; [apply Hin; by right|].
      intros ->. done. }
    exists h'. cbn [Hub.deliverAll]. rewrite Hd. split; [done|].
    split; [done|]. split; [congruence|]. split.
    + intros x. rewrite Hconns, Hc1.
      destruct (decide (x = c)) as [->|Hne].
      * rewrite lookup_insert_eq.
        destruct (decide (c ∈ cs)) as [|_]; [done|].
        destruct (decide (c ∈ c :: cs)) as [_|Hn]; [by rewrite Hch|].
        exfalso. apply Hn. by left.
      * rewrite lookup_insert_ne by done.
        destruct (decide (x ∈ cs)) as [Hx|Hx];
          destruct (decide (x ∈ c :: cs)) as [Hx'|Hx']; try done.
        -- exfalso. apply Hx'. by right.
        -- exfalso. apply elem_of_cons in Hx' as [|]; done.
    + intros x. rewrite Hcl', Hcl1, Hc1. split.
      * intros [[Hx Himp] Hcs]. split; [done|].
        intros Hx'. apply elem_of_cons in Hx' as [->|Hx'].
        -- exists ch. split; [done|]. by apply Himp.
        -- destruct (Hcs Hx') as (chx & Hchx & Hlen).
           rewrite lookup_insert_ne in Hchx by (intros <-; done).
           by exists chx.
      * intros [Hx Himp]. split; [split; [done|]|].
        -- intros ->. destruct Himp as (chx & Hchx & Hlen); [by left|].
           rewrite Hch in Hchx. by injection Hchx as <-.
        -- intros Hx'. destruct Himp as (chx & Hchx & Hlen); [by right|].
           exists chx. rewrite lookup_insert_ne by (intros <-; done). done.
Qed.

Lemma hub_broadcast (m : string) (h : Hub.State) :
  Hub.wf h ->
  exists h',
    Hub.broadcast m h = Done h' /\ Hub.wf h' /\
    Hub.wire h' = Hub.wire h /\
    (forall x, Hub.conns h' !! x =
       if decide (x ∈ Hub.clients h) then Hub.push m <$> Hub.conns h !! x
       else Hub.conns h !! x) /\
    forall x, x ∈ Hub.clients h' <->
      x ∈ Hub.clients h /\
      exists ch, Hub.conns h !! x = Some ch /\
                 (length (Hub.buf ch) < Hub.sendCap)%nat.
Proof.
  intros Hwf. unfold Hub.broadcast.
  destruct (hub_deliverAll m (elements (Hub.clients h)) h Hwf)
    as (h' & Hrun & Hwf' & Hw & Hconns & Hcl).
  { apply NoDup_elements. }
  { intros c. by rewrite elem_of_elements. }
  exists h'. split; [done|]. split; [done|]. split; [done|]. split.
  - intros x. rewrite Hconns.
    destruct (decide (x ∈ elements (Hub.clients h))) as [Hx|Hx];
      destruct (decide (x ∈ Hub.clients h)) as [Hx'|Hx']; try done;
      rewrite elem_of_elements in Hx; done.
  - intros x. rewrite Hcl. split.
    + intros [Hx Himp]. split; [done|]. apply Himp. by rewrite elem_of_elements.
    + intros [Hx Himp]. done.
Qed.

Lemma hub_exec (op : Hub.Op) (h : Hub.State) :
  Hub.wf h -> exists h', Hub.exec op h = Done h' /\ Hub.wf h'.
Proof.
  intros Hwf. destruct op as [|c|m|c]; cbn [Hub.exec].
  - eexists. split; [reflexivity|]. destruct Hwf as [Hopen Hcap].
    unfold Hub.connect. cbn. split.
    + intros x Hx. cbn in *. apply elem_of_union in Hx as [Hx|Hx].
      * apply elem_of_singleton in Hx as ->. rewrite lookup_insert_eq.
        by eexists.
      * destruct (Hopen x Hx) as (ch & Hch & Hcl).
        rewrite lookup_insert_ne; [by exists ch|].
        intros <-. apply (is_fresh (dom (Hub.conns h))).
        apply elem_of_dom. by eexists.
    + intros x chx. cbn.
      destruct (decide (x = fresh (dom (Hub.conns h)))) as [->|Hne].
      * rewrite lookup_insert_eq. intros [= <-]. cbn. unfold Hub.sendCap. lia.
      * rewrite lookup_insert_ne by done. apply Hcap.
  - unfold Hub.unregister. destruct (decide (c ∈ Hub.clients h)) as [Hc|Hc];
      [|by exists h].
    destruct Hwf as [Hopen Hcap]. destruct (Hopen c Hc) as (ch & Hch & Hcl).
    rewrite Hch, Hcl. eexists. split; [reflexivity|]. split.
    + intros x Hx. cbn in *. apply elem_of_difference in Hx as [Hx Hne].
      rewrite lookup_insert_ne.
      * by apply Hopen.
      * intros <-. apply Hne. by apply elem_of_singleton.
    + intros x chx. cbn. destruct (decide (x = c)) as [->|Hne].
      * rewrite lookup_insert_eq. intros [= <-]. cbn. by eapply Hcap.
      * rewrite lookup_insert_ne by done. apply Hcap.
  - destruct (hub_broadcast m h Hwf) as (h' & Hrun & Hwf' & _). by exists h'.
  - eexists. split; [reflexivity|]. unfold Hub.writePump.
    destruct (Hub.conns h !! c) as [[[|m rest] cl]|] eqn:Hch; [done| |done].
    destruct Hwf as [Hopen Hcap]. split.
    + intros x Hx. cbn in *. destruct (decide (x = c)) as [->|Hne].
      * rewrite lookup_insert_eq. destruct (Hopen c Hx) as (ch & Hch' & Hcl).
        rewrite Hch in Hch'. injection Hch' as <-. by eexists.
      * rewrite lookup_insert_ne by done. by apply Hopen.
    + intros x chx. cbn. destruct (decide (x = c)) as [->|Hne].
      * rewrite lookup_insert_eq. intros [= <-]. cbn.
        pose proof (Hcap c _ Hch) as Hlen. cbn in Hlen. lia.
      * rewrite lookup_insert_ne by done. apply Hcap.
Qed.

Lemma hub_run (ops : list Hub.Op) : forall h,
  Hub.wf h -> exists h', Hub.run ops h = Done h' /\ Hub.wf h'.
Proof.
  induction ops as [|op ops IH]; intros h Hwf; [by exists h|].
  destruct (hub_exec op h Hwf) as (h1 & Hex & Hwf1).
  destruct (IH h1 Hwf1) as (h' & Hrun & Hwf').
  exists h'. cbn [Hub.run]. by rewrite Hex.
Qed.

Lemma hub_wf_new : Hub.wf Hub.NewHub.
Proof.
  split.
  - intros c Hc. cbn in Hc. by apply elem_of_empty in Hc.
  - intros c ch Hch. cbn in Hch. by rewrite lookup_empty in Hch.
Qed.

(** X17. The hub never panics.  Starting from a new hub, along every
    sequence of connections, disconnections, messages and writes, the
    loop of Hub.Run never sends on a closed channel and never closes a
    channel twice; every client still registered has an open channel,
    and no channel ever holds more than 256 messages. *)
Theorem hub_never_panics (ops : list Hub.Op) :
  exists h,
    Hub.run ops Hub.NewHub = Done h /\
    (forall c, c ∈ Hub.clients h ->
       exists ch, Hub.conns h !! c = Some ch /\ Hub.closed ch = false) /\
    (forall c ch, Hub.conns h !! c = Some ch ->
       (length (Hub.buf ch) <= 256)%nat).
Proof.
  destruct (hub_run ops Hub.NewHub hub_wf_new) as (h & Hrun & Hopen & Hcap).
  exists h. done.
Qed.





Lemma hub_messages_unregistered (msgs : list string) : forall h c,
  Hub.wf h -> c ∉ Hub.clients h ->
  exists h',
    Hub.run (Hub.Message <$> msgs) h = Done h' /\
    Hub.conns h' !! c = Hub.conns h !! c /\ c ∉ Hub.clients h'.
Proof.
  induction msgs as [|m msgs IH]; intros h c Hwf Hc; [by exists h|].
  cbn [fmap list_fmap Hub.run Hub.exec].
  destruct (hub_broadcast m h Hwf) as (h1 & Hrun1 & Hwf1 & _ & Hconns & Hcl).
  rewrite Hrun1.
  destruct (IH h1 c Hwf1) as (h' & Hrun & Hch & Hc').
  { rewrite Hcl. by intros [? _]. }
  exists h'. split; [done|]. split; [|done].
  rewrite Hch, Hconns. by destruct (decide (c ∈ Hub.clients h)).
Qed.

Lemma hub_messages_only (msgs : list string) : forall h c b,
  Hub.wf h -> c ∈ Hub.clients h ->
  Hub.conns h !! c = Some (Hub.mkChan b false) ->
  exists h',
    Hub.run (Hub.Message <$> msgs) h = Done h' /\
    Hub.conns h' !! c =
      Some (Hub.mkChan (take Hub.sendCap (b ++ msgs))
              (bool_decide (Hub.sendCap < length (b ++ msgs))%nat)) /\
    (c ∈ Hub.clients h' <-> (length (b ++ msgs) <= Hub.sendCap)%nat).
Proof.
  induction msgs as [|m msgs IH]; intros h c b Hwf Hc Hch.
  - pose proof (proj2 Hwf c _ Hch) as Hlen. cbn in Hlen.
    exists h. split; [done|]. rewrite app_nil_r.
    rewrite take_ge by lia. rewrite bool_decide_eq_false_2 by lia.
    split; [done|]. split; [lia|done].
  - pose proof (proj2 Hwf c _ Hch) as Hlen. cbn in Hlen.
    cbn [fmap list_fmap Hub.run Hub.exec].
    destruct (hub_broadcast m h Hwf) as (h1 & Hrun1 & Hwf1 & Hw & Hconns & Hcl).
    rewrite Hrun1.
    assert (Hc1 : Hub.conns h1 !! c = Some (Hub.push m (Hub.mkChan b false))).
    { rewrite Hconns. destruct (decide (c ∈ Hub.clients h)); [|done].
      by rewrite Hch. }
    unfold Hub.push in Hc1. cbn [Hub.buf] in Hc1.
    destruct (Nat.ltb_spec (length b) Hub.sendCap) as [Hlt|Hge].
    + destruct (IH h1 c (b ++ [m]) Hwf1) as (h' & Hrun & Hch' & Hcl'); [|done|].
      { apply Hcl. split; [done|]. eexists. split; [exact Hch|]. done. }
      exists h'. split; [done|]. rewrite <- app_assoc in Hch', Hcl'. done.
    + destruct (hub_messages_unregistered msgs h1 c Hwf1)
        as (h' & Hrun & Hch' & Hc').
      { rewrite Hcl. intros [_ (ch' & Hch' & Hlen')].
        rewrite Hch in Hch'. injection Hch' as <-. cbn in Hlen'. lia. }
      exists h'. split; [done|]. rewrite Hch', Hc1.
      rewrite take_app_le by lia. rewrite take_ge by lia.
      rewrite bool_decide_eq_true_2 by (rewrite length_app; simpl; lia).
      split; [done|]. rewrite length_app. simpl. split; [done|lia].
Qed.

(** X19. A client that does not drain its channel is dropped at the first
    message that finds 256 waiting.  After any number of messages with
    nothing else happening, the channel of a registered client holds the
    first 256 of what it held plus the messages; if that was more than
    256 the channel has been closed and the client removed from the hub,
    otherwise it is open and the client is still registered. *)
Theorem slow_client_dropped (msgs : list string) (h : Hub.State) (c : nat)
    (b : list string) :
  Hub.wf h -> c ∈ Hub.clients h ->
  Hub.conns h !! c = Some (Hub.mkChan b false) ->
  exists h',
    Hub.run (Hub.Message <$> msgs) h = Done h' /\
    Hub.conns h' !! c =
      Some (Hub.mkChan (take 256 (b ++ msgs))
              (bool_decide (256 < length (b ++ msgs))%nat)) /\
    (c ∈ Hub.clients h' <-> (length (b ++ msgs) <= 256)%nat).
Proof. apply hub_messages_only. Qed.

Lemma slow_client_dropped_witness :
  exists h h',
    Hub.run [Hub.Connect] Hub.NewHub = Done h /\
    Hub.run (Hub.Message <$> replicate 257 "m") h = Done h' /\
    Hub.closed <$> (Hub.conns h' !! 0%nat) = Some true /\
    0%nat ∉ Hub.clients h'.
Proof.
  destruct (hub_run [Hub.Connect] Hub.NewHub hub_wf_new) as (h & Hh & Hwf).
  assert (Hc : 0%nat ∈ Hub.clients h /\
               Hub.conns h !! 0%nat = Some (Hub.mkChan [] false)).
  { vm_compute in Hh. injection Hh as <-. split; vm_compute; reflexivity. }
  destruct Hc as [Hc Hch].
  destruct (slow_client_dropped (replicate 257 "m") h 0%nat [] Hwf Hc Hch)
    as (h' & Hrun & Hch' & Hcl).
  exists h, h'. split; [exact Hh|]. split; [exact Hrun|].
  split.
  - rewrite Hch'. reflexivity.
  - intros Hin. apply Hcl in Hin. rewrite length_app, length_replicate in Hin.
    simpl in Hin. lia.
Defined.

(** ** The controller as a whole *)

Lemma downloadSingleFile_identity o c :
  identity (dl (downloadSingleFile o c)) = identity (dl c).
Proof.
  destruct (do_get o None) as [msg|msg|code' cl' ar' body] eqn:Hget.
  - unfold downloadSingleFile, singleOpen. by rewrite Hget.
  - unfold downloadSingleFile, singleOpen. by rewrite Hget.
  - destruct (createErr (env c) (OutputPath (dl c))) as [err|] eqn:Hcreate.
    + by rewrite (downloadSingleFile_not_created _ _ _ _ _ _ _ Hget Hcreate).
    + rewrite (downloadSingleFile_result _ _ _ _ _ _ Hget Hcreate).
      by destruct (read_failure body).
Qed.

Lemma probe_identity o c :
  match probe o c with
  | inl c' => identity (dl c') = identity (dl c)
  | inr c' => identity (dl c') = identity (dl c)
  end.
Proof.
  unfold probe.
  destruct (do_head o) as [msg|msg|code cl ar hbody]; [done..|].
  cbn [dl upd_dl broadcastUpdate Chunks set_TotalSize set_Status].
  destruct (_ || _); [|done].
  by rewrite downloadSingleFile_identity.
Qed.

Lemma finishChunked_identity c errs :
  identity (dl (finishChunked c errs)) = identity (dl c).
Proof.
  destruct errs as [|e errs]; [|done]. cbn [finishChunked].
  unfold mergePhase. destruct (decide _); [|done].
  destruct (mergeChunks c) as [c4 [err|]] eqn:Hm;
    apply mergeChunks_dl in Hm; simpl; unfold identity in *; simpl;
    by rewrite Hm.
Qed.

Lemma startDownload_identity o c c' :
  startDownload o c = Done c' -> identity (dl c') = identity (dl c).
Proof.
  unfold startDownload. intros H. pose proof (probe_identity o c) as Hp.
  destruct (probe o c) as [c1|c2]; [by injection H as <-|].
  unfold downloadChunked in H.
  destruct (fetchChunks o c2) as [[c3 errs]|msg|msg] eqn:Hfetch; [|done..].
  cbn [outcome_map fst snd] in H. injection H as <-.
  rewrite finishChunked_identity, <- Hp.
  unfold fetchChunks in Hfetch.
  destruct (Chunks (dl c2) =? 0); [done|].
  destruct (Chunks (dl c2) <? 0); [done|].
  destruct (runWorkers _ _ _ _ _) as [[c4 errs4]|msg|msg] eqn:Hrun;
    [|done..].
  injection Hfetch as <- _.
  apply runWorkers_slots in Hrun as (Hd & _). by rewrite Hd.
Qed.

(** X20. A controller never changes what AddDownload wrote into its
    download: id, url, filename, output path, chunk count, the two
    timeout strings and the start time are the same when startDownload
    returns, on every path and whatever the origin does. *)
Theorem controller_keeps_identity (o : Origin) (c c' : Cfg) :
  startDownload o c = Done c' -> identity (dl c') = identity (dl c).
Proof. apply startDownload_identity. Qed.

Lemma controller_keeps_identity_witness :
  exists c',
    startDownload flakyOrigin (fresh_cfg 2) = Done c' /\
    OutputPath (dl c') = "downloads/f.bin" /\ Chunks (dl c') = 2.
Proof.
  destruct (startDownload flakyOrigin (fresh_cfg 2)) as [c'|msg|msg] eqn:Hrun;
    [|vm_compute in Hrun; discriminate Hrun..].
  pose proof (controller_keeps_identity _ _ _ Hrun) as Hid.
  exists c'. split; [reflexivity|].
  unfold identity in Hid. injection Hid as _ _ _ Hout Hn _ _ _.
  split; [exact Hout|exact Hn].
Defined.

(** X21. With at least one chunk and a progress slice of that length, as
    AddDownload allocates it, startDownload does not panic, whatever the
    origin answers: no worker indexes the progress slice out of range and
    nothing divides by zero.  (Whether the controller ever returns is
    another matter: that needs every read to return, no worker left
    parked by a pause, and memory for the channel and the goroutines.) *)
Theorem controller_does_not_panic (o : Origin) (c : Cfg) :
  0 < Chunks (dl c) ->
  length (ChunkProgress (dl c)) = Z.to_nat (Chunks (dl c)) ->
  forall msg, startDownload o c ≠ Panic msg.
Proof.
  intros Hn Hlen msg.
  destruct (startDownload_returns o c Hn Hlen) as [c' ->]. done.
Qed.

Lemma controller_does_not_panic_witness :
  startDownload (rangeOrigin (bytes_of 7) "") (fresh_cfg 2)
    ≠ Panic "runtime error: integer divide by zero" /\
  startDownload (rangeOrigin (bytes_of 7) "bytes") (fresh_cfg 2)
    ≠ Panic "runtime error: index out of range [1] with length 2".
Proof.
  split.
  - apply (controller_does_not_panic (rangeOrigin (bytes_of 7) "")
             (fresh_cfg 2)); [simpl; lia|reflexivity].
  - apply (controller_does_not_panic (rangeOrigin (bytes_of 7) "bytes")
             (fresh_cfg 2)); [simpl; lia|reflexivity].
Defined.

Lemma makeslice_ok_zero e : makeslice_ok e 0 = true.
Proof.
  unfold makeslice_ok, makeslice_len_ok. simpl. apply Z.leb_le. lia.
Qed.

Lemma zero_chunks_panics (o : Origin) (req : CreateDownloadRequest)
    (clk : AddClock) (w : World) (code cl : Z) (hbody : list ReadEvent) :
  rqChunks req = 0 ->
  do_head o = Resp code cl "bytes" hbody ->
  exists w1 a,
    createDownload (Some req) clk w = (w1, Replied 200 (Some a)) /\
    runController o a w1 = Panic "runtime error: integer divide by zero".
Proof.
  intros Hn Hhead. unfold createDownload. rewrite Hn.
  rewrite AddDownload_ok by apply makeslice_ok_zero. cbn zeta.
  eexists _, _. split; [reflexivity|].
  unfold runController, view. cbn. rewrite lookup_insert_eq.
  unfold startDownload, probe. rewrite Hhead. cbn. reflexivity.
Qed.

(** X22. A request for zero chunks is accepted and its controller then
    panics.  createDownload answers 200 with the new download; when the
    origin announces range support, the controller divides the total size
    by the chunk count (line 134) and panics with an integer divide by
    zero. *)
Theorem zero_chunks_crash (o : Origin) (req : CreateDownloadRequest)
    (clk : AddClock) (w : World) (code cl : Z) (hbody : list ReadEvent) :
  rqChunks req = 0 ->
  do_head o = Resp code cl "bytes" hbody ->
  exists w1 a,
    createDownload (Some req) clk w = (w1, Replied 200 (Some a)) /\
    runController o a w1 = Panic "runtime error: integer divide by zero".
Proof. apply zero_chunks_panics. Qed.

Lemma zero_chunks_crash_witness :
  exists w1 a,
    createDownload (Some (mkRequest "http://origin/f.bin" "f.bin" 0 "30s" "10m"))
      clock0 world0 = (w1, Replied 200 (Some a)) /\
    runController trickleOrigin a w1
      = Panic "runtime error: integer divide by zero".
Proof.
  apply (zero_chunks_crash trickleOrigin
           (mkRequest "http://origin/f.bin" "f.bin" 0 "30s" "10m") clock0 world0
           200 7 []); reflexivity.
Defined.

(** ** From the request to the served file *)

Lemma create_run_serve (o : Origin) (req : CreateDownloadRequest)
    (clk : AddClock) (w : World) (content : list Byte.byte) :
  serves o content ->
  makeslice_ok (wenv w) (rqChunks req) = true ->
  2 <= rqChunks req <= Z.of_nat (length content) ->
  Z.of_nat (length content) < 2 ^ 63 ->
  let d := newDownload (rqURL req) (rqFilename req) (rqChunks req)
             (rqConnectTimeout req) (rqReadTimeout req) clk in
  exists w1 a w2,
    createDownload (Some req) clk w = (w1, Replied 200 (Some a)) /\
    runController o a w1 = Done w2 /\
    downloadFile (generateID (now_id clk)) w2 =
      match createErr (wenv w) (OutputPath d) with
      | None =>
          Done (FileAnswer ("attachment; filename=" +:+ Base (rqFilename req))
                  content)
      | Some _ => Done (ErrorAnswer 400 "Download not completed yet")
      end /\
    forall a', a' ≠ a -> heap w2 !! a' = heap w !! a'.
Proof.
  intros Hserves Hok Hn Hsmall d. unfold createDownload.
  rewrite AddDownload_ok by done. cbn zeta. fold d.
  set (a := fresh (dom (heap w))).
  set (c := mkCfg d (wfiles w) (wpublished w) (wenv w)).
  assert (Hlen : length (ChunkProgress (dl c)) = Z.to_nat (Chunks (dl c))).
  { subst c d. cbn. by rewrite length_replicate. }
  assert (Hrun : exists c',
            startDownload o c = Done c' /\
            match createErr (wenv w) (OutputPath d) with
            | None =>
                Status (dl c') = StatusCompleted /\
                files c' !! OutputPath d = Some content
            | Some _ => Status (dl c') = StatusError
            end).
  { destruct (createErr (wenv w) (OutputPath d)) as [err|] eqn:Hcreate.
    - destruct (startDownload_not_created o c content err)
        as (c' & Hrun & Hst & _); try done. eauto.
    - destruct (startDownload_serves o c content)
        as (c' & Hrun & Hst & _ & Hout & _); try done.
      { apply newDownload_in_downloads_dir. }
      eauto. }
  destruct Hrun as (c' & Hrun & Hres).
  set (w1 := mkWorld (<[ID d := a]> (downloads w)) (<[a := d]> (heap w))
               (wfiles w) (wpublished w) (spawned w ++ [a]) (wenv w)).
  exists w1, a, (commit a c' w1). split; [reflexivity|].
  unfold runController, view. cbn [heap wfiles wpublished wenv w1].
  rewrite lookup_insert_eq. fold c.
  rewrite Hrun. cbn [outcome_map]. split; [reflexivity|].
  pose proof (startDownload_identity _ _ _ Hrun) as Hid.
  unfold identity in Hid. cbn [dl] in Hid.
  injection Hid as _ _ Hfn Hop _ _ _ _.
  split.
  - unfold downloadFile, GetDownload, commit. cbn [downloads heap wfiles].
    change (generateID (now_id clk)) with (ID d).
    subst w1. cbn [downloads heap]. rewrite !lookup_insert_eq.
    change (OutputPath (dl c') = OutputPath d) in Hop.
    destruct (createErr (wenv w) (OutputPath d)) as [err|].
    + rewrite Hres. by destruct (decide (StatusError = StatusCompleted)).
    + destruct Hres as [Hst Hout]. rewrite Hst.
      destruct (decide (StatusCompleted = StatusCompleted)) as [_|]; [|done].
      rewrite Hop, Hout, Hfn. done.
  - intros a' Hne. unfold commit. subst w1. cbn [heap].
    by rewrite !lookup_insert_ne.
Qed.

(** X23. From the request to the served file.  A create request for n >= 2
    chunks of a file of at least n bytes, against an origin that serves
    the file with range support, is answered 200.  Once the controller of
    the new download has run: if the output file could be created,
    GET /downloads/{id}/file answers with the bytes of the origin's file,
    whatever the registry and the disk held before; if it could not (a file
    name with a directory that does not exist), the download is in error
    and the same request is answered 400.  No other download object has
    changed. *)
Theorem created_download_is_served (o : Origin) (req : CreateDownloadRequest)
    (clk : AddClock) (w : World) (content : list Byte.byte) :
  serves o content ->
  makeslice_ok (wenv w) (rqChunks req) = true ->
  2 <= rqChunks req <= Z.of_nat (length content) ->
  Z.of_nat (length content) < 2 ^ 63 ->
  let d := newDownload (rqURL req) (rqFilename req) (rqChunks req)
             (rqConnectTimeout req) (rqReadTimeout req) clk in
  exists w1 a w2,
    createDownload (Some req) clk w = (w1, Replied 200 (Some a)) /\
    runController o a w1 = Done w2 /\
    downloadFile (generateID (now_id clk)) w2 =
      match createErr (wenv w) (OutputPath d) with
      | None =>
          Done (FileAnswer ("attachment; filename=" +:+ Base (rqFilename req))
                  content)
      | Some _ => Done (ErrorAnswer 400 "Download not completed yet")
      end /\
    forall a', a' ≠ a -> heap w2 !! a' = heap w !! a'.
Proof. apply create_run_serve. Qed.

Lemma created_download_is_served_witness :
  (exists w1 a w2,
     createDownload (Some (mkRequest "http://origin/f.bin" "f.bin" 2 "30s" "10m"))
       clock0 world0 = (w1, Replied 200 (Some a)) /\
     runController (rangeOrigin (bytes_of 7) "bytes") a w1 = Done w2 /\
     downloadFile "2" w2 =
       Done (FileAnswer "attachment; filename=f.bin" (bytes_of 7))) /\
  (exists w1 a w2,
     createDownload
       (Some (mkRequest "http://origin/f.bin" "dir/f.bin" 2 "30s" "10m"))
       clock0 nodir_world = (w1, Replied 200 (Some a)) /\
     runController (rangeOrigin (bytes_of 7) "bytes") a w1 = Done w2 /\
     downloadFile "2" w2 = Done (ErrorAnswer 400 "Download not completed yet")).
Proof.
  assert (Hsmall : Z.of_nat (length (bytes_of 7)) < 2 ^ 63) by (simpl; lia).
  split.
  - assert (Hn : 2 <= rqChunks (mkRequest "http://origin/f.bin" "f.bin" 2
                                 "30s" "10m")
                   <= Z.of_nat (length (bytes_of 7))) by (simpl; lia).
    destruct (created_download_is_served (rangeOrigin (bytes_of 7) "bytes")
                (mkRequest "http://origin/f.bin" "f.bin" 2 "30s" "10m")
                clock0 world0 (bytes_of 7) (rangeOrigin_serves _) eq_refl Hn
                Hsmall)
      as (w1 & a & w2 & Hc & Hr & Hf & _).
    exists w1, a, w2. split; [exact Hc|]. split; [exact Hr|exact Hf].
  - assert (Hn : 2 <= rqChunks (mkRequest "http://origin/f.bin" "dir/f.bin" 2
                                 "30s" "10m")
                   <= Z.of_nat (length (bytes_of 7))) by (simpl; lia).
    destruct (created_download_is_served (rangeOrigin (bytes_of 7) "bytes")
                (mkRequest "http://origin/f.bin" "dir/f.bin" 2 "30s" "10m")
                clock0 nodir_world (bytes_of 7) (rangeOrigin_serves _) eq_refl
                Hn Hsmall)
      as (w1 & a & w2 & Hc & Hr & Hf & _).
    exists w1, a, w2. split; [exact Hc|]. split; [exact Hr|exact Hf].
Defined.

(** Two registered downloads with one output path, fetched one after the
    other: the file is what the second controller wrote, and both
    downloads serve it. *)
Lemma shared_output_run (oA oB : Origin) (w : World) (aA aB : nat)
    (dA dB : Download) (contentA contentB : list Byte.byte) :
  aA ≠ aB ->
  heap w !! aA = Some dA -> heap w !! aB = Some dB ->
  downloads w !! ID dA = Some aA -> downloads w !! ID dB = Some aB ->
  OutputPath dA = OutputPath dB ->
  in_downloads_dir dA ->
  createErr (wenv w) (OutputPath dA) = None ->
  length (ChunkProgress dA) = Z.to_nat (Chunks dA) ->
  length (ChunkProgress dB) = Z.to_nat (Chunks dB) ->
  serves oA contentA -> serves oB contentB ->
  2 <= Chunks dA <= Z.of_nat (length contentA) ->
  2 <= Chunks dB <= Z.of_nat (length contentB) ->
  Z.of_nat (length contentA) < 2 ^ 63 -> Z.of_nat (length contentB) < 2 ^ 63 ->
  exists w3 w4,
    runController oA aA w = Done w3 /\
    runController oB aB w3 = Done w4 /\
    downloadFile (ID dA) w4 =
      Done (FileAnswer ("attachment; filename=" +:+ Base (Filename dA))
              contentB) /\
    downloadFile (ID dB) w4 =
      Done (FileAnswer ("attachment; filename=" +:+ Base (Filename dB))
              contentB).
Proof.
  intros Ha HdA HdB HidA HidB Hout Hdir Hcreate HlenA HlenB HsA HsB HnA HnB
    HsmA HsmB.
  assert (HdirB : in_downloads_dir dB).
  { destruct Hdir as [leaf Hleaf]. exists leaf. by rewrite <- Hout. }
  destruct (startDownload_serves oA
              (mkCfg dA (wfiles w) (wpublished w) (wenv w)) contentA)
    as (c1 & Hrun1 & Hst1 & _ & _ & _); try done.
  destruct (startDownload_serves oB
              (mkCfg dB (files c1) (published c1) (wenv w)) contentB)
    as (c2 & Hrun2 & Hst2 & _ & Hfile2 & _); try done.
  { cbn [env dl]. by rewrite <- Hout. }
  exists (commit aA c1 w), (commit aB c2 (commit aA c1 w)).
  split.
  { unfold runController, view. rewrite HdA. by rewrite Hrun1. }
  split.
  { unfold runController, view, commit. cbn [heap wfiles wpublished wenv].
    rewrite lookup_insert_ne, HdB by done. by rewrite Hrun2. }
  pose proof (startDownload_identity _ _ _ Hrun1) as Hid1.
  unfold identity in Hid1. cbn [dl] in Hid1.
  injection Hid1 as _ _ Hfn1 Hop1 _ _ _ _.
  pose proof (startDownload_identity _ _ _ Hrun2) as Hid2.
  unfold identity in Hid2. cbn [dl] in Hid2.
  injection Hid2 as _ _ Hfn2 Hop2 _ _ _ _.
  cbn [dl] in Hfile2.
  split.
  - unfold downloadFile, GetDownload, commit. cbn [downloads heap wfiles].
    rewrite HidA. rewrite lookup_insert_ne, lookup_insert_eq by done.
    rewrite Hst1.
    destruct (decide (StatusCompleted = StatusCompleted)) as [_|]; [|done].
    rewrite Hop1, Hout, Hfile2, Hfn1. done.
  - unfold downloadFile, GetDownload, commit. cbn [downloads heap wfiles].
    rewrite HidB. rewrite lookup_insert_eq. rewrite Hst2.
    destruct (decide (StatusCompleted = StatusCompleted)) as [_|]; [|done].
    rewrite Hop2, Hfile2, Hfn2. done.
Qed.

Lemma shared_output_last_writer (o1 o2 : Origin)
    (req1 req2 : CreateDownloadRequest) (clk1 clk2 : AddClock) (w : World)
    (content1 content2 : list Byte.byte) :
  rqFilename req1 = rqFilename req2 -> rqFilename req1 ≠ "" ->
  now_id clk1 ≠ now_id clk2 ->
  createErr (wenv w) ("downloads/" +:+ rqFilename req1) = None ->
  serves o1 content1 -> serves o2 content2 ->
  makeslice_ok (wenv w) (rqChunks req1) = true ->
  makeslice_ok (wenv w) (rqChunks req2) = true ->
  2 <= rqChunks req1 <= Z.of_nat (length content1) ->
  2 <= rqChunks req2 <= Z.of_nat (length content2) ->
  Z.of_nat (length content1) < 2 ^ 63 -> Z.of_nat (length content2) < 2 ^ 63 ->
  let served := fun content =>
    Done (FileAnswer ("attachment; filename=" +:+ Base (rqFilename req1))
            content) in
  exists w1 a1 w2 a2,
    createDownload (Some req1) clk1 w = (w1, Replied 200 (Some a1)) /\
    createDownload (Some req2) clk2 w1 = (w2, Replied 200 (Some a2)) /\
    (exists w3 w4,
       runController o1 a1 w2 = Done w3 /\
       runController o2 a2 w3 = Done w4 /\
       downloadFile (generateID (now_id clk1)) w4 = served content2 /\
       downloadFile (generateID (now_id clk2)) w4 = served content2) /\
    (exists w3 w4,
       runController o2 a2 w2 = Done w3 /\
       runController o1 a1 w3 = Done w4 /\
       downloadFile (generateID (now_id clk1)) w4 = served content1 /\
       downloadFile (generateID (now_id clk2)) w4 = served content1).
Proof.
  intros Hsame Hfn Hids Hcreate Hs1 Hs2 Hok1 Hok2 Hn1 Hn2 Hsm1 Hsm2 served.
  set (d1 := newDownload (rqURL req1) (rqFilename req1) (rqChunks req1)
               (rqConnectTimeout req1) (rqReadTimeout req1) clk1).
  set (a1 := fresh (dom (heap w))).
  set (w1 := mkWorld (<[ID d1 := a1]> (downloads w)) (<[a1 := d1]> (heap w))
               (wfiles w) (wpublished w) (spawned w ++ [a1]) (wenv w)).
  set (d2 := newDownload (rqURL req2) (rqFilename req2) (rqChunks req2)
               (rqConnectTimeout req2) (rqReadTimeout req2) clk2).
  set (a2 := fresh (dom (heap w1))).
  set (w2 := mkWorld (<[ID d2 := a2]> (downloads w1)) (<[a2 := d2]> (heap w1))
               (wfiles w1) (wpublished w1) (spawned w1 ++ [a2]) (wenv w1)).
  assert (Ha : a1 ≠ a2).
  { intros Heq. apply (is_fresh (dom (heap w1))).
    fold a2. rewrite <- Heq. apply elem_of_dom. subst w1. cbn [heap].
    by rewrite lookup_insert_eq. }
  assert (Hid : ID d2 ≠ ID d1).
  { intros Heq. apply generateID_inj in Heq. by symmetry in Heq. }
  assert (Hout1 : OutputPath d1 = "downloads/" +:+ rqFilename req1).
  { subst d1. unfold newDownload. cbn [OutputPath].
    by destruct (decide (rqFilename req1 = "")). }
  assert (Hout : OutputPath d2 = OutputPath d1).
  { rewrite Hout1. subst d2. unfold newDownload. cbn [OutputPath].
    rewrite <- Hsame. by destruct (decide (rqFilename req1 = "")). }
  assert (Hh1 : heap w2 !! a1 = Some d1).
  { subst w2 w1. cbn [heap]. by rewrite lookup_insert_ne, lookup_insert_eq. }
  assert (Hh2 : heap w2 !! a2 = Some d2).
  { subst w2. cbn [heap]. by rewrite lookup_insert_eq. }
  assert (Hr1 : downloads w2 !! ID d1 = Some a1).
  { subst w2 w1. cbn [downloads].
    by rewrite lookup_insert_ne, lookup_insert_eq. }
  assert (Hr2 : downloads w2 !! ID d2 = Some a2).
  { subst w2. cbn [downloads]. by rewrite lookup_insert_eq. }
  assert (Hl1 : length (ChunkProgress d1) = Z.to_nat (Chunks d1)).
  { subst d1. cbn. by rewrite length_replicate. }
  assert (Hl2 : length (ChunkProgress d2) = Z.to_nat (Chunks d2)).
  { subst d2. cbn. by rewrite length_replicate. }
  assert (Hdir1 : in_downloads_dir d1) by apply newDownload_in_downloads_dir.
  assert (Hdir2 : in_downloads_dir d2) by apply newDownload_in_downloads_dir.
  assert (Hf2 : Filename d2 = rqFilename req1) by (by rewrite Hsame).
  exists w1, a1, w2, a2.
  split; [unfold createDownload; by rewrite AddDownload_ok by exact Hok1|].
  split; [unfold createDownload; by rewrite AddDownload_ok by exact Hok2|].
  split.
  - destruct (shared_output_run o1 o2 w2 a1 a2 d1 d2 content1 content2)
      as (w3 & w4 & Hrun1 & Hrun2 & Hg1 & Hg2); try done.
    { by rewrite Hout1. }
    exists w3, w4. split; [done|]. split; [done|].
    split; [exact Hg1|]. by rewrite Hf2 in Hg2.
  - destruct (shared_output_run o2 o1 w2 a2 a1 d2 d1 content2 content1)
      as (w3 & w4 & Hrun1 & Hrun2 & Hg1 & Hg2); try done.
    { by rewrite Hout, Hout1. }
    exists w3, w4. split; [done|]. split; [done|].
    split; [exact Hg2|]. by rewrite Hf2 in Hg1.
Qed.

(** X24. Two downloads with the same filename share one output path, and
    nothing keeps them apart.  When both are created with the same
    non-empty filename, the output file can be created, and each is fetched
    in full from its own origin, one controller running to its end before
    the other starts, then both downloads are completed and
    GET /downloads/{id}/file answers, for either id, with the bytes of the
    origin that was fetched last: in the order first, second with the
    second origin's file, in the order second, first with the first
    origin's. *)
Theorem same_filename_last_writer_wins (o1 o2 : Origin)
    (req1 req2 : CreateDownloadRequest) (clk1 clk2 : AddClock) (w : World)
    (content1 content2 : list Byte.byte) :
  rqFilename req1 = rqFilename req2 -> rqFilename req1 ≠ "" ->
  now_id clk1 ≠ now_id clk2 ->
  createErr (wenv w) ("downloads/" +:+ rqFilename req1) = None ->
  serves o1 content1 -> serves o2 content2 ->
  makeslice_ok (wenv w) (rqChunks req1) = true ->
  makeslice_ok (wenv w) (rqChunks req2) = true ->
  2 <= rqChunks req1 <= Z.of_nat (length content1) ->
  2 <= rqChunks req2 <= Z.of_nat (length content2) ->
  Z.of_nat (length content1) < 2 ^ 63 -> Z.of_nat (length content2) < 2 ^ 63 ->
  let served := fun content =>
    Done (FileAnswer ("attachment; filename=" +:+ Base (rqFilename req1))
            content) in
  exists w1 a1 w2 a2,
    createDownload (Some req1) clk1 w = (w1, Replied 200 (Some a1)) /\
    createDownload (Some req2) clk2 w1 = (w2, Replied 200 (Some a2)) /\
    (exists w3 w4,
       runController o1 a1 w2 = Done w3 /\
       runController o2 a2 w3 = Done w4 /\
       downloadFile (generateID (now_id clk1)) w4 = served content2 /\
       downloadFile (generateID (now_id clk2)) w4 = served content2) /\
    (exists w3 w4,
       runController o2 a2 w2 = Done w3 /\
       runController o1 a1 w3 = Done w4 /\
       downloadFile (generateID (now_id clk1)) w4 = served content1 /\
       downloadFile (generateID (now_id clk2)) w4 = served content1).
Proof. apply shared_output_last_writer. Qed.

Lemma same_filename_last_writer_wins_witness :
  exists w1 a1 w2 a2 w3 w4,
    createDownload (Some (mkRequest "http://one/f.bin" "f.bin" 2 "30s" "10m"))
      clock0 world0 = (w1, Replied 200 (Some a1)) /\
    createDownload (Some (mkRequest "http://two/f.bin" "f.bin" 2 "30s" "10m"))
      (mkAddClock 5 6 7 8) w1 = (w2, Replied 200 (Some a2)) /\
    runController (rangeOrigin (bytes_of 7) "bytes") a1 w2 = Done w3 /\
    runController (rangeOrigin (bytes_of 5) "bytes") a2 w3 = Done w4 /\
    downloadFile "2" w4 =
      Done (FileAnswer "attachment; filename=f.bin" (bytes_of 5)).
Proof.
  assert (Hfn : rqFilename (mkRequest "http://one/f.bin" "f.bin" 2 "30s" "10m")
                  ≠ "") by discriminate.
  assert (Hids : now_id clock0 ≠ now_id (mkAddClock 5 6 7 8)) by discriminate.
  assert (Hn1 : 2 <= rqChunks (mkRequest "http://one/f.bin" "f.bin" 2 "30s" "10m")
                  <= Z.of_nat (length (bytes_of 7))) by (simpl; lia).
  assert (Hn2 : 2 <= rqChunks (mkRequest "http://two/f.bin" "f.bin" 2 "30s" "10m")
                  <= Z.of_nat (length (bytes_of 5))) by (simpl; lia).
  assert (Hs1 : Z.of_nat (length (bytes_of 7)) < 2 ^ 63) by (simpl; lia).
  assert (Hs2 : Z.of_nat (length (bytes_of 5)) < 2 ^ 63) by (simpl; lia).
  destruct (same_filename_last_writer_wins
              (rangeOrigin (bytes_of 7) "bytes") (rangeOrigin (bytes_of 5) "bytes")
              (mkRequest "http://one/f.bin" "f.bin" 2 "30s" "10m")
              (mkRequest "http://two/f.bin" "f.bin" 2 "30s" "10m")
              clock0 (mkAddClock 5 6 7 8) world0 (bytes_of 7) (bytes_of 5)
              eq_refl Hfn Hids eq_refl (rangeOrigin_serves _)
              (rangeOrigin_serves _) eq_refl eq_refl Hn1 Hn2 Hs1 Hs2)
    as (w1 & a1 & w2 & a2 & Hc1 & Hc2 & (w3 & w4 & Hr1 & Hr2 & Hg1 & _) & _).
  exists w1, a1, w2, a2, w3, w4.
  split; [exact Hc1|]. split; [exact Hc2|]. split; [exact Hr1|].
  split; [exact Hr2|exact Hg1].
Defined.

(** ** The general statements behind the scheduled runs *)

(** X26. A chunk worker never reads the status of its download: with any
    status written into the object, its next scheduling does the same
    reads and writes and ends in the same state, the status apart.  Only
    a value on the pause channel parks a worker; the status paused or
    error does not. *)
Theorem worker_ignores_status (o : Origin) (wk : Worker) (c : Cfg)
    (st : DownloadStatus) :
  workerStep o wk (upd_dl (set_Status st) c) =
    match workerStep o wk c with
    | Some (wk', c') => Some (wk', upd_dl (set_Status st) c')
    | None => None
    end.
Proof. apply workerStep_ignores_status. Qed.

(** X28. Deleting a download that is downloading marks the object as
    cancelled (status error), removes every temporary chunk file the
    download has on disk at that moment, removes the id from the registry
    and returns nil. *)
Theorem delete_active_cleans_chunks (w : World) (id : string) (a : nat)
    (d : Download) :
  downloads w !! id = Some a ->
  heap w !! a = Some d ->
  Status d = StatusDownloading ->
  exists w',
    DeleteDownload id w = Done (w', None) /\
    Status <$> heap w' !! a = Some StatusError /\
    (forall i, 0 <= i < Chunks d -> wfiles w' !! chunkFileName d i = None) /\
    GetDownload id w' = (None, Some "download not found").
Proof. apply delete_active_removes_chunks. Qed.

Lemma delete_active_cleans_chunks_witness :
  exists w',
    DeleteDownload "2" active_world = Done (w', None) /\
    wfiles w' !! "chunk_2_1.tmp" = None.
Proof.
  destruct (delete_active_cleans_chunks
              active_world
              "2" 0%nat (set_Status StatusDownloading (probed 7 2))
              eq_refl eq_refl eq_refl)
    as (w' & Hdel & _ & Hgone & _).
  exists w'. split; [exact Hdel|]. apply (Hgone 1). simpl. lia.
Defined.

(** ** The workers do not depend on one another *)

Lemma set_ChunkProgress_id d : set_ChunkProgress (ChunkProgress d) d = d.
Proof. by destruct d. Qed.

Lemma downloadLoop_effect name i size body c m out :
  index_ok (dl c) i = true ->
  files c !! name = Some out ->
  downloadLoop name i size body c (wrap64 m) =
    Done (mkCfg
            (set_ChunkProgress
               (slot_write i (loop_pct size body (wrap64 m))
                  (ChunkProgress (dl c))) (dl c))
            (<[name := out ++ received body]> (files c))
            (published c ++ progress_events (dl c) (loop_events body (wrap64 m)))
            (env c),
          wrap64 (m + Z.of_nat (length (received body))),
          chunk_read_error i <$> read_failure body).
Proof.
  revert c m out. induction body as [|r body IH]; intros c m out Hok Hout.
  - simpl. rewrite Z.add_0_r, !app_nil_r, insert_id, set_ChunkProgress_id by done.
    by destruct c.
  - cbn [downloadLoop received read_failure loop_pct loop_events]. unfold chunkIter.
    assert (Hstop : forall e : option string,
      Done (c, wrap64 m, e) =
        Done (mkCfg (set_ChunkProgress (slot_write i None (ChunkProgress (dl c)))
                       (dl c))
                (<[name := out ++ []]> (files c))
                (published c ++ progress_events (dl c) 0) (env c),
              wrap64 (m + Z.of_nat (length (@nil Byte.byte))), e)).
    { intros e. simpl.
      rewrite Z.add_0_r, !app_nil_r, insert_id, set_ChunkProgress_id by done.
      by destruct c. }
    destruct (rerr r) as [| |msg] eqn:Hr; [| |apply Hstop].
    + destruct (Z.of_nat (length (data r)) =? 0) eqn:Hn; [apply Hstop|].
      change (index_ok (dl (upd_files (appendFile name (data r)) c)) i)
        with (index_ok (dl c) i).
      rewrite Hok. cbn [negb is_eof orb]. rewrite add64_wrap, orb_false_r.
      match goal with
      | |- context [if ?b then broadcastUpdate "progress" ?c1 else _] =>
          set (c2 := if b then broadcastUpdate "progress" c1 else c1);
          set (k1 := if b then 1%nat else 0%nat);
          assert (Hc2 : dl c2 = dl c1 /\ files c2 = files c1 /\
                        published c2 = published c ++ progress_events (dl c) k1 /\
                        env c2 = env c)
      end.
      { subst c2 k1. destruct (rem64 _ _ =? 0); simpl.
        - done.
        - by rewrite app_nil_r. }
      destruct Hc2 as (Hd2 & Hf2 & Hp2 & He2). simpl in Hd2, Hf2.
      rewrite (IH c2 (m + Z.of_nat (length (data r))) (out ++ data r)).
      * rewrite Hd2, Hf2, Hp2, He2. cbn [ChunkProgress set_ChunkProgress ID].
        set (m1 := wrap64 (m + Z.of_nat (length (data r)))).
        set (p := (float_of_Z m1 / float_of_Z size * 100)%float).
        assert (Hdl : set_ChunkProgress
                        (slot_write i (loop_pct size body m1)
                           (<[Z.to_nat i := p]> (ChunkProgress (dl c))))
                        (set_ChunkProgress
                           (<[Z.to_nat i := p]> (ChunkProgress (dl c))) (dl c)) =
                      set_ChunkProgress
                        (slot_write i
                           match loop_pct size body m1 with
                           | Some later => Some later
                           | None => Some p
                           end (ChunkProgress (dl c))) (dl c)).
        { destruct (loop_pct size body m1); simpl.
          - rewrite list_insert_insert_eq. by destruct (dl c).
          - by destruct (dl c). }
        assert (Hfs : <[name := (out ++ data r) ++ received body]>
                        (appendFile name (data r) (files c)) =
                      <[name := out ++ data r ++ received body]> (files c)).
        { unfold appendFile. rewrite Hout.
          by rewrite insert_insert_eq, <- app_assoc. }
        assert (Hpub : (published c ++ progress_events (dl c) k1) ++
                       progress_events
                         (set_ChunkProgress
                            (<[Z.to_nat i := p]> (ChunkProgress (dl c))) (dl c))
                         (loop_events body m1) =
                       published c ++
                       progress_events (dl c) (k1 + loop_events body m1)).
        { rewrite <- app_assoc. f_equal.
          unfold progress_events. simpl. by rewrite <- replicate_add. }
        rewrite Hdl, Hfs, Hpub.
        by rewrite length_app, Nat2Z.inj_add, Z.add_assoc.
      * rewrite Hd2. unfold index_ok in *. simpl. by rewrite length_insert.
      * rewrite Hf2. unfold appendFile. rewrite Hout.
        by rewrite lookup_insert_eq.
    + destruct (Z.of_nat (length (data r)) =? 0) eqn:Hn; [apply Hstop|].
      change (index_ok (dl (upd_files (appendFile name (data r)) c)) i)
        with (index_ok (dl c) i).
      rewrite Hok. cbn [negb is_eof orb]. rewrite add64_wrap, orb_true_r.
      rewrite app_nil_r. simpl.
      unfold broadcastUpdate, upd_dl, upd_files, appendFile. simpl.
      by rewrite Hout.
Qed.

Lemma downloadChunk_summary (o : Origin) (c : Cfg) (i cs : Z) :
  index_ok (dl c) i = true ->
  downloadChunk o c i cs =
    Done (apply_summary i (fetch_summary o (dl c) i cs) c).
Proof.
  intros Hok. unfold downloadChunk, chunkOpen, fetch_summary.
  destruct (do_get o _) as [msg|msg|code cl ar body]; [done|done|].
  destruct (negb (code =? 206)); [done|].
  set (name := chunkFileName (dl c) i).
  set (size := actualChunkSize (chunkRange (dl c) i cs)).
  change 0 with (wrap64 0) at 1.
  rewrite (downloadLoop_effect name i size body _ 0 []);
    [|done|by (simpl; unfold createFile; rewrite lookup_insert_eq)].
  cbn [dl files published upd_files app]. unfold createFile.
  rewrite insert_insert_eq, Z.add_0_l. change (wrap64 0) with 0.
  destruct (read_failure body) as [msg|]; [done|]. cbn [fmap option_fmap option_map].
  unfold chunkFinish.
  destruct (wrap64 (Z.of_nat (length (received body))) =? size); cbn [negb].
  - unfold apply_summary, broadcastUpdate. cbn [dl files published ID set_ChunkProgress].
    rewrite <- app_assoc. do 3 f_equal.
    unfold progress_events. by rewrite replicate_add.
  - done.
Qed.

Lemma fetch_summary_slots o d cp i cs :
  fetch_summary o (set_ChunkProgress cp d) i cs = fetch_summary o d i cs.
Proof. reflexivity. Qed.

Lemma apply_summary_swap (i j : Z) s t (c : Cfg) :
  i ≠ j -> 0 <= i -> 0 <= j ->
  let ci := apply_summary i s c in
  let cj := apply_summary j t c in
  (apply_summary j t ci.1).1 = (apply_summary i s cj.1).1.
Proof.
  intros Hne Hi Hj. destruct s as [e|[[[b p] k] e]], t as [e'|[[[b' p'] k'] e']];
    simpl; try done.
  assert (Hn : Z.to_nat i ≠ Z.to_nat j) by lia.
  assert (Hdl : forall x y d,
            set_ChunkProgress x (set_ChunkProgress y d) = set_ChunkProgress x d)
    by (by intros x y []).
  rewrite !Hdl. f_equal.
  - f_equal. destruct p, p'; simpl; try done.
    by rewrite list_insert_insert_ne.
  - assert (Hnm : forall x k, chunkFileName (set_ChunkProgress x (dl c)) k =
                              chunkFileName (dl c) k) by done.
    rewrite !Hnm. apply insert_insert_ne. intros H.
    apply chunkFileName_inj in H. done.
  - rewrite <- !app_assoc. f_equal. unfold progress_events. simpl.
    rewrite <- !replicate_add. f_equal. lia.
Qed.

Lemma apply_summary_dl i s c :
  exists cp,
    dl (apply_summary i s c).1 = set_ChunkProgress cp (dl c) /\
    length cp = length (ChunkProgress (dl c)).
Proof.
  destruct s as [e|[[[b p] k] e]]; simpl.
  - exists (ChunkProgress (dl c)). by rewrite set_ChunkProgress_id.
  - eexists. split; [reflexivity|]. destruct p; simpl; [|done].
    by rewrite length_insert.
Qed.

Lemma runWorkers_errs o cs idxs : forall c errs,
  runWorkers o cs idxs c errs =
    outcome_map (fun r => (r.1, errs ++ r.2)) (runWorkers o cs idxs c []).
Proof.
  induction idxs as [|i idxs IH]; intros c errs; simpl.
  - by rewrite app_nil_r.
  - destruct (downloadChunk o c i cs) as [[c1 [e|]]|msg|msg];
      [|apply IH|done..].
    rewrite (IH c1 (errs ++ _)), (IH c1 [_]).
    destruct (runWorkers o cs idxs c1 []) as [[c2 more]|msg|msg]; simpl;
      [|done..].
    by rewrite <- app_assoc.
Qed.

Lemma runWorkers_cons o cs i idxs c :
  index_ok (dl c) i = true ->
  runWorkers o cs (i :: idxs) c [] =
    let r := apply_summary i (fetch_summary o (dl c) i cs) c in
    outcome_map
      (fun r' => (r'.1, match r.2 with
                        | Some e => ["chunk " +:+ pretty i +:+ " failed: " +:+ e]
                        | None => []
                        end ++ r'.2))
      (runWorkers o cs idxs r.1 []).
Proof.
  intros Hok. cbn [runWorkers]. rewrite (downloadChunk_summary o c i cs Hok).
  destruct (apply_summary i _ c) as [c1 [e|]]; cbn [fst snd].
  - by rewrite runWorkers_errs.
  - destruct (runWorkers o cs idxs c1 []) as [[]|msg|msg]; done.
Qed.

Lemma index_ok_summary i j s c :
  index_ok (dl (apply_summary i s c).1) j = index_ok (dl c) j.
Proof.
  destruct (apply_summary_dl i s c) as (cp & -> & Hlen).
  unfold index_ok. simpl. by rewrite Hlen.
Qed.

Lemma fetch_summary_after o i j s c cs :
  fetch_summary o (dl (apply_summary i s c).1) j cs = fetch_summary o (dl c) j cs.
Proof. destruct (apply_summary_dl i s c) as (cp & -> & _). reflexivity. Qed.

Lemma apply_summary_err i s c c' :
  (apply_summary i s c).2 = (apply_summary i s c').2.
Proof. by destruct s as [e|[[[b p] k] e]]. Qed.

Lemma runWorkers_perm o cs idxs idxs' :
  idxs ≡ₚ idxs' ->
  forall c c1 errs1,
    NoDup idxs ->
    (forall i, i ∈ idxs -> index_ok (dl c) i = true) ->
    runWorkers o cs idxs c [] = Done (c1, errs1) ->
    exists errs2,
      runWorkers o cs idxs' c [] = Done (c1, errs2) /\ errs1 ≡ₚ errs2.
Proof.
  induction 1 as [|x l l' Hperm IH|x y l|l l' l'' Hp1 IH1 Hp2 IH2];
    intros c c1 errs1 Hnd Hok Hrun.
  - by exists errs1.
  - apply NoDup_cons in Hnd as [Hx Hnd].
    rewrite runWorkers_cons in Hrun by (apply Hok; by left).
    rewrite runWorkers_cons by (apply Hok; by left).
    cbn zeta in *.
    set (r := apply_summary x (fetch_summary o (dl c) x cs) c) in *.
    destruct (runWorkers o cs l r.1 []) as [[c2 more]|msg|msg] eqn:Hl;
      [|done..].
    injection Hrun as <- <-.
    destruct (IH r.1 c2 more Hnd) as (more' & Hl' & Hmore); [|done|].
    { intros i Hi. subst r. rewrite index_ok_summary. apply Hok. by right. }
    rewrite Hl'. eexists. split; [reflexivity|]. cbn [fst snd].
    by apply Permutation_app.
  - apply NoDup_cons in Hnd as [Hy Hnd]. apply NoDup_cons in Hnd as [Hx Hnd].
    assert (Hne : y ≠ x) by (intros ->; apply Hy; by left).
    assert (Hoky : index_ok (dl c) y = true) by (apply Hok; by left).
    assert (Hokx : index_ok (dl c) x = true) by (apply Hok; right; by left).
    assert (Hy0 : 0 <= y).
    { unfold index_ok in Hoky. apply andb_true_iff in Hoky as [H _].
      by apply Z.leb_le in H. }
    assert (Hx0 : 0 <= x).
    { unfold index_ok in Hokx. apply andb_true_iff in Hokx as [H _].
      by apply Z.leb_le in H. }
    rewrite runWorkers_cons in Hrun by done. cbn zeta in Hrun.
    rewrite runWorkers_cons in Hrun by (by rewrite index_ok_summary).
    rewrite runWorkers_cons by done. cbn zeta.
    rewrite runWorkers_cons by (by rewrite index_ok_summary).
    cbn zeta in *. rewrite fetch_summary_after in *.
    pose proof (apply_summary_swap y x (fetch_summary o (dl c) y cs)
                  (fetch_summary o (dl c) x cs) c Hne Hy0 Hx0) as Hswap.
    cbn zeta in Hswap. rewrite <- Hswap.
    rewrite (apply_summary_err x _
               (apply_summary y (fetch_summary o (dl c) y cs) c).1 c) in Hrun.
    rewrite (apply_summary_err y _
               (apply_summary x (fetch_summary o (dl c) x cs) c).1 c).
    destruct (runWorkers o cs l _ []) as [[c2 more]|msg|msg]; [|done..].
    cbn [outcome_map fst snd] in *. injection Hrun as <- <-.
    eexists. split; [reflexivity|].
    rewrite !app_assoc. apply Permutation_app; [|done].
    apply Permutation_app_comm.
  - destruct (IH1 c c1 errs1 Hnd Hok Hrun) as (errs2 & Hrun2 & Hperm2).
    destruct (IH2 c c1 errs2) as (errs3 & Hrun3 & Hperm3); [| |done|].
    { by rewrite <- Hp1. }
    { intros i Hi. apply Hok. by rewrite Hp1. }
    exists errs3. split; [done|]. by etrans.
Qed.

(** X29. The chunk workers do not depend on one another.  Run one after the
    other in any order, the workers of a download leave the same download
    object, the same files and the same published updates, and report the
    same errors up to their order. *)
Theorem workers_order_irrelevant (o : Origin) (cs : Z) (idxs idxs' : list Z)
    (c c1 : Cfg) (errs1 : list string) :
  idxs ≡ₚ idxs' ->
  NoDup idxs ->
  (forall i, i ∈ idxs -> index_ok (dl c) i = true) ->
  runWorkers o cs idxs c [] = Done (c1, errs1) ->
  exists errs2,
    runWorkers o cs idxs' c [] = Done (c1, errs2) /\ errs1 ≡ₚ errs2.
Proof. intros Hperm Hnd Hok Hrun. by eapply runWorkers_perm. Qed.

Lemma workers_order_irrelevant_witness :
  exists c1 errs1 errs2,
    runWorkers flakyOrigin 3 [0; 1] downloading_cfg [] = Done (c1, errs1) /\
    runWorkers flakyOrigin 3 [1; 0] downloading_cfg [] = Done (c1, errs2) /\
    files c1 !! "chunk_2_0.tmp" = Some (bytes_of 3).
Proof.
  destruct (runWorkers flakyOrigin 3 [0; 1] downloading_cfg [])
    as [[c1 errs1]|msg|msg] eqn:Hrun;
    [|vm_compute in Hrun; discriminate Hrun..].
  assert (Hperm : [0; 1] ≡ₚ [1; 0]) by apply perm_swap.
  assert (Hnd : NoDup [0; 1]).
  { apply NoDup_cons. split; [|apply NoDup_singleton].
    intros Hin. apply list_elem_of_singleton in Hin. discriminate Hin. }
  assert (Hok : forall i, i ∈ [0; 1] -> index_ok (dl downloading_cfg) i = true).
  { intros i Hi. apply elem_of_cons in Hi as [->|Hi]; [reflexivity|].
    apply list_elem_of_singleton in Hi as ->. reflexivity. }
  destruct (workers_order_irrelevant flakyOrigin 3 [0; 1] [1; 0]
              downloading_cfg c1 errs1 Hperm Hnd Hok Hrun)
    as (errs2 & Hrun2 & _).
  exists c1, errs1, errs2. split; [reflexivity|]. split; [exact Hrun2|].
  vm_compute in Hrun. injection Hrun as <- _. reflexivity.
Defined.

(** ** Deleting through the API *)

Lemma delete_then_requests (w : World) (id : string) (a : nat) (d : Download)
    (content : list Byte.byte) :
  downloads w !! id = Some a ->
  heap w !! a = Some d ->
  Status d = StatusCompleted ->
  wfiles w !! OutputPath d = Some content ->
  downloadFile id w =
    Done (FileAnswer ("attachment; filename=" +:+ Base (Filename d)) content) /\
  exists w',
    deleteDownload id w = Done (w', StatusAnswer 204) /\
    wfiles w' = wfiles w /\
    getDownload id w' = ErrorAnswer 404 "Download not found" /\
    downloadFile id w' = Done (ErrorAnswer 404 "Download not found") /\
    deleteDownload id w' = Done (w', ErrorAnswer 400 "download not found").
Proof.
  intros Hid Ha Hst Hfile. split.
  - unfold downloadFile, GetDownload. rewrite Hid, Ha, Hst.
    destruct (decide (StatusCompleted = StatusCompleted)) as [_|]; [|done].
    by rewrite Hfile.
  - unfold deleteDownload, DeleteDownload at 1. rewrite Hid, Ha.
    destruct (decide (Status d = StatusDownloading)) as [Heq|_];
      [by rewrite Hst in Heq|].
    eexists. split; [reflexivity|]. split; [done|].
    unfold getDownload, downloadFile, GetDownload, DeleteDownload.
    cbn [downloads]. rewrite lookup_delete_eq. done.
Qed.

(** X30. Deleting a completed download through the API makes its file
    unreachable without removing it.  Before the delete,
    GET /downloads/{id}/file answers with the output file; DELETE answers
    204 and leaves the disk as it is; afterwards GET /downloads/{id} and
    GET /downloads/{id}/file answer 404 and a second DELETE answers 400,
    while the file is still on disk. *)
Theorem delete_makes_file_unreachable (w : World) (id : string) (a : nat)
    (d : Download) (content : list Byte.byte) :
  downloads w !! id = Some a ->
  heap w !! a = Some d ->
  Status d = StatusCompleted ->
  wfiles w !! OutputPath d = Some content ->
  downloadFile id w =
    Done (FileAnswer ("attachment; filename=" +:+ Base (Filename d)) content) /\
  exists w',
    deleteDownload id w = Done (w', StatusAnswer 204) /\
    wfiles w' = wfiles w /\
    getDownload id w' = ErrorAnswer 404 "Download not found" /\
    downloadFile id w' = Done (ErrorAnswer 404 "Download not found") /\
    deleteDownload id w' = Done (w', ErrorAnswer 400 "download not found").
Proof. apply delete_then_requests. Qed.

Lemma delete_makes_file_unreachable_witness :
  exists w',
    deleteDownload "2" completed_world = Done (w', StatusAnswer 204) /\
    wfiles w' !! "downloads/f.bin" = Some (bytes_of 7) /\
    downloadFile "2" w' = Done (ErrorAnswer 404 "Download not found").
Proof.
  destruct (delete_makes_file_unreachable completed_world "2" 0%nat
              (set_Status StatusCompleted (probed 7 2)) (bytes_of 7)
              eq_refl eq_refl eq_refl eq_refl)
    as (_ & w' & Hdel & Hfs & _ & Hfile & _).
  exists w'. split; [exact Hdel|]. split; [by rewrite Hfs|exact Hfile].
Defined.

(** ** Pausing a single-file download *)

Lemma singleIter_dl name r c n c' n' ctl :
  singleIter name r c n = (c', n', ctl) ->
  dl c' = dl c /\ forall e, ctl ≠ Crash e.
Proof.
  unfold singleIter. intros H.
  destruct (rerr r); try (injection H as <- <- <-; by split).
  all: destruct (_ =? 0); injection H as <- <- <-; split; try done.
Qed.

(** Scheduled until it returns, with nobody sending on [pauseChan], the
    reader leaves what the loop and the lines after it compute. *)
Lemma readerRun_singleLoop body : forall c n,
  pauseChan (dl c) = None ->
  exists rd,
    readerRun (S (length body)) (mkReader body n ReaderAtSelect) c =
      (rd, match singleLoop (OutputPath (dl c)) body c n with
           | (c', _, Some e) => failWith e c'
           | (c', downloaded, None) => singleCompleted downloaded c'
           end) /\
    r_pc rd = ReaderReturned.
Proof.
  induction body as [|r body IH]; intros c n Hch.
  - cbn [length readerRun]. unfold readerStep. cbn [r_pc r_body r_downloaded].
    rewrite Hch. cbn [readerRun readerStep r_pc singleLoop].
    by eexists.
  - cbn [length]. cbn [readerRun]. unfold readerStep at 1.
    cbn [r_pc r_body r_downloaded]. rewrite Hch. cbn [singleLoop].
    destruct (singleIter (OutputPath (dl c)) r c n) as [[c1 n1] ctl] eqn:Hit.
    apply singleIter_dl in Hit as [Hdl Hctl].
    destruct ctl as [| |e|e].
    + destruct (IH c1 n1) as (rd & Hrun & Hpc); [by rewrite Hdl|].
      rewrite Hdl in Hrun. by exists rd.
    + eexists. split; [by destruct (length body)|reflexivity].
    + eexists. split; [by destruct (length body)|reflexivity].
    + by destruct (Hctl e).
Qed.

(** [downloadSingleFile] is the reader run to its return when nobody
    sends on [pauseChan]. *)
Lemma readerRun_downloadSingleFile (o : Origin) (c c1 : Cfg)
    (body : list ReadEvent) :
  pauseChan (dl c) = None ->
  singleOpen o c = inr (c1, body) ->
  exists rd,
    readerRun (S (length body)) (mkReader body 0 ReaderAtSelect) c1 =
      (rd, downloadSingleFile o c) /\
    r_pc rd = ReaderReturned.
Proof.
  intros Hch Hopen. unfold downloadSingleFile. rewrite Hopen.
  apply readerRun_singleLoop.
  unfold singleOpen in Hopen.
  destruct (do_get o None); try discriminate Hopen.
  destruct (createErr _ _); [discriminate Hopen|].
  injection Hopen as <- <-. exact Hch.
Qed.

Lemma reader_pause_resume (o : Origin) (rd : Reader) (s : System)
    (id : string) (d : Download) :
  crashed s = false ->
  caller s = NoCall ->
  downloads (world s) !! id = Some (target s) ->
  heap (world s) !! target s = Some d ->
  Status d = StatusDownloading ->
  pauseChan d = None ->
  r_pc rd = ReaderAtSelect ->
  let waiting := mkReader (r_body rd) (r_downloaded rd) ReaderAwaitResume in
  exists s1 s2,
    singleRun o [ActCall (ActPause id); ActRead; ActCall ActReturn] (rd, s)
      = Some (waiting, s1) /\
    heap (world s1) !! target s = Some (set_Status StatusPaused d) /\
    returned s1 = returned s ++ [None] /\
    singleStep o ActRead (waiting, s1) = None /\
    singleRun o [ActCall (ActResume id); ActRead; ActCall ActReturn]
      (waiting, s1) = Some (rd, s2) /\
    heap (world s2) !! target s = Some d /\
    returned s2 = returned s ++ [None; None] /\
    wfiles (world s2) = wfiles (world s) /\
    wpublished (world s2) =
      wpublished (world s) ++ [mkUpdate id "paused"; mkUpdate id "resumed"].
Proof.
  intros Hcr Hcall Hid Hd Hst Hch Hpc waiting. subst waiting.
  destruct rd as [body n pc]. cbn [r_pc r_body r_downloaded] in *. subst pc.
  destruct s as [w a ws up cl ret]. cbn [world target caller returned] in *.
  subst cl.
  assert (Hpaused : set_pauseChan None
                      (set_pauseChan (Some true) (set_Status StatusPaused d))
                    = set_Status StatusPaused d).
  { destruct d. cbn in Hch |- *. by rewrite Hch. }
  assert (Hresumed : set_pauseChan None
                       (set_pauseChan (Some false)
                          (set_Status StatusDownloading
                             (set_Status StatusPaused d))) = d).
  { destruct d. cbn in Hch, Hst |- *. by rewrite Hch, Hst. }
  unfold crashed in Hcr. cbn [workers] in Hcr.
  set (paused := mkUpdate id "paused"). set (resumed := mkUpdate id "resumed").
  exists (mkSystem
            (mkWorld (downloads w) (<[a := set_Status StatusPaused d]> (heap w))
               (wfiles w) (wpublished w ++ [paused]) (spawned w) (wenv w))
            a ws up NoCall (ret ++ [None])),
         (mkSystem
            (mkWorld (downloads w) (<[a := d]> (heap w)) (wfiles w)
               ((wpublished w ++ [paused]) ++ [resumed]) (spawned w) (wenv w))
            a ws up NoCall ((ret ++ [None]) ++ [None])).
  assert (Hstd : Status (set_Status StatusPaused d) = StatusPaused) by done.
  repeat split.
  - cbn [singleRun]. unfold singleStep at 1. cbn [fst snd].
    unfold step at 1, crashed. cbn [workers]. rewrite Hcr.
    unfold PauseDownload, callSend.
    cbn [caller world target workers updater returned]. rewrite Hid, Hd.
    destruct (decide (Status d = StatusDownloading)) as [_|Hn]; [|done].
    unfold singleStep at 1.
    cbn [fst snd world target workers updater caller returned].
    unfold view, set_heap. cbn [heap wfiles wpublished wenv downloads spawned].
    rewrite lookup_insert_eq. unfold readerStep at 1.
    cbn [r_pc r_body r_downloaded dl upd_dl pauseChan set_pauseChan].
    unfold singleStep, step, crashed, callReturn, commit.
    cbn [fst snd world target workers updater caller returned heap wfiles
         wpublished wenv downloads spawned dl files published env].
    unfold upd_dl. cbn [dl files published env].
    rewrite Hcr, lookup_insert_eq, Hpaused, insert_insert_eq.
    cbn [pauseChan set_Status]. rewrite Hch. reflexivity.
  - cbn [world heap]. by rewrite lookup_insert_eq.
  - unfold singleStep. cbn [fst snd world target]. unfold view.
    cbn [heap]. rewrite lookup_insert_eq. unfold readerStep.
    cbn [r_pc dl pauseChan set_Status]. by rewrite Hch.
  - cbn [singleRun]. unfold singleStep at 1. cbn [fst snd].
    unfold step at 1, crashed. cbn [workers]. rewrite Hcr.
    unfold ResumeDownload, callSend.
    cbn [caller world target workers updater returned downloads heap].
    rewrite Hid, lookup_insert_eq.
    destruct (decide (Status (set_Status StatusPaused d) = StatusPaused))
      as [_|Hn]; [|done].
    unfold singleStep at 1.
    cbn [fst snd world target workers updater caller returned].
    unfold view, set_heap. cbn [heap wfiles wpublished wenv downloads spawned].
    rewrite lookup_insert_eq. unfold readerStep at 1.
    cbn [r_pc r_body r_downloaded dl upd_dl pauseChan set_pauseChan].
    unfold singleStep, step, crashed, callReturn, commit.
    cbn [fst snd world target workers updater caller returned heap wfiles
         wpublished wenv downloads spawned dl files published env].
    unfold upd_dl. cbn [dl files published env].
    rewrite Hcr, lookup_insert_eq, Hresumed, !insert_insert_eq.
    rewrite Hch. reflexivity.
  - cbn [world heap]. by rewrite lookup_insert_eq.
  - cbn [returned]. by rewrite <- app_assoc.
  - cbn [world wpublished]. by rewrite <- app_assoc.
Qed.

(** X31. On the single-file path the read loop itself receives from the
    pause channel.  With the reader at its select and no call in flight, a
    pause of the downloading download is taken at the reader's next
    scheduling and returns nil; the reader then waits in its second receive
    and reads nothing.  A resume is taken there and returns nil, and leaves
    the reader at its select with the same unread body and byte count, the
    download object as it was before the pause and the files untouched;
    one paused and one resumed update have been published. *)
Theorem single_file_pause_resume (o : Origin) (rd : Reader) (s : System)
    (id : string) (d : Download) :
  crashed s = false ->
  caller s = NoCall ->
  downloads (world s) !! id = Some (target s) ->
  heap (world s) !! target s = Some d ->
  Status d = StatusDownloading ->
  pauseChan d = None ->
  r_pc rd = ReaderAtSelect ->
  let waiting := mkReader (r_body rd) (r_downloaded rd) ReaderAwaitResume in
  exists s1 s2,
    singleRun o [ActCall (ActPause id); ActRead; ActCall ActReturn] (rd, s)
      = Some (waiting, s1) /\
    heap (world s1) !! target s = Some (set_Status StatusPaused d) /\
    returned s1 = returned s ++ [None] /\
    singleStep o ActRead (waiting, s1) = None /\
    singleRun o [ActCall (ActResume id); ActRead; ActCall ActReturn]
      (waiting, s1) = Some (rd, s2) /\
    heap (world s2) !! target s = Some d /\
    returned s2 = returned s ++ [None; None] /\
    wfiles (world s2) = wfiles (world s) /\
    wpublished (world s2) =
      wpublished (world s) ++ [mkUpdate id "paused"; mkUpdate id "resumed"].
Proof. apply reader_pause_resume. Qed.

Lemma single_file_pause_resume_witness :
  let o := rangeOrigin (bytes_of 7) "" in
  exists s2 rd s3,
    singleRun o
      [ActCall (ActPause "2"); ActRead; ActCall ActReturn;
       ActCall (ActResume "2"); ActRead; ActCall ActReturn]
      (reading_reader, reading_system) = Some (reading_reader, s2) /\
    returned s2 = [None; None] /\
    singleRun o [ActRead; ActRead] (reading_reader, s2) = Some (rd, s3) /\
    r_pc rd = ReaderReturned /\
    wfiles (world s3) !! "downloads/f.bin" = Some (bytes_of 7) /\
    targetStatus s3 = Some StatusCompleted /\
    (UpdateType <$> wpublished (world s3)) = ["paused"; "resumed"; "completed"].
Proof.
  intros o.
  destruct (single_file_pause_resume o reading_reader reading_system "2"
              (set_Status StatusDownloading (probed 7 1))
              eq_refl eq_refl eq_refl eq_refl eq_refl eq_refl eq_refl)
    as (s1 & s2 & Hp & _ & _ & _ & Hr & _ & Hret & _ & _).
  vm_compute in Hp. injection Hp as <-.
  vm_compute in Hr. injection Hr as <-.
  eexists _, _, _. split; [vm_compute; reflexivity|].
  split; [exact Hret|].
  split; [vm_compute; reflexivity|].
  repeat split; vm_compute; reflexivity.
Defined.

(** ** The controller in stretches *)

Lemma probe_env o c c' : probe o c = inr c' -> env c' = env c.
Proof.
  unfold probe. destruct (do_head o); try discriminate.
  destruct (_ || _); [discriminate|]. by intros [= <-].
Qed.

Lemma fetchChunks_env o c c' errs :
  fetchChunks o c = Done (c', errs) -> env c' = env c.
Proof.
  unfold fetchChunks. destruct (_ =? 0); [discriminate|].
  destruct (_ <? 0); [discriminate|].
  destruct (runWorkers _ _ _ _ _) as [[c1 errs1]|msg|msg] eqn:Hrun;
    [|discriminate..].
  intros [= <- _]. by eapply runWorkers_env.
Qed.

Lemma view_commit a c w :
  env c = wenv w -> view a (commit a c w) = Some c.
Proof.
  intros He. unfold view, commit. cbn [heap wfiles wpublished wenv].
  rewrite lookup_insert_eq, <- He. by destruct c.
Qed.

Lemma commit_commit a c c' w : commit a c' (commit a c w) = commit a c' w.
Proof.
  unfold commit. cbn [downloads heap spawned wenv].
  by rewrite insert_insert_eq.
Qed.

(** Run one after the other with nothing in between, the three stretches
    are the controller. *)
Lemma runController_stretches (o : Origin) (a : nat) (w : World) :
  runController o a w =
    match controllerProbe o a w with
    | Done (w1, false) => Done w1
    | Done (w1, true) =>
        match controllerFetch o a w1 with
        | Done (w2, chunkErrors) => controllerFinish a chunkErrors w2
        | Panic msg => Panic msg
        | Fatal msg => Fatal msg
        end
    | Panic msg => Panic msg
    | Fatal msg => Fatal msg
    end.
Proof.
  unfold runController, controllerProbe.
  destruct (view a w) as [c|] eqn:Hview; [|done].
  assert (Hc : env c = wenv w).
  { unfold view in Hview. destruct (heap w !! a); [|done].
    by injection Hview as <-. }
  unfold startDownload. destruct (probe o c) as [c1|c1] eqn:Hprobe; [done|].
  apply probe_env in Hprobe.
  unfold controllerFetch. rewrite view_commit by congruence.
  unfold downloadChunked.
  destruct (fetchChunks o c1) as [[c2 errs]|msg|msg] eqn:Hfetch; [|done..].
  apply fetchChunks_env in Hfetch.
  cbn [outcome_map fst snd]. unfold controllerFinish.
  rewrite view_commit by (cbn [commit wenv]; congruence).
  by rewrite !commit_commit.
Qed.
